(** * Ability-text compiler of the Cockatrice-to-Forge converter

    Shallow embedding of [scripts/convert_cockatrice_to_forge_advanced_2.py]:
    the [AbilityParser] class, the module-level functions
    ([sanitize_filename], [parse_mana_cost], [parse_card_type],
    [escape_forge_text], [convert_card]) and the loop of [main],
    together with the string and regular-expression primitives of Python
    they are written with.

    A Python [str] is a sequence of Unicode code points, so a string is a
    list of code points here.  ASCII literals of the source are written
    [lit "..."]; the two non-ASCII characters of the source, the em dash
    and the bullet, are the constants [EM_DASH] and [BULLET]. *)

From Stdlib Require Import List NArith Arith String Ascii Bool Lia DecimalString DecimalN.
Import ListNotations.

Set Implicit Arguments.
Open Scope string_scope.
Open Scope list_scope.

(** ** Python strings *)

Definition char := N.
Definition str := list char.
Bind Scope N_scope with char.

Definition lit (s : string) : str :=
  List.map N_of_ascii (list_ascii_of_string s).

Definition EM_DASH : char := 8212%N.
Definition BULLET : char := 8226%N.
Definition NL : char := 10%N.
Definition DQUOTE : char := 34%N.

Module Py.

Definition between (lo hi c : char) : bool := (N.leb lo c && N.leb c hi)%bool.

(** [str.isspace] on one code point, which is also the class [\s] of a
    [str] pattern: the Unicode white space of CPython. *)
Definition isspace (c : char) : bool :=
  (between 9 13 c || between 28 32 c || N.eqb c 133 || N.eqb c 160
   || N.eqb c 5760 || between 8192 8202 c || N.eqb c 8232 || N.eqb c 8233
   || N.eqb c 8239 || N.eqb c 8287 || N.eqb c 12288)%N%bool.

(** The classes [\d] and [\w] of a pattern and [str.isdigit] are those of
    the ASCII range: the tables of the Unicode database for the digits
    and letters of other scripts are not reproduced. *)
Definition isdigit (c : char) : bool := between 48 57 c.
Definition isupper (c : char) : bool := between 65 90 c.
Definition islower (c : char) : bool := between 97 122 c.
Definition isword (c : char) : bool :=
  (isdigit c || isupper c || islower c || N.eqb c 95)%bool.

(** [str.lower] on one code point.  It is exact on the ASCII range and on
    the two code points outside it whose lower case holds an ASCII letter
    (U+0130 and the Kelvin sign U+212A); the other cased letters outside
    ASCII are left as they are, which the converter cannot observe: it
    only searches lower-cased text for ASCII keywords. *)
Definition lower_char (c : char) : str :=
  if isupper c then [(c + 32)%N]
  else if N.eqb c 304 then [105; 775]%N
  else if N.eqb c 8490 then [107%N]
  else [c].

Definition lower (s : str) : str := List.flat_map lower_char s.

(** [s.startswith(p)] *)
Fixpoint startswith (p s : str) : bool :=
  match p, s with
  | [], _ => true
  | x :: p', y :: s' => (N.eqb x y && startswith p' s')%bool
  | _ :: _, [] => false
  end.

(** [sub in s] *)
Fixpoint contains (sub s : str) : bool :=
  (startswith sub s ||
   match s with
   | [] => false
   | _ :: s' => contains sub s'
   end)%bool.

(** [c in 'WUBRG'] and the like, for one character [c] *)
Definition char_in (c : char) (set : str) : bool :=
  List.existsb (N.eqb c) set.

Fixpoint lstrip (s : str) : str :=
  match s with
  | c :: s' => if isspace c then lstrip s' else s
  | [] => []
  end.

Definition rstrip (s : str) : str := List.rev (lstrip (List.rev s)).

(** [s.strip()] *)
Definition strip (s : str) : str := rstrip (lstrip s).

(** truth value of a string: [if s:] *)
Definition truthy (s : str) : bool :=
  match s with [] => false | _ :: _ => true end.

(** [sep.join(l)] *)
Fixpoint join (sep : str) (l : list str) : str :=
  match l with
  | [] => []
  | [x] => x
  | x :: l' => x ++ sep ++ join sep l'
  end.

(** [s.replace(old, new)] for a non-empty [old]: occurrences are found
    from left to right and do not overlap.  [skip] counts the characters
    of the occurrence just replaced that are still to be passed over. *)
Fixpoint replace_from (old new : str) (skip : nat) (s : str) : str :=
  match s with
  | [] => []
  | c :: s' =>
      match skip with
      | S k => replace_from old new k s'
      | O =>
          if startswith old s
          then new ++ replace_from old new (Nat.pred (List.length old)) s'
          else c :: replace_from old new 0 s'
      end
  end.

(** [s.replace(old, new)]; with an empty [old] Python puts [new] before
    every character and at the end. *)
Definition replace (old new s : str) : str :=
  match old with
  | [] => new ++ List.flat_map (fun c => c :: new) s
  | _ :: _ => replace_from old new 0 s
  end.

(** [s.split(sep)] for a non-empty [sep]; [acc] is the current piece,
    reversed. *)
Fixpoint split_from (sep : str) (skip : nat) (acc : str) (s : str) : list str :=
  match s with
  | [] => [List.rev acc]
  | c :: s' =>
      match skip with
      | S k => split_from sep k acc s'
      | O =>
          if startswith sep s
          then List.rev acc :: split_from sep (Nat.pred (List.length sep)) [] s'
          else split_from sep 0 (c :: acc) s'
      end
  end.

Definition split (sep s : str) : list str := split_from sep 0 [] s.

(** [str(n)] for a non-negative integer *)
Definition str_of_N (n : N) : str := lit (NilZero.string_of_uint (N.to_uint n)).
Definition str_of_nat (n : nat) : str := lit (NilZero.string_of_uint (Nat.to_uint n)).

(** [s[:n]] *)
Definition upto (n : nat) (s : str) : str := List.firstn n s.

End Py.

(** ** Regular expressions

    A backtracking matcher for the fragment of Python's [re] that the
    converter uses: literals, character classes, sequence, ordered
    alternation, greedy and lazy repetition of a character class,
    capture groups, look-ahead, a one-character look-behind, [^] and [$]
    (without [re.MULTILINE]).  Alternatives and repetitions are tried in
    the order of Python's engine, so the first match found is Python's. *)

Module Re.

Inductive re : Type :=
| Eps                                   (* the empty pattern *)
| Cls (p : char -> bool)                (* one character of a class *)
| Lit (l : str)                         (* a literal string *)
| Seq (a b : re)                        (* ab *)
| Alt (a b : re)                        (* a|b *)
| Star (greedy : bool) (p : char -> bool)  (* [p]* and [p]*? *)
| Grp (n : nat) (a : re)                (* capture group number n *)
| Ahead (a : re)                        (* (?=a) *)
| Behind (p : char -> bool)             (* (?<=[p]) *)
| Bos                                   (* ^ *)
| Eos.                                  (* $ *)

(** [p]+ and [p]+? *)
Definition Plus (greedy : bool) (p : char -> bool) : re :=
  Seq (Cls p) (Star greedy p).

(** Character classes.  [dot] is [.] without [re.DOTALL], [any] with it. *)
Definition any (c : char) : bool := true.
Definition dot (c : char) : bool := negb (N.eqb c NL).
Definition one_of (set : str) (c : char) : bool := Py.char_in c set.

(** A position in the subject: the character before it, if any, and the
    text from it on. *)
Definition cursor : Type := option char * str.

(** The groups closed so far, most recent first. *)
Definition caps : Type := list (nat * str).

Fixpoint group (n : nat) (g : caps) : str :=
  match g with
  | [] => []
  | (m, s) :: g' => if Nat.eqb m n then s else group n g'
  end.

Section Matcher.
Variable A : Type.

Fixpoint star_greedy (p : char -> bool) (prev : option char) (s : str)
         (k : cursor -> option A) : option A :=
  match s with
  | c :: s' =>
      if p c then
        match star_greedy p (Some c) s' k with
        | Some r => Some r
        | None => k (prev, s)
        end
      else k (prev, s)
  | [] => k (prev, s)
  end.

Fixpoint star_lazy (p : char -> bool) (prev : option char) (s : str)
         (k : cursor -> option A) : option A :=
  match k (prev, s) with
  | Some r => Some r
  | None =>
      match s with
      | c :: s' => if p c then star_lazy p (Some c) s' k else None
      | [] => None
      end
  end.

End Matcher.

(** The text of [l] at the front of [s]: the cursor after it. *)
Fixpoint eat (l : str) (prev : option char) (s : str) : option cursor :=
  match l with
  | [] => Some (prev, s)
  | x :: l' =>
      match s with
      | y :: s' => if N.eqb x y then eat l' (Some y) s' else None
      | [] => None
      end
  end.

(** The text between two positions of one subject. *)
Definition consumed (from to : cursor) : str :=
  List.firstn (List.length (snd from) - List.length (snd to)) (snd from).

Fixpoint run (A : Type) (r : re) (c : cursor) (g : caps)
         (k : cursor -> caps -> option A) {struct r} : option A :=
  match r with
  | Eps => k c g
  | Cls p =>
      match snd c with
      | x :: s' => if p x then k (Some x, s') g else None
      | [] => None
      end
  | Lit l =>
      match eat l (fst c) (snd c) with
      | Some c' => k c' g
      | None => None
      end
  | Seq a b => run a c g (fun c' g' => run b c' g' k)
  | Alt a b =>
      match run a c g k with
      | Some r => Some r
      | None => run b c g k
      end
  | Star true p => star_greedy p (fst c) (snd c) (fun c' => k c' g)
  | Star false p => star_lazy p (fst c) (snd c) (fun c' => k c' g)
  | Grp n a => run a c g (fun c' g' => k c' ((n, consumed c c') :: g'))
  | Ahead a =>
      match run a c g (fun _ _ => Some tt) with
      | Some _ => k c g
      | None => None
      end
  | Behind p =>
      match fst c with
      | Some x => if p x then k c g else None
      | None => None
      end
  | Bos =>
      match fst c with
      | None => k c g
      | Some _ => None
      end
  | Eos =>
      match snd c with
      | [] => k c g
      | [x] => if N.eqb x NL then k c g else None
      | _ => None
      end
  end.

(** A match at one position: where it ends and what the groups hold. *)
Definition at_cursor (r : re) (c : cursor) : option (cursor * caps) :=
  run r c [] (fun c' g => Some (c', g)).

(** [re.match(r, s)] *)
Definition rmatch (r : re) (s : str) : option (cursor * caps) :=
  at_cursor r (None, s).

(** [re.search(r, s)]: the match at the leftmost position that has one. *)
Fixpoint search_from (r : re) (prev : option char) (s : str)
  : option (cursor * caps) :=
  match at_cursor r (prev, s) with
  | Some m => Some m
  | None =>
      match s with
      | [] => None
      | x :: s' => search_from r (Some x) s'
      end
  end.

Definition search (r : re) (s : str) : option (cursor * caps) :=
  search_from r None s.

(** The length of the match of [r] at a position. *)
Definition match_len (r : re) (prev : option char) (s : str) : option nat :=
  match at_cursor r (prev, s) with
  | Some (c', _) => Some (List.length s - List.length (snd c'))
  | None => None
  end.

(** The scanning functions below are those of [re] for patterns whose
    matches are never empty, which holds of every pattern they are used
    with; [skip] counts the characters of the current match still to be
    passed over. *)

(** [re.split(r, s)]; [acc] is the current piece, reversed. *)
Fixpoint split_from (r : re) (skip : nat) (prev : option char) (acc : str)
         (s : str) : list str :=
  match s with
  | [] => [List.rev acc]
  | x :: s' =>
      match skip with
      | S n => split_from r n (Some x) acc s'
      | O =>
          match match_len r prev s with
          | Some (S n) => List.rev acc :: split_from r n (Some x) [] s'
          | _ => split_from r 0 (Some x) (x :: acc) s'
          end
      end
  end.

Definition split (r : re) (s : str) : list str := split_from r 0 None [] s.

(** [re.findall(r, s)] for a pattern with one group: what group 1 holds
    in each match. *)
Fixpoint findall_from (r : re) (skip : nat) (prev : option char) (s : str)
  : list str :=
  match s with
  | [] => []
  | x :: s' =>
      match skip with
      | S n => findall_from r n (Some x) s'
      | O =>
          match at_cursor r (prev, s) with
          | Some (c', g) =>
              match List.length s - List.length (snd c') with
              | S n => group 1 g :: findall_from r n (Some x) s'
              | O => findall_from r 0 (Some x) s'
              end
          | None => findall_from r 0 (Some x) s'
          end
      end
  end.

Definition findall (r : re) (s : str) : list str := findall_from r 0 None s.

(** [re.sub(r, repl, s)] for a replacement without group references. *)
Fixpoint sub_from (r : re) (repl : str) (skip : nat) (prev : option char)
         (s : str) : str :=
  match s with
  | [] => []
  | x :: s' =>
      match skip with
      | S n => sub_from r repl n (Some x) s'
      | O =>
          match match_len r prev s with
          | Some (S n) => repl ++ sub_from r repl n (Some x) s'
          | _ => x :: sub_from r repl 0 (Some x) s'
          end
      end
  end.

Definition sub (r : re) (repl s : str) : str := sub_from r repl 0 None s.

End Re.

(** ** The patterns of the source *)

Module Pat.
Import Re.

Definition ws := Py.isspace.
Definition digit := Py.isdigit.

(** [(?<=[.!?])\s+(?=[A-Z{])] *)
Definition sentence_end : char -> bool := one_of (lit ".!?").
Definition block_start (c : char) : bool := (Py.isupper c || N.eqb c 123)%bool.
Definition block_boundary : re :=
  Seq (Behind sentence_end) (Seq (Plus true ws) (Ahead (Cls block_start))).

(** [^\{.+?\}:] *)
Definition cost_prefix : re :=
  Seq Bos (Seq (Lit (lit "{")) (Seq (Plus false dot) (Lit (lit "}:")))).

(** [^(.*?)(Choose (?:one|two|up to \w+).*?)$] with [re.DOTALL] *)
Definition modal : re :=
  Seq Bos
      (Seq (Grp 1 (Star false any))
           (Seq (Grp 2 (Seq (Lit (lit "Choose "))
                            (Seq (Alt (Lit (lit "one"))
                                      (Alt (Lit (lit "two"))
                                           (Seq (Lit (lit "up to "))
                                                (Plus true Py.isword))))
                                 (Star false any))))
                Eos)).

(** [[•\-]\s*(.+?)(?=\n[•\-]|\n\n|$)] with [re.DOTALL] *)
Definition bullet (c : char) : bool := (N.eqb c BULLET || N.eqb c 45)%bool.
Definition modal_choice : re :=
  Seq (Cls bullet)
      (Seq (Star true ws)
           (Seq (Grp 1 (Plus false any))
                (Ahead (Alt (Seq (Lit [NL]) (Cls bullet))
                            (Alt (Lit [NL; NL]) Eos))))).

(** [(.+?),\s+(.+?)(?:\.|$)] with [re.DOTALL], the common tail of the
    three trigger patterns *)
Definition clause_pair : re :=
  Seq (Grp 1 (Plus false any))
      (Seq (Lit (lit ","))
           (Seq (Plus true ws)
                (Seq (Grp 2 (Plus false any))
                     (Alt (Lit (lit ".")) Eos)))).

(** [Whenever\s+(.+?),\s+(.+?)(?:\.|$)] with [re.DOTALL] *)
Definition whenever : re :=
  Seq (Lit (lit "Whenever")) (Seq (Plus true ws) clause_pair).

(** [When\s+(.+?),\s+(.+?)(?:\.|$)] with [re.DOTALL] *)
Definition when : re :=
  Seq (Lit (lit "When")) (Seq (Plus true ws) clause_pair).

(** [At the beginning of (.+?),\s+(.+?)(?:\.|$)] with [re.DOTALL] *)
Definition beginning : re :=
  Seq (Lit (lit "At the beginning of ")) clause_pair.

(** [Upkeep[—:]\s*(.+?)(?:\.|$)] *)
Definition upkeep : re :=
  Seq (Lit (lit "Upkeep"))
      (Seq (Cls (fun c => N.eqb c EM_DASH || N.eqb c 58)%bool)
           (Seq (Star true ws)
                (Seq (Grp 1 (Plus false dot))
                     (Alt (Lit (lit ".")) Eos)))).

(** [^(\{.+?\}):\s*(.+?)(?:\.|$)] with [re.DOTALL] *)
Definition activated : re :=
  Seq Bos
      (Seq (Grp 1 (Seq (Lit (lit "{")) (Seq (Plus false any) (Lit (lit "}")))))
           (Seq (Lit (lit ":"))
                (Seq (Star true ws)
                     (Seq (Grp 2 (Plus false any))
                          (Alt (Lit (lit ".")) Eos))))).

(** [gets?\s+([\+\-]\d+)/([\+\-]\d+)] *)
Definition sign : char -> bool := one_of (lit "+-").
Definition pump : re :=
  Seq (Lit (lit "get"))
      (Seq (Alt (Lit (lit "s")) Eps)
           (Seq (Plus true ws)
                (Seq (Grp 1 (Seq (Cls sign) (Plus true digit)))
                     (Seq (Lit (lit "/"))
                          (Grp 2 (Seq (Cls sign) (Plus true digit))))))).

(** [^(whenever|when)\s+] *)
Definition trigger_word : re :=
  Seq Bos
      (Seq (Grp 1 (Alt (Lit (lit "whenever")) (Lit (lit "when"))))
           (Plus true ws)).

(** [(\d+)], and [(\d+)\s+KEYWORD] for a keyword made of letters *)
Definition number (keyword : str) : re :=
  if Py.truthy keyword
  then Seq (Grp 1 (Plus true digit)) (Seq (Plus true ws) (Lit keyword))
  else Grp 1 (Plus true digit).

(** [\s+] *)
Definition spaces : re := Plus true ws.

(** [[^a-z0-9\s-]] *)
Definition name_char (c : char) : bool :=
  (Py.islower c || Py.isdigit c || Py.isspace c || N.eqb c 45)%bool.
Definition not_name_char : re := Cls (fun c => negb (name_char c)).

End Pat.

(** ** class AbilityParser *)

Module AbilityParser.

(** The instance: its two line buffers and the support-variable counter. *)
Record t : Type := mk {
  ability_lines : list str;
  svar_lines : list str;
  svar_counter : N
}.

Definition __init__ : t := mk [] [] 0.

Definition add_ability_line (self : t) (l : str) : t :=
  mk (ability_lines self ++ [l]) (svar_lines self) (svar_counter self).

Definition add_svar_line (self : t) (l : str) : t :=
  mk (ability_lines self) (svar_lines self ++ [l]) (svar_counter self).

(** [if x: ... else: ...] on a value that is a string or [None] *)
Definition if_truthy (B : Type) (o : option str) (th : str -> B) (el : B) : B :=
  match o with
  | Some (c :: s) => th (c :: s)
  | _ => el
  end.

Definition _get_next_svar_name (self : t) (base : str) : str * t :=
  let self := mk (ability_lines self) (svar_lines self) (svar_counter self + 1) in
  (base ++ Py.str_of_N (svar_counter self), self).

Definition _parse_cost (cost_str : str) : str :=
  let cost_str := Py.strip cost_str in
  let cost_str :=
    Py.strip (Py.replace (lit "}") (lit " ") (Py.replace (lit "{") [] cost_str)) in
  Re.sub Pat.spaces (lit " ") cost_str.

Definition counter_types : list (str * str) :=
  [ (lit "+1/+1", lit "P1P1");
    (lit "-1/-1", lit "M1M1");
    (lit "drunken", lit "DRUNKEN");
    (lit "stun", lit "STUN");
    (lit "obsession", lit "OBSESSION");
    (lit "charge", lit "CHARGE");
    (lit "loyalty", lit "LOYALTY");
    (lit "haze", lit "HAZE");
    (lit "lost family", lit "LOST_FAMILY") ].

(** The value of the first entry of a table whose key occurs in [s]. *)
Fixpoint first_key_in (table : list (str * str)) (s : str) : option str :=
  match table with
  | [] => None
  | (k, v) :: table' => if Py.contains k s then Some v else first_key_in table' s
  end.

Definition _extract_counter_type (text : str) : str :=
  match first_key_in counter_types (Py.lower text) with
  | Some forge_type => forge_type
  | None => lit "GENERIC"
  end.

Definition _extract_number (text keyword : str) : str :=
  match Re.search (Pat.number keyword) text with
  | Some (_, g) => Re.group 1 g
  | None =>
      if (Py.contains (lit "a ") (Py.lower text)
          || Py.contains (lit "one ") (Py.lower text))%bool then lit "1"
      else if Py.contains (lit "two ") (Py.lower text) then lit "2"
      else if Py.contains (lit "three ") (Py.lower text) then lit "3"
      else lit "1"
  end.

Definition _parse_effect_to_ability (text : str) : option str :=
  let lower := Py.strip (Py.lower text) in
  let has k := Py.contains (lit k) lower in
  if (has "you gain" && has "life")%bool then
    let num := _extract_number text (lit "life") in
    Some (lit "GainLife | Defined$ You | LifeAmount$ " ++ num)
  else if (has "loses" && has "life" && has "opponent")%bool then
    let num := _extract_number text (lit "life") in
    Some (lit "LoseLife | Defined$ EachOpponent | LifeAmount$ " ++ num)
  else if (has "loses" && has "life")%bool then
    let num := _extract_number text (lit "life") in
    Some (lit "LoseLife | Defined$ You | LifeAmount$ " ++ num)
  else if has "draw" then
    let num := _extract_number text (lit "card") in
    Some (lit "Draw | Defined$ You | NumCards$ " ++ num)
  else if (has "deals" && has "damage")%bool then
    let num := _extract_number text (lit "damage") in
    if has "target" then
      Some (lit "DealDamage | NumDmg$ " ++ num
            ++ lit " | ValidTgts$ Creature.Other,Player | TgtPrompt$ Select target")
    else
      Some (lit "DealDamage | NumDmg$ " ++ num ++ lit " | Defined$ TriggeredPlayer")
  else if (has "create" && has "token")%bool then
    let amount := _extract_number text (lit "token") in
    if has "food" then
      Some (lit "Token | TokenScript$ food | TokenAmount$ " ++ amount)
    else if has "treasure" then
      Some (lit "Token | TokenScript$ treasure | TokenAmount$ " ++ amount)
    else if has "beer" then
      Some (lit "Token | TokenScript$ beer | TokenAmount$ " ++ amount)
    else if has "gnome" then
      Some (lit "Token | TokenScript$ gnome | TokenAmount$ " ++ amount)
    else if has "goblin" then
      Some (lit "Token | TokenScript$ goblin | TokenAmount$ " ++ amount)
    else
      Some (lit "Token | TokenScript$ generic | TokenAmount$ " ++ amount)
  else if has "discard" then
    if has "target opponent" then
      Some (lit "Discard | Mode$ TgtChoose | NumCards$ 1 | ValidTgts$ Player.Opponent")
    else
      Some (lit "Discard | Mode$ TgtChoose | NumCards$ 1")
  else if has "mill" then
    let num := _extract_number text (lit "card") in
    Some (lit "Mill | NumCards$ " ++ num ++ lit " | Defined$ You")
  else if (has "counter" && has "spell")%bool then
    Some (lit "Counter | Destination$ Hand")
  else if (has "tap" && has "target")%bool then
    Some (lit "Tap | ValidTgts$ Creature | TgtPrompt$ Select target creature")
  else if has "untap" then
    Some (lit "Untap | ValidTgts$ Permanent | TgtPrompt$ Select target permanent")
  else if has "scry" then
    let num := _extract_number text [] in
    Some (lit "Scry | ScryNum$ " ++ num)
  else if has "surveil" then
    let num := _extract_number text [] in
    Some (lit "Surveil | NumCards$ " ++ num)
  else if (has "put" && has "counter")%bool then
    let counter_type := _extract_counter_type text in
    let num := _extract_number text (lit "counter") in
    Some (lit "PutCounter | CounterType$ " ++ counter_type
          ++ lit " | CounterNum$ " ++ num ++ lit " | Defined$ Targeted")
  else if has "sacrifice" then
    if has "creature" then Some (lit "Sacrifice | SacValid$ Creature")
    else Some (lit "Sacrifice | SacValid$ Card")
  else if (has "search" && has "library")%bool then
    Some (lit "ChangeZone | Origin$ Library | Destination$ Hand | ChangeType$ Card | ChangeNum$ 1 | Mandatory$ False")
  else if (has "return" && has "graveyard" && has "battlefield")%bool then
    Some (lit "ChangeZone | Origin$ Graveyard | Destination$ Battlefield | ChangeType$ Creature")
  else None.

Definition _extract_trigger (trigger_text : str) : option str :=
  let lower := Py.lower trigger_text in
  let low k := Py.contains (lit k) lower in
  let phases :=
    if (low "beginning of" || low "upkeep" || low "end of")%bool then
      if low "upkeep" then Some (lit "Mode$ Phase | Phase$ Upkeep")
      else if low "combat" then Some (lit "Mode$ Phase | Phase$ BeginCombat")
      else if (low "end step" || low "end of turn")%bool
      then Some (lit "Mode$ Phase | Phase$ EndOfTurn")
      else None
    else None in
  if (low "whenever" || low "when")%bool then
    let clean := Re.sub Pat.trigger_word [] lower in
    let has k := Py.contains (lit k) clean in
    if has "enters the battlefield" then
      Some (lit "Mode$ ChangesZone | Destination$ Battlefield | ValidCard$ Card.Self | TriggerZones$ Battlefield")
    else if (has "dies" || has "put into a graveyard")%bool then
      Some (lit "Mode$ ChangesZone | Origin$ Battlefield | Destination$ Graveyard | ValidCard$ Card.Self | TriggerZones$ Graveyard")
    else if has "attacks" then
      Some (lit "Mode$ Attacks | ValidCard$ Card.Self | TriggerZones$ Battlefield")
    else if (has "discards" && (has "you" || has "opponent"))%bool then
      Some (lit "Mode$ Discard | TriggerZones$ Battlefield")
    else if (has "creature" && (has "enters" || has "etb"))%bool then
      Some (lit "Mode$ ChangesZone | Destination$ Battlefield | TriggerZones$ Battlefield")
    else if has "cast" then
      Some (lit "Mode$ SpellCast | ValidCard$ Card.YouOwn | TriggerZones$ Battlefield")
    else if (has "taps" || has "tapped")%bool then
      Some (lit "Mode$ Taps | TriggerZones$ Battlefield")
    else if has "sacrifice" then
      Some (lit "Mode$ ChangesZone | Destination$ Graveyard | TriggerZones$ Graveyard")
    else phases
  else phases.

Definition _parse_spell_effect (self : t) (text : str) : t :=
  if_truthy (_parse_effect_to_ability text)
    (fun effect =>
       add_ability_line self
         (lit "A:SP$ " ++ effect ++ lit " | SpellDescription$ " ++ Py.upto 100 text))
    self.

Definition _parse_restriction_static (self : t) (text : str) : t :=
  add_ability_line self (lit "S:Mode$ Continuous | Description$ " ++ text).

Definition keywords : list str :=
  List.map lit
    [ "vigilance"; "flying"; "trample"; "haste"; "first strike"; "double strike";
      "indestructible"; "hexproof"; "shroud"; "reach"; "lifelink"; "menace" ]%string.

Definition _parse_keyword_static (self : t) (text : str) : t :=
  let found_keywords :=
    List.filter (fun kw => Py.contains kw (Py.lower text)) keywords in
  match found_keywords with
  | [] => self
  | _ :: _ =>
      let affected :=
        if Py.contains (lit "creatures you control") text
        then lit "Creature.YouCtrl" else lit "Card" in
      let duration :=
        if Py.contains (lit "until end of turn") text
        then lit "EndOfTurn" else lit "Permanent" in
      let kw_str := Py.join (lit " & ") found_keywords in
      add_ability_line self
        (lit "S:Mode$ Continuous | Affected$ " ++ affected
         ++ lit " | AddKeyword$ " ++ kw_str
         ++ lit " | Duration$ " ++ duration
         ++ lit " | Description$ " ++ text)
  end.

Definition _parse_pump_static (self : t) (text : str) : t :=
  match Re.search Pat.pump text with
  | None => self
  | Some (_, g) =>
      let power := Re.group 1 g in
      let tough := Re.group 2 g in
      let has k := Py.contains (lit k) text in
      let affected :=
        if has "creatures you control" then lit "Creature.YouCtrl"
        else if (has "creature" && has "you control")%bool then lit "Creature.YouCtrl"
        else if has "creature you control" then lit "Creature.YouCtrl"
        else lit "Card" in
      let duration :=
        if has "until end of turn" then lit "EndOfTurn" else lit "Permanent" in
      add_ability_line self
        (lit "S:Mode$ Continuous | Affected$ " ++ affected
         ++ lit " | AddPower$ " ++ power
         ++ lit " | AddToughness$ " ++ tough
         ++ lit " | Duration$ " ++ duration
         ++ lit " | Description$ " ++ text)
  end.

Definition _parse_static_ability (self : t) (text : str) : t :=
  let has k := Py.contains (lit k) text in
  if (has "gets " || has "get ")%bool then _parse_pump_static self text
  else if (has "can't" || has "cannot")%bool then _parse_restriction_static self text
  else if (has "has " || has "have ")%bool then _parse_keyword_static self text
  else add_ability_line self (lit "S:Mode$ Continuous | Description$ " ++ text).

Definition _parse_activated_ability (self : t) (text : str) : t :=
  match Re.rmatch Pat.activated text with
  | None => self
  | Some (_, g) =>
      let cost_str := Re.group 1 g in
      let effect_text := Py.strip (Re.group 2 g) in
      let cost := _parse_cost cost_str in
      if Py.truthy cost then
        if_truthy (_parse_effect_to_ability effect_text)
          (fun effect =>
             add_ability_line self
               (lit "A:AB$ " ++ effect ++ lit " | Cost$ " ++ cost
                ++ lit " | SpellDescription$ " ++ Py.upto 100 text))
          self
      else self
  end.

Definition _parse_upkeep_ability (self : t) (text : str) : t :=
  match Re.search Pat.upkeep text with
  | None => self
  | Some (_, g) =>
      let cost_text := Py.strip (Re.group 1 g) in
      let (svar_name, self) := _get_next_svar_name self (lit "UpkeepEffect") in
      if_truthy (_parse_effect_to_ability cost_text)
        (fun effect =>
           let self := add_svar_line self
             (lit "SVar:" ++ svar_name ++ lit ":" ++ effect) in
           add_ability_line self
             (lit "T:Mode$ Phase | Phase$ Upkeep | TriggerZones$ Battlefield | Execute$ "
              ++ svar_name ++ lit " | TriggerDescription$ Upkeep"
              ++ [EM_DASH] ++ lit " " ++ cost_text))
        self
  end.

Definition phase_map : list (str * str) :=
  [ (lit "upkeep", lit "Upkeep");
    (lit "your upkeep", lit "Upkeep");
    (lit "combat", lit "BeginCombat");
    (lit "your end step", lit "EndOfTurn");
    (lit "end step", lit "EndOfTurn");
    (lit "each upkeep", lit "Upkeep");
    (lit "your next upkeep", lit "Upkeep") ].

Definition _parse_beginning_ability (self : t) (text : str) : t :=
  match Re.rmatch Pat.beginning text with
  | None => self
  | Some (_, g) =>
      let timing := Py.lower (Py.strip (Re.group 1 g)) in
      let effect_text := Py.strip (Re.group 2 g) in
      if_truthy (first_key_in phase_map timing)
        (fun phase =>
           let (svar_name, self) := _get_next_svar_name self (lit "Effect") in
           if_truthy (_parse_effect_to_ability effect_text)
             (fun effect =>
                let self := add_svar_line self
                  (lit "SVar:" ++ svar_name ++ lit ":" ++ effect) in
                add_ability_line self
                  (lit "T:Mode$ Phase | Phase$ " ++ phase
                   ++ lit " | Execute$ " ++ svar_name
                   ++ lit " | TriggerDescription$ " ++ Py.upto 80 text))
             self)
        self
  end.

(** The body shared by [_parse_whenever_ability] and [_parse_when_ability],
    which differ in the pattern and in the word put back before the
    trigger clause. *)
Definition parse_trigger (pattern : Re.re) (word : str) (self : t) (text : str) : t :=
  match Re.rmatch pattern text with
  | None => self
  | Some (_, g) =>
      let trigger_text := Py.strip (Re.group 1 g) in
      let effect_text := Py.strip (Re.group 2 g) in
      if_truthy (_extract_trigger (word ++ lit " " ++ trigger_text))
        (fun trigger_line =>
           let (svar_name, self) := _get_next_svar_name self (lit "Effect") in
           if_truthy (_parse_effect_to_ability effect_text)
             (fun effect =>
                let self := add_svar_line self
                  (lit "SVar:" ++ svar_name ++ lit ":" ++ effect) in
                add_ability_line self
                  (lit "T:" ++ trigger_line
                   ++ lit " | Execute$ " ++ svar_name
                   ++ lit " | TriggerDescription$ " ++ Py.upto 80 text))
             self)
        self
  end.

Definition _parse_whenever_ability : t -> str -> t :=
  parse_trigger Pat.whenever (lit "Whenever").

Definition _parse_when_ability : t -> str -> t :=
  parse_trigger Pat.when (lit "When").

Definition _parse_modal_choice (self : t) (choice_text : str) (index : nat)
  : str * t :=
  let (choice_svar, self) :=
    _get_next_svar_name self (lit "Choice" ++ Py.str_of_nat index) in
  let ability := _parse_effect_to_ability choice_text in
  (choice_svar,
   if_truthy ability
     (fun ability =>
        add_svar_line self (lit "SVar:" ++ choice_svar ++ lit ":" ++ ability))
     self).

Definition _extract_modal_choices (choices_text : str) : list str :=
  let choices := Re.findall Pat.modal_choice choices_text in
  let choices :=
    match choices with
    | _ :: _ => choices
    | [] =>
        List.map Py.strip
          (List.filter
             (fun c => (Py.truthy (Py.strip c)
                        && negb (Py.startswith (lit "Choose") (Py.strip c)))%bool)
             (Py.split [NL] choices_text))
    end in
  List.map Py.strip (List.filter (fun c => Py.truthy (Py.strip c)) choices).

(** [for i, choice in enumerate(choices, i): ...] of [_parse_modal_ability] *)
Fixpoint modal_choices (self : t) (i : nat) (choices : list str) : list str * t :=
  match choices with
  | [] => ([], self)
  | choice :: choices' =>
      let (choice_svar, self) := _parse_modal_choice self choice i in
      let (choice_svars, self) := modal_choices self (S i) choices' in
      (choice_svar :: choice_svars, self)
  end.

Definition _parse_modal_ability (self : t) (text : str) : t :=
  let (prefix, choices_text) :=
    match Re.rmatch Pat.modal text with
    | Some (_, g) => (Py.strip (Re.group 1 g), Py.strip (Re.group 2 g))
    | None => ([], text)
    end in
  let choices := _extract_modal_choices choices_text in
  match choices with
  | [] => _parse_spell_effect self text
  | _ :: _ =>
      let charm_num := List.length choices in
      let (svar_name, self) := _get_next_svar_name self (lit "Choices") in
      let (choice_svars, self) := modal_choices self 1 choices in
      let self := add_svar_line self
        (lit "SVar:" ++ svar_name ++ lit ":" ++ Py.join (lit ",") choice_svars) in
      if (Py.truthy prefix
          && (Py.contains (lit "Whenever") prefix
              || Py.contains (lit "When") prefix
              || Py.contains (lit "At the beginning") prefix))%bool
      then
        if_truthy (_extract_trigger prefix)
          (fun trigger_line =>
             let (svar_exec, self) := _get_next_svar_name self (lit "CharmEffect") in
             let self := add_svar_line self
               (lit "SVar:" ++ svar_exec ++ lit ":AB$ Charm | CharmNum$ "
                ++ Py.str_of_nat charm_num ++ lit " | Choices$ " ++ svar_name) in
             add_ability_line self
               (lit "T:" ++ trigger_line ++ lit " | Execute$ " ++ svar_exec
                ++ lit " | TriggerDescription$ " ++ Py.upto 80 text))
          self
      else
        add_ability_line self
          (lit "A:SP$ Charm | CharmNum$ " ++ Py.str_of_nat charm_num
           ++ lit " | Choices$ " ++ svar_name
           ++ lit " | SpellDescription$ " ++ Py.upto 100 text)
  end.

Definition static_keywords : list str :=
  [ lit "gets "; lit "have "; lit "has "; lit "can't"; lit "doesn't";
    lit "is "; lit "are " ].

Definition _parse_ability_block (self : t) (text : str) : t :=
  let text := Py.strip text in
  if negb (Py.truthy text) then self
  else if (Py.contains (lit "Choose") text
           && (Py.contains [EM_DASH] text || Py.contains (lit "-") text))%bool
  then _parse_modal_ability self text
  else if Py.startswith (lit "Whenever ") text then _parse_whenever_ability self text
  else if Py.startswith (lit "When ") text then _parse_when_ability self text
  else if Py.startswith (lit "At the beginning of ") text
  then _parse_beginning_ability self text
  else if (Py.contains (lit "Upkeep" ++ [EM_DASH]) text
           || Py.contains (lit "Upkeep:") text)%bool
  then _parse_upkeep_ability self text
  else if match Re.rmatch Pat.cost_prefix text with Some _ => true | None => false end
  then _parse_activated_ability self text
  else if List.existsb (fun kw => Py.contains kw text) static_keywords
  then _parse_static_ability self text
  else _parse_spell_effect self text.

Definition _split_ability_blocks (text : str) : list str :=
  let text := Py.replace [NL] (lit " | NEWLINE | ") text in
  let blocks := Re.split Pat.block_boundary text in
  List.map (Py.replace (lit " | NEWLINE | ") [NL]) blocks.

(** [for block in ability_blocks: ...] of [parse_abilities] *)
Fixpoint parse_blocks (self : t) (ability_blocks : list str) : t :=
  match ability_blocks with
  | [] => self
  | block :: rest =>
      let block := Py.strip block in
      if negb (Py.truthy block) then parse_blocks self rest
      else parse_blocks (_parse_ability_block self block) rest
  end.

(** Returns the two lists and the instance as the call leaves it. *)
Definition parse_abilities (self : t) (text : str) : (list str * list str) * t :=
  if negb (Py.truthy text) then (([], []), self)
  else
    let text := Py.strip text in
    let self := mk [] [] 0 in
    let ability_blocks := _split_ability_blocks text in
    let self := parse_blocks self ability_blocks in
    ((ability_lines self, svar_lines self), self).

End AbilityParser.

(** ** Module-level functions *)

Definition sanitize_filename (name : str) : str :=
  let name := Py.lower name in
  let name := Py.replace (lit "&") (lit "and") (Py.replace (lit "'") [] name) in
  let name := Re.sub Pat.not_name_char [] name in
  let name := Re.sub Pat.spaces (lit "_") name in
  name.

Definition escape_forge_text (text : str) : str :=
  if negb (Py.truthy text) then []
  else Py.replace [EM_DASH] (lit "-") (Py.replace [NL] (lit "\n") text).

Definition WUBRG : str := lit "WUBRG".

(** The [while] loop of [parse_mana_cost], on the text from index [i] on. *)
Fixpoint mana_tokens (mana_str : str) : list str :=
  match mana_str with
  | [] => []
  | a :: from1 =>
      let symbol := (Py.char_in a WUBRG || Py.isdigit a)%bool in
      match from1 with
      | b :: c :: from3 =>
          if (Py.isdigit a && Py.char_in b WUBRG && N.eqb c 47)%bool
          then [a] :: mana_tokens from1
          else if (Py.char_in a WUBRG && N.eqb b 47 && Py.char_in c WUBRG)%bool
          then [a; b; c] :: mana_tokens from3
          else if symbol then [a] :: mana_tokens from1
          else mana_tokens from1
      | _ => if symbol then [a] :: mana_tokens from1 else mana_tokens from1
      end
  end.

Definition parse_mana_cost (mana_str : str) : str :=
  if negb (Py.truthy mana_str) then []
  else Py.join (lit " ") (mana_tokens mana_str).

Definition parse_card_type (type_str : str) : str :=
  if negb (Py.truthy type_str) then []
  else
    let type_str := Py.strip type_str in
    let type_str := Re.sub Pat.spaces (lit " ") type_str in
    if Py.contains (lit " - ") type_str then
      let parts := Py.split (lit " - ") type_str in
      let main_type := Py.strip (List.hd [] parts) in
      let subtypes := Py.strip (Py.join (lit " ") (List.tl parts)) in
      main_type ++ lit " " ++ subtypes
    else type_str.

(** A [<card>] element as [convert_card] reads it: the text of its
    [name], [loyalty] and [text] children (empty when the child is
    missing, as [findtext(..., '')] gives) and its [prop] child, if any,
    with the text of [manacost], [type] and [pt]. *)
Record prop_elem : Type := mk_prop {
  manacost : str;
  type_ : str;
  pt : str
}.

Record card_elem : Type := mk_card {
  name : str;
  prop : option prop_elem;
  loyalty : str;
  text : str
}.

(** The entities decoded before the Oracle line is written. *)
Definition decode_entities (text : str) : str :=
  Py.replace (lit "&amp;") (lit "&")
    (Py.replace (lit "&quot;") [DQUOTE]
       (Py.replace (lit "&apos;") (lit "'") text)).

(** The list [output] of [convert_card] as it is when the function joins it. *)
Definition convert_card_output (card : card_elem) : option (list str) :=
  let name := Py.strip (name card) in
  if negb (Py.truthy name) then None
  else
    let output := [lit "Name:" ++ name] in
    let output :=
      match prop card with
      | Some prop =>
          let mana_cost := Py.strip (manacost prop) in
          let output :=
            if Py.truthy mana_cost
            then output ++ [lit "ManaCost:" ++ parse_mana_cost mana_cost]
            else output ++ [lit "ManaCost:no cost"] in
          let card_type := Py.strip (type_ prop) in
          let output :=
            if Py.truthy card_type
            then output ++ [lit "Types:" ++ parse_card_type card_type]
            else output in
          let pt := Py.strip (pt prop) in
          let output :=
            if Py.truthy pt then output ++ [lit "PT:" ++ pt] else output in
          let loyalty := Py.strip (loyalty card) in
          if Py.truthy loyalty then output ++ [lit "Loyalty:" ++ loyalty] else output
      | None => output
      end in
    let text := Py.strip (text card) in
    let parser := AbilityParser.__init__ in
    let '((ability_lines, svar_lines), _) :=
      AbilityParser.parse_abilities parser text in
    let output := output ++ ability_lines in
    let output := output ++ svar_lines in
    let output :=
      if Py.truthy text then
        let text := decode_entities text in
        let oracle_text := escape_forge_text text in
        output ++ [lit "Oracle:" ++ oracle_text]
      else output ++ [lit "Oracle:"] in
    Some output.

Definition convert_card (card : card_elem) : option str :=
  option_map (Py.join [NL]) (convert_card_output card).

(** [os.path.join(a, b)] on a POSIX system *)
Definition os_path_join (a b : str) : str :=
  if Py.startswith (lit "/") b then b
  else if (negb (Py.truthy a) || Py.startswith (lit "/") (List.rev a))%bool then a ++ b
  else a ++ lit "/" ++ b.

(** What a run of [main] does to the world and to its two counters: the
    directories it asks for, the files it writes (path and content, in
    order; a later write to the same path replaces the earlier one) and
    the lines it prints. *)
Record run_state : Type := mk_run {
  made_dirs : list str;
  written : list (str * str);
  printed : list str;
  total_cards : nat;
  skipped_cards : nat
}.

Definition output_base_dir : str := lit "/home/stefan/github/mtg/forge_cards".

Definition CHECK_MARK : char := 10003%N.

(** The body of the loop [for card_elem in cards] of [main]. *)
Definition main_step (st : run_state) (card : card_elem) : run_state :=
  let name := Py.strip (name card) in
  if negb (Py.truthy name) then st
  else
    match convert_card card with
    | Some (c :: forge_text') =>
        let forge_text := c :: forge_text' in
        let filename := sanitize_filename name in
        let first_letter :=
          match filename with
          | c0 :: _ => Py.lower [c0]
          | [] => lit "z"
          end in
        let subdir := os_path_join output_base_dir first_letter in
        let filepath := os_path_join subdir (filename ++ lit ".txt") in
        mk_run (made_dirs st ++ [subdir])
               (written st ++ [(filepath, forge_text)])
               (printed st ++ [[CHECK_MARK] ++ lit " " ++ name])
               (S (total_cards st))
               (skipped_cards st)
    | _ =>
        mk_run (made_dirs st) (written st) (printed st)
               (total_cards st) (S (skipped_cards st))
    end.

(** [main] from the list [cards] that the XML document gives: the state
    after the loop and the summary lines. *)
Definition main (cards : list card_elem) : run_state :=
  let st :=
    mk_run [output_base_dir] []
           [lit "Found " ++ Py.str_of_nat (List.length cards) ++ lit " cards in XML";
            lit "Converting to Forge format with comprehensive ability parsing..." ++ [NL]]
           0 0 in
  let st := List.fold_left main_step cards st in
  mk_run (made_dirs st) (written st)
         (printed st ++
          [[NL] ++ lit "Conversion complete!";
           lit "Total cards converted: " ++ Py.str_of_nat (total_cards st);
           lit "Skipped: " ++ Py.str_of_nat (skipped_cards st);
           lit "Output directory: " ++ output_base_dir])
         (total_cards st) (skipped_cards st).

(** ** Vocabulary of the specification *)

(** *** Support variables in the output *)

(** [line] is the definition [SVar:<name>:...] of [name]. *)
Definition defines (name line : str) : bool :=
  Py.startswith (lit "SVar:" ++ name ++ lit ":") line.

(** How many of the lines define [name]. *)
Definition definitions_of (name : str) (lines : list str) : nat :=
  List.length (List.filter (defines name) lines).

(** The name an [SVar:] line defines: the text between its first two colons. *)
Fixpoint up_to_colon (s : str) : str :=
  match s with
  | [] => []
  | c :: s' => if N.eqb c 58 then [] else c :: up_to_colon s'
  end.

Definition svar_line_name (line : str) : str := up_to_colon (List.skipn 5 line).

(** One compilation pass of a fresh parser, as [convert_card] runs it. *)
Definition compile (text : str) : list str * list str :=
  fst (AbilityParser.parse_abilities AbilityParser.__init__ text).

(** *** The classifier as an ordered decision list *)

Inductive AbilityCategory : Type :=
| Triggered | Periodic | UpkeepCost | Activated | Modal | Static | SpellEffect
| Unrecognized.

Definition decision_list : list ((str -> bool) * AbilityCategory) :=
  [ (fun b => (Py.contains (lit "Choose") b
               && (Py.contains [EM_DASH] b || Py.contains (lit "-") b))%bool, Modal);
    (Py.startswith (lit "Whenever "), Triggered);
    (Py.startswith (lit "When "), Triggered);
    (Py.startswith (lit "At the beginning of "), Periodic);
    (fun b => (Py.contains (lit "Upkeep" ++ [EM_DASH]) b
               || Py.contains (lit "Upkeep:") b)%bool, UpkeepCost);
    (fun b => match Re.rmatch Pat.cost_prefix b with
              | Some _ => true | None => false end, Activated);
    (fun b => List.existsb (fun kw => Py.contains kw b)
                [ lit "gets "; lit "have "; lit "has "; lit "can't";
                  lit "doesn't"; lit "is "; lit "are " ], Static) ].

(** The category of the first rule that matches, if any does. *)
Fixpoint first_match (rules : list ((str -> bool) * AbilityCategory)) (block : str)
  : option AbilityCategory :=
  match rules with
  | [] => None
  | (applies, category) :: rules' =>
      if applies block then Some category else first_match rules' block
  end.

Definition classify (block : str) : AbilityCategory :=
  match first_match decision_list block with
  | Some category => category
  | None => SpellEffect
  end.

(** The extractor that handles each category. *)
Definition dispatch (category : AbilityCategory) (self : AbilityParser.t) (block : str)
  : AbilityParser.t :=
  match category with
  | Modal => AbilityParser._parse_modal_ability self block
  | Triggered =>
      if Py.startswith (lit "Whenever ") block
      then AbilityParser._parse_whenever_ability self block
      else AbilityParser._parse_when_ability self block
  | Periodic => AbilityParser._parse_beginning_ability self block
  | UpkeepCost => AbilityParser._parse_upkeep_ability self block
  | Activated => AbilityParser._parse_activated_ability self block
  | Static => AbilityParser._parse_static_ability self block
  | SpellEffect => AbilityParser._parse_spell_effect self block
  | Unrecognized => self
  end.

(** *** Segmentation *)

(** The blocks with the separators put back between them. *)
Fixpoint interleave (blocks seps : list str) : str :=
  match blocks with
  | [] => []
  | b :: blocks' =>
      match seps with
      | [] => b ++ List.concat blocks'
      | s :: seps' => b ++ s ++ interleave blocks' seps'
      end
  end.

Definition PIPE : char := 124%N.

(** A separator is a non-empty run of white space. *)
Definition is_separator (s : str) : Prop :=
  s <> [] /\ List.forallb Py.isspace s = true.

(** The character before the position that is reached by reading [a]. *)
Fixpoint after (prev : option char) (a : str) : option char :=
  match a with
  | [] => prev
  | x :: a' => after (Some x) a'
  end.

(** The marker that stands for a line break while the text is split. *)
Definition MARKER : str := lit " | NEWLINE | ".

(** While the text is split: the current piece, reversed, and the
    character before the position.  A piece that is not empty ends with
    that character; at the start of a piece the character before is no
    sentence end (it is the white space of the separator), or there is
    none. *)
Definition piece_state (prev : option char) (acc : str) : Prop :=
  match acc with
  | [] => match prev with
          | Some e => Pat.sentence_end e = false
          | None => True
          end
  | x :: _ => prev = Some x
  end.

(** *** Magnitudes *)

(** The longest prefix of [s] made of characters of [p], and the rest. *)
Fixpoint span (p : char -> bool) (s : str) : str * str :=
  match s with
  | c :: s' =>
      if p c then let (a, b) := span p s' in (c :: a, b) else ([], s)
  | [] => ([], [])
  end.

(** The integer literal that starts [s], when it is followed by white
    space and [keyword]; with an empty [keyword], the integer literal that
    starts [s]. *)
Definition literal_at (keyword s : str) : option str :=
  match span Py.isdigit s with
  | ([], _) => None
  | (d, rest) =>
      match keyword with
      | [] => Some d
      | _ :: _ =>
          match span Py.isspace rest with
          | ([], _) => None
          | (_, rest') => if Py.startswith keyword rest' then Some d else None
          end
      end
  end.

(** The first such literal of the clause, from left to right. *)
Fixpoint first_literal (keyword s : str) : option str :=
  match literal_at keyword s with
  | Some d => Some d
  | None =>
      match s with
      | [] => None
      | _ :: s' => first_literal keyword s'
      end
  end.

(** A keyword that does not start with white space, as the five the
    effect resolver passes ("life", "card", "damage", "token", "counter")
    and the empty one. *)
Definition plain_keyword (keyword : str) : Prop :=
  match keyword with
  | [] => True
  | c :: _ => Py.isspace c = false
  end.



(** The text is ASCII: on such a text [str.isdigit] and the class [\d]
    are the digits 0 to 9, as [Py.isdigit] has them. *)
Definition is_ascii (s : str) : Prop :=
  List.forallb (fun c => N.ltb c 128) s = true.




(** *** The Oracle line *)

(** What the Oracle line holds for one character of the decoded text. *)
Definition oracle_char (c : char) : str :=
  if N.eqb c NL then lit "\n"
  else if N.eqb c EM_DASH then lit "-"
  else [c].

Definition oracle_line (text : str) : str :=
  lit "Oracle:" ++ List.flat_map oracle_char (decode_entities text).

(** The decoded text with nothing but its line breaks escaped. *)
Definition verbatim_oracle_line (text : str) : str :=
  lit "Oracle:" ++ Py.replace [NL] (lit "\n") (decode_entities text).

(** *** Inputs of the scenarios *)

Definition attack_text : str := lit "Whenever this creature attacks, you gain 1 life.".
Definition upkeep_text : str := lit "At the beginning of your upkeep, you lose 2 life.".
Definition pie_text : str := lit "This creature likes pie.".

(** A charm with one choice the effect resolver does not know. *)
Definition dance_text : str :=
  lit "Choose one " ++ [EM_DASH; NL; BULLET] ++ lit " Dance."
  ++ [NL; BULLET] ++ lit " Draw a card.".

(** A charm with [n] choices, and a card with three charms of 11, 97 and 1
    choices. *)
Definition charm (n : nat) : str :=
  lit "Choose one " ++ [EM_DASH] ++ List.concat (List.repeat (NL :: lit "- draw") n).

Definition three_charms : str :=
  charm 11 ++ lit ". " ++ charm 97 ++ lit ". " ++ charm 1.

(** A card whose rules text is one em dash. *)
Definition dash_card : card_elem := mk_card (lit "X") None [] [EM_DASH].

(** A card whose rules text is the text without a pattern of the
    specification. *)
Definition pie_card : card_elem := mk_card (lit "Pie Fan") None [] pie_text.

(** Two sentences, and a clause with two integer literals. *)
Definition two_sentences : str := lit "Draw a card. Scry 2.".

(** ** Vocabulary of the further properties *)

(** [re.sub(r'\s+', repl, s)] read from left to right: [in_run] tells
    whether the character before was white space. *)
Fixpoint collapse (repl : str) (in_run : bool) (s : str) : str :=
  match s with
  | [] => []
  | x :: s' =>
      if Py.isspace x
      then (if in_run then collapse repl true s' else repl ++ collapse repl true s')
      else x :: collapse repl false s'
  end.

(** The characters of a file name. *)
Definition file_char (c : char) : bool :=
  (Py.islower c || Py.isdigit c || N.eqb c 45 || N.eqb c 95)%bool.

(** A card that has a name. *)
Definition named (card : card_elem) : bool := Py.truthy (Py.strip (name card)).

(** The directory letter of a file name. *)
Definition dir_letter (filename : str) : char :=
  match filename with
  | c :: _ => c
  | [] => 122%N
  end.

(** The file of a card: its path under the output directory and its text. *)
Definition card_file (card : card_elem) : str * str :=
  let filename := sanitize_filename (Py.strip (name card)) in
  (output_base_dir ++ lit "/" ++ [dir_letter filename] ++ lit "/"
     ++ filename ++ lit ".txt",
   match convert_card card with Some t => t | None => [] end).

(** The runs of characters that are not white space, as [s.split()]
    gives them; [acc] is the current run, reversed. *)
Fixpoint words_from (acc : str) (s : str) : list str :=
  match s with
  | [] => match acc with [] => [] | _ :: _ => [List.rev acc] end
  | x :: s' =>
      if Py.isspace x
      then match acc with
           | [] => words_from [] s'
           | _ :: _ => List.rev acc :: words_from [] s'
           end
      else words_from (x :: acc) s'
  end.

Definition words (s : str) : list str := words_from [] s.

(** The text does not end with white space. *)
Definition no_trailing_space (s : str) : Prop :=
  match List.rev s with
  | x :: _ => Py.isspace x = false
  | [] => True
  end.

(** A symbol of a cost: no white space and no brace in it. *)
Definition cost_symbol (w : str) : Prop :=
  w <> [] /\
  List.Forall (fun c => Py.isspace c = false /\ c <> 123%N /\ c <> 125%N) w.

Definition is_colour (c : char) : bool := Py.char_in c WUBRG.
Definition is_mana_char (c : char) : bool := (is_colour c || Py.isdigit c)%bool.

(** A token of a Forge mana cost: one digit, one colour, or a hybrid of
    two colours. *)
Definition mana_token (t : str) : bool :=
  match t with
  | [a] => is_mana_char a
  | [a; b; c] => (is_colour a && N.eqb b 47 && is_colour c)%bool
  | _ => false
  end.

(** No line is added; the counter stays or moves on by one. *)
Definition nothing_emitted (st st' : AbilityParser.t) : Prop :=
  AbilityParser.ability_lines st' = AbilityParser.ability_lines st /\
  AbilityParser.svar_lines st' = AbilityParser.svar_lines st /\
  (AbilityParser.svar_counter st' = AbilityParser.svar_counter st \/ AbilityParser.svar_counter st' = (AbilityParser.svar_counter st + 1)%N).

(** One support variable, named [base] followed by the next counter
    value, is defined, and one [T:] line that executes it is added. *)
Definition trigger_emitted (base : str) (st st' : AbilityParser.t) : Prop :=
  exists trig effect desc,
    AbilityParser.ability_lines st'
    = AbilityParser.ability_lines st
      ++ [lit "T:" ++ trig ++ lit " | Execute$ "
          ++ (base ++ Py.str_of_N (AbilityParser.svar_counter st + 1))
          ++ lit " | TriggerDescription$ " ++ desc] /\
    AbilityParser.svar_lines st'
    = AbilityParser.svar_lines st
      ++ [lit "SVar:" ++ (base ++ Py.str_of_N (AbilityParser.svar_counter st + 1))
          ++ lit ":" ++ effect] /\
    AbilityParser.svar_counter st' = (AbilityParser.svar_counter st + 1)%N /\
    effect <> [].

Definition trigger_outcome (base : str) (st st' : AbilityParser.t) : Prop :=
  nothing_emitted st st' \/ trigger_emitted base st st'.

(** The [SVar:] buffer and the counter are left alone, and at most one
    line, an [A:] or an [S:] line, is added. *)
Definition ability_outcome (st st' : AbilityParser.t) : Prop :=
  AbilityParser.svar_lines st' = AbilityParser.svar_lines st /\
  AbilityParser.svar_counter st' = AbilityParser.svar_counter st /\
  (AbilityParser.ability_lines st' = AbilityParser.ability_lines st \/
   exists l, AbilityParser.ability_lines st' = AbilityParser.ability_lines st ++ [l] /\
             (Py.startswith (lit "A:") l || Py.startswith (lit "S:") l)%bool = true).

Definition is_ability_line (l : str) : bool :=
  (Py.startswith (lit "T:") l || Py.startswith (lit "A:") l
   || Py.startswith (lit "S:") l)%bool.

Definition is_svar_line (l : str) : bool := Py.startswith (lit "SVar:") l.

(** A charm: the aggregate [Choices] variable lists one name for each
    choice, after the definitions of the choices that resolved; the
    charm is played by an [A:] line, or by a [T:] line through a
    [CharmEffect] variable, or, when its trigger is not recognised, by
    no line at all. *)
Definition charm_outcome (st st' : AbilityParser.t) : Prop :=
  exists names ds,
    let agg := lit "Choices" ++ Py.str_of_N (AbilityParser.svar_counter st + 1) in
    let num := Py.str_of_nat (List.length names) in
    let exec := lit "CharmEffect"
                ++ Py.str_of_N (AbilityParser.svar_counter st + 1 + N.of_nat (List.length names) + 1) in
    let aggregate := lit "SVar:" ++ agg ++ lit ":" ++ Py.join (lit ",") names in
    names <> [] /\
    List.length ds <= List.length names /\
    List.forallb is_svar_line ds = true /\
    ((exists desc,
         AbilityParser.svar_lines st' = AbilityParser.svar_lines st ++ ds ++ [aggregate] /\
         AbilityParser.ability_lines st'
         = AbilityParser.ability_lines st
           ++ [lit "A:SP$ Charm | CharmNum$ " ++ num ++ lit " | Choices$ " ++ agg
               ++ lit " | SpellDescription$ " ++ desc] /\
         AbilityParser.svar_counter st' = (AbilityParser.svar_counter st + 1 + N.of_nat (List.length names))%N)
     \/
     (exists trig desc,
         AbilityParser.svar_lines st'
         = AbilityParser.svar_lines st ++ ds
           ++ [aggregate;
               lit "SVar:" ++ exec ++ lit ":AB$ Charm | CharmNum$ " ++ num
               ++ lit " | Choices$ " ++ agg] /\
         AbilityParser.ability_lines st'
         = AbilityParser.ability_lines st
           ++ [lit "T:" ++ trig ++ lit " | Execute$ " ++ exec
               ++ lit " | TriggerDescription$ " ++ desc] /\
         AbilityParser.svar_counter st' = (AbilityParser.svar_counter st + 1 + N.of_nat (List.length names) + 1)%N)
     \/
     (AbilityParser.svar_lines st' = AbilityParser.svar_lines st ++ ds ++ [aggregate] /\
      AbilityParser.ability_lines st' = AbilityParser.ability_lines st /\
      AbilityParser.svar_counter st' = (AbilityParser.svar_counter st + 1 + N.of_nat (List.length names))%N)).

(** The test of the charm rule of the classifier. *)
Definition is_charm (block : str) : bool :=
  (Py.contains (lit "Choose") block
   && (Py.contains [EM_DASH] block || Py.contains (lit "-") block))%bool.

(** What is added to the parser from [st] to [st']: [da] to the ability
    lines, [ds] to the [SVar:] lines, [n] to the counter. *)
Definition extends (st st' : AbilityParser.t) (da ds : list str) (n : N) : Prop :=
  AbilityParser.ability_lines st' = AbilityParser.ability_lines st ++ da /\
  AbilityParser.svar_lines st' = AbilityParser.svar_lines st ++ ds /\
  AbilityParser.svar_counter st' = (AbilityParser.svar_counter st + n)%N.

(** A step that adds at most [k] ability lines and no more [SVar:] lines
    than it takes counter values, all of the right vocabulary. *)
Definition adds_at_most (k : nat) (st st' : AbilityParser.t) : Prop :=
  exists da ds n,
    extends st st' da ds n /\
    List.length da <= k /\
    (N.of_nat (List.length ds) <= n)%N /\
    List.forallb is_ability_line da = true /\
    List.forallb is_svar_line ds = true.

Definition is_digit_char (c : char) : Prop := (48 <= c <= 57)%N.

(** The two bases of the names of triggered effects. *)
Definition effect_base (base : str) : Prop :=
  base = lit "Effect" \/ base = lit "UpkeepEffect".

(** The names defined so far are pairwise distinct, and each is a base
    of a triggered effect followed by a counter value already taken. *)
Definition names_fresh (st : AbilityParser.t) : Prop :=
  List.NoDup (List.map svar_line_name (AbilityParser.svar_lines st)) /\
  List.Forall
    (fun l => exists base n,
         effect_base base /\ (n <= AbilityParser.svar_counter st)%N /\
         svar_line_name l = base ++ Py.str_of_N n)
    (AbilityParser.svar_lines st).

(** *** Further inputs and shapes *)

(** A text with two triggered abilities and no charm. *)
Definition two_triggers : str :=
  lit "Whenever this creature attacks, you gain 1 life. At the beginning of your upkeep, draw a card.".

(** A block that starts like a sentence, and one that ends like one. *)
Definition starts_block (b : str) : Prop :=
  exists u r, b = u :: r /\ Pat.block_start u = true.
Definition ends_sentence (b : str) : Prop :=
  exists a e, b = a ++ [e] /\ Pat.sentence_end e = true.

(** A word: not empty, no white space in it. *)
Definition is_word (w : str) : Prop :=
  w <> [] /\ List.Forall (fun c => Py.isspace c = false) w.

(** The separator [' - '] of a type line. *)
Definition DASH_SEP : str := lit " - ".

Definition creature_type_line : str := lit " Legendary  Creature - Elf   Druid ".

(** A card element without a [prop] child. *)
Definition bare_card : card_elem :=
  mk_card (lit " Goblin Token ") None (lit "3") (lit "Haste").

(** A keyword made of lower-case letters, as the effect resolver
    passes them: no character of it is special in a pattern. *)
Definition word_keyword (keyword : str) : Prop :=
  List.forallb Py.islower keyword = true.

(** The text holds no line break. *)
Definition one_line (s : str) : bool := List.forallb (fun c => negb (N.eqb c NL)) s.

(** Every [SVar:] line written so far is a single line. *)
Definition svars_one_line (st : AbilityParser.t) : Prop :=
  List.forallb one_line (AbilityParser.svar_lines st) = true.

(** The effect kinds the resolver writes. *)
Definition effect_kinds : list str :=
  List.map lit
    [ "GainLife"; "LoseLife"; "Draw"; "DealDamage"; "Token"; "Discard"; "Mill";
      "Counter"; "Tap"; "Untap"; "Scry"; "Surveil"; "PutCounter"; "Sacrifice";
      "ChangeZone" ]%string.

(** The line starts with one of the kinds, followed by [ | ]. *)
Definition has_kind (kinds : list str) (line : str) : bool :=
  List.existsb (fun k => Py.startswith (k ++ lit " | ") line) kinds.

(** A text of ASCII characters, em dashes and bullets: on such a text
    the class [\w] of a pattern is the letters, digits and underscore
    of ASCII, as [Py.isword] has it. *)
Definition card_text (s : str) : Prop :=
  List.forallb (fun c => (N.ltb c 128 || N.eqb c EM_DASH || N.eqb c BULLET)%bool) s = true.

(** The prefix and the choices part of a charm, as
    [_parse_modal_ability] separates them. *)
Definition modal_parts (text : str) : str * str :=
  match Re.rmatch Pat.modal text with
  | Some (_, g) => (Py.strip (Re.group 1 g), Py.strip (Re.group 2 g))
  | None => ([], text)
  end.

(** The test of a triggered charm on the prefix. *)
Definition triggered_prefix (prefix : str) : bool :=
  (Py.truthy prefix
   && (Py.contains (lit "Whenever") prefix
       || Py.contains (lit "When") prefix
       || Py.contains (lit "At the beginning") prefix))%bool.

(** The name of the choice of index [index] allocated at the counter
    value [counter]. *)
Definition choice_name (index : nat) (counter : N) : str :=
  (lit "Choice" ++ Py.str_of_nat index) ++ Py.str_of_N counter.

(** The names of the choices, the first one of index [i] at the counter
    value [c], and the definitions of those whose effect resolves. *)
Fixpoint choice_names (i : nat) (c : N) (choices : list str) : list str :=
  match choices with
  | [] => []
  | _ :: rest => choice_name i c :: choice_names (S i) (c + 1) rest
  end.

Fixpoint choice_lines (i : nat) (c : N) (choices : list str) : list str :=
  match choices with
  | [] => []
  | choice :: rest =>
      match AbilityParser._parse_effect_to_ability choice with
      | Some ability => [lit "SVar:" ++ choice_name i c ++ lit ":" ++ ability]
      | None => []
      end ++ choice_lines (S i) (c + 1) rest
  end.

(** * Properties *)

(** ** Scenarios *)

(** C4: compiling "Whenever this creature attacks, you gain 1 life." gives
    exactly one [T:] line, whose trigger is [Mode$ Attacks], and exactly
    one support-variable line,
    [SVar:Effect1:GainLife | Defined$ You | LifeAmount$ 1]. *)
Theorem attack_scenario :
  compile attack_text =
  ([lit "T:Mode$ Attacks | ValidCard$ Card.Self | TriggerZones$ Battlefield | Execute$ Effect1 | TriggerDescription$ Whenever this creature attacks, you gain 1 life."],
   [lit "SVar:Effect1:GainLife | Defined$ You | LifeAmount$ 1"]).
Proof. vm_compute. reflexivity. Qed.

(** C5: on "At the beginning of your upkeep, you lose 2 life." the pass
    emits nothing at all: the timing clause is mapped to the Upkeep phase
    and [Effect1] is allocated, but the effect resolver knows life loss
    only by the word "loses" and returns [None] for "you lose 2 life", so
    neither the [T:] line nor the [LoseLife] line of the scenario is
    produced. *)
Theorem upkeep_scenario_emits_nothing :
  AbilityParser._parse_effect_to_ability (lit "you lose 2 life") = None /\
  AbilityParser.parse_abilities AbilityParser.__init__ upkeep_text =
  (([], []), AbilityParser.mk [] [] 1).
Proof. split; vm_compute; reflexivity. Qed.

(** C1: a charm whose first choice does not resolve is not dropped: the
    aggregate line and the [A:] line are emitted, the aggregate names
    [Choice12], and no line defines [Choice12]. *)
Theorem unresolved_choice_is_referenced :
  compile dance_text =
  ([lit "A:SP$ Charm | CharmNum$ 2 | Choices$ Choices1 | SpellDescription$ " ++ dance_text],
   [lit "SVar:Choice23:Draw | Defined$ You | NumCards$ 1";
    lit "SVar:Choices1:Choice12,Choice23"]) /\
  definitions_of (lit "Choice12") (snd (compile dance_text)) = 0 /\
  definitions_of (lit "Choice23") (snd (compile dance_text)) = 1.
Proof.
  split; [vm_compute; reflexivity|].
  split; vm_compute; reflexivity.
Qed.

(** C3: on a card with charms of 11, 97 and 1 choices the eleventh choice
    of the first charm (base [Choice11], counter 12) and the first choice
    of the third (base [Choice1], counter 112) get the same name: two
    lines of the output define [Choice1112]. *)
Theorem choice_names_collide :
  let svars := snd (compile three_charms) in
  List.nth_error svars 10 = Some (lit "SVar:Choice1112:Draw | Defined$ You | NumCards$ 1") /\
  List.nth_error svars 110 = Some (lit "SVar:Choice1112:Draw | Defined$ You | NumCards$ 1") /\
  definitions_of (lit "Choice1112") svars = 2 /\
  ~ List.NoDup (List.map svar_line_name svars).
Proof.
  cbv zeta.
  assert (A : List.nth_error (List.map svar_line_name (snd (compile three_charms))) 10
              = Some (lit "Choice1112")) by (vm_compute; reflexivity).
  assert (B : List.nth_error (List.map svar_line_name (snd (compile three_charms))) 110
              = Some (lit "Choice1112")) by (vm_compute; reflexivity).
  split; [vm_compute; reflexivity|].
  split; [vm_compute; reflexivity|].
  split; [vm_compute; reflexivity|].
  intro N. rewrite List.NoDup_nth_error in N.
  assert (L : 10 < List.length (List.map svar_line_name (snd (compile three_charms)))).
  { apply List.nth_error_Some. rewrite A. discriminate. }
  specialize (N 10 110 L). rewrite A, B in N. specialize (N eq_refl). discriminate.
Qed.

(** C6, as stated, fails: the pass on "This creature likes pie." does not
    come back empty. *)
Lemma pie_is_not_dropped : compile pie_text <> ([], []).
Proof. vm_compute. discriminate. Qed.

(** ** Determinism *)

(** C2: what a pass returns does not depend on the parser it runs on:
    whatever an earlier pass left in the line buffers and the counter,
    the ability lines and the [SVar:] lines, names included, are those of
    a fresh parser, so two passes over the same text agree. *)
Theorem parse_abilities_deterministic (self1 self2 : AbilityParser.t) (text : str) :
  fst (AbilityParser.parse_abilities self1 text)
  = fst (AbilityParser.parse_abilities self2 text).
Proof.
  unfold AbilityParser.parse_abilities.
  destruct (negb (Py.truthy text)); reflexivity.
Qed.

(** ** The classifier *)

Lemma parse_spell_effect_empty (self : AbilityParser.t) :
  AbilityParser._parse_spell_effect self [] = self.
Proof. reflexivity. Qed.

(** C7: [_parse_ability_block] hands the stripped block to the extractor
    of the category that the ordered decision list assigns to it, the
    category of the first of the eight rules that matches.  (On an empty
    block the code returns at once; the list then falls through to
    SpellEffect, whose extractor leaves the parser as it is.) *)
Theorem classifier_first_match (self : AbilityParser.t) (block : str) :
  AbilityParser._parse_ability_block self block
  = dispatch (classify (Py.strip block)) self (Py.strip block).
Proof.
  unfold AbilityParser._parse_ability_block.
  destruct (Py.strip block) as [|c b] eqn:E.
  - reflexivity.
  - cbv beta zeta. change (negb (Py.truthy (c :: b))) with false. cbv iota.
    unfold classify, decision_list, first_match.
    destruct (Py.contains (lit "Choose") (c :: b)
              && (Py.contains [EM_DASH] (c :: b) || Py.contains (lit "-") (c :: b)))%bool;
      [reflexivity|].
    destruct (Py.startswith (lit "Whenever ") (c :: b)) eqn:W.
    { unfold dispatch. rewrite W. reflexivity. }
    destruct (Py.startswith (lit "When ") (c :: b)) eqn:W'.
    { unfold dispatch. rewrite W. reflexivity. }
    destruct (Py.startswith (lit "At the beginning of ") (c :: b)); [reflexivity|].
    destruct (Py.contains (lit "Upkeep" ++ [EM_DASH]) (c :: b)
              || Py.contains (lit "Upkeep:") (c :: b))%bool; [reflexivity|].
    destruct (Re.rmatch Pat.cost_prefix (c :: b)); [reflexivity|].
    unfold AbilityParser.static_keywords.
    destruct (List.existsb (fun kw => Py.contains kw (c :: b))
                [lit "gets "; lit "have "; lit "has "; lit "can't";
                 lit "doesn't"; lit "is "; lit "are "]); reflexivity.
Qed.

(** ** The Oracle line *)

Lemma replace_from_char (c : char) (new s : str) :
  Py.replace_from [c] new 0 s
  = List.flat_map (fun x => if N.eqb c x then new else [x]) s.
Proof.
  induction s as [|x s IH]; [reflexivity|].
  cbn [Py.replace_from Py.startswith List.length Nat.pred List.flat_map].
  rewrite Bool.andb_true_r.
  destruct (N.eqb c x); rewrite IH; reflexivity.
Qed.

Lemma escape_forge_text_chars (text : str) :
  escape_forge_text text = List.flat_map oracle_char text.
Proof.
  unfold escape_forge_text.
  destruct text as [|c0 t0]; [reflexivity|].
  change (negb (Py.truthy (c0 :: t0))) with false. cbv iota.
  unfold Py.replace. rewrite !replace_from_char.
  generalize (c0 :: t0). clear c0 t0.
  induction l as [|x l IH]; [reflexivity|].
  cbn [List.flat_map]. rewrite List.flat_map_app. f_equal; [|exact IH].
  unfold oracle_char. rewrite (N.eqb_sym x NL), (N.eqb_sym x EM_DASH).
  destruct (N.eqb NL x) eqn:E1.
  - reflexivity.
  - cbn [List.flat_map]. rewrite List.app_nil_r. reflexivity.
Qed.

Lemma oracle_char_no_newline (c : char) : ~ List.In NL (oracle_char c).
Proof.
  unfold oracle_char.
  destruct (N.eqb c NL) eqn:E1.
  - cbn. intuition discriminate.
  - destruct (N.eqb c EM_DASH).
    + cbn. intuition discriminate.
    + cbn. intros [H|[]]. subst c. rewrite N.eqb_refl in E1. discriminate.
Qed.

Lemma oracle_line_no_newline (text : str) : ~ List.In NL (oracle_line text).
Proof.
  unfold oracle_line. intro H. apply List.in_app_or in H. destruct H as [H|H].
  - cbn in H. intuition discriminate.
  - apply List.in_flat_map in H. destruct H as (c & _ & H).
    exact (oracle_char_no_newline c H).
Qed.

Lemma join_snoc (sep : str) (pre : list str) (x : str) :
  pre <> [] -> Py.join sep (pre ++ [x]) = Py.join sep pre ++ sep ++ x.
Proof.
  induction pre as [|a pre IH]; [congruence|]. intros _.
  destruct pre as [|b pre]; [reflexivity|].
  change (Py.join sep ((a :: b :: pre) ++ [x]))
    with (a ++ sep ++ Py.join sep ((b :: pre) ++ [x])).
  rewrite IH by discriminate.
  change (Py.join sep (a :: b :: pre)) with (a ++ sep ++ Py.join sep (b :: pre)).
  rewrite <- !List.app_assoc. reflexivity.
Qed.

(** The output of [convert_card]: header lines, of which [Name:] is
    always there, the ability lines and the [SVar:] lines of a pass over
    the stripped rules text, and the Oracle line. *)
Lemma convert_card_output_last (card : card_elem) :
  Py.strip (name card) <> [] ->
  exists header, header <> [] /\
    convert_card_output card
    = Some (header ++ fst (compile (Py.strip (text card)))
                   ++ snd (compile (Py.strip (text card)))
                   ++ [oracle_line (Py.strip (text card))]).
Proof.
  intro Hname. unfold convert_card_output, compile.
  destruct (Py.strip (name card)) as [|n0 nm] eqn:En; [congruence|].
  change (negb (Py.truthy (n0 :: nm))) with false. cbv iota zeta.
  set (header := match prop card with Some _ => _ | None => _ end).
  assert (Hh : header <> []).
  { subst header. destruct (prop card) as [p|]; [|discriminate].
    repeat match goal with
           | |- context [if ?b then _ else _] => destruct b
           end;
      cbn; discriminate. }
  destruct (AbilityParser.parse_abilities AbilityParser.__init__ (Py.strip (text card)))
    as [[a s] p].
  exists header. split; [exact Hh|].
  cbn [fst snd]. unfold oracle_line.
  destruct (Py.strip (text card)) as [|c0 t0].
  - rewrite <- !List.app_assoc. reflexivity.
  - change (Py.truthy (c0 :: t0)) with true. cbv iota.
    rewrite escape_forge_text_chars, <- !List.app_assoc. reflexivity.
Qed.

(** C10: for a card whose name is not empty, the last element of the
    output is the Oracle line: [Oracle:] followed by the decoded rules
    text (white space around it stripped) in which every line break is
    the two characters backslash, n and every em dash is a hyphen; it is
    the last line of the joined text too, as it holds no line break, and
    it is the bare [Oracle:] when the rules text is empty. *)
Theorem oracle_line_is_last (card : card_elem) :
  Py.strip (name card) <> [] ->
  exists pre,
    convert_card_output card = Some (pre ++ [oracle_line (Py.strip (text card))]) /\
    convert_card card
    = Some (Py.join [NL] pre ++ [NL] ++ oracle_line (Py.strip (text card))) /\
    ~ List.In NL (oracle_line (Py.strip (text card))) /\
    oracle_line [] = lit "Oracle:".
Proof.
  intro Hname.
  destruct (convert_card_output_last card Hname) as (header & Hh & E).
  exists (header ++ fst (compile (Py.strip (text card)))
                 ++ snd (compile (Py.strip (text card)))).
  rewrite <- !List.app_assoc. split; [exact E|]. split.
  - unfold convert_card. rewrite E. cbn [option_map].
    rewrite !List.app_assoc. rewrite join_snoc.
    + rewrite <- !List.app_assoc. reflexivity.
    + destruct header; [congruence|discriminate].
  - split; [apply oracle_line_no_newline | reflexivity].
Qed.

Lemma oracle_line_is_last_witness :
  Py.strip (name dash_card) <> [] /\
  exists pre,
    convert_card_output dash_card = Some (pre ++ [oracle_line (Py.strip (text dash_card))]) /\
    convert_card dash_card
    = Some (Py.join [NL] pre ++ [NL] ++ oracle_line (Py.strip (text dash_card))) /\
    ~ List.In NL (oracle_line (Py.strip (text dash_card))) /\
    oracle_line [] = lit "Oracle:".
Proof.
  assert (H : Py.strip (name dash_card) <> []) by (vm_compute; discriminate).
  split; [exact H | exact (oracle_line_is_last dash_card H)].
Defined.

(** C10, as stated, fails: the Oracle line of a card whose text is an em
    dash holds a hyphen, not the decoded text. *)
Lemma oracle_line_not_verbatim :
  convert_card_output dash_card = Some [lit "Name:X"; lit "Oracle:-"] /\
  verbatim_oracle_line (Py.strip (text dash_card)) = lit "Oracle:" ++ [EM_DASH] /\
  lit "Oracle:-" <> verbatim_oracle_line (Py.strip (text dash_card)).
Proof.
  split; [vm_compute; reflexivity|].
  split; [vm_compute; reflexivity|].
  vm_compute. discriminate.
Qed.

(** C6: every card with a name and the rules text "This creature likes
    pie." compiles to its header, one ability line, the generic static
    line (the text holds the static keyword "is " inside "This"), no
    [SVar:] line, and the Oracle line equal to the text. *)
Theorem pie_scenario (card : card_elem) :
  Py.strip (name card) <> [] ->
  text card = pie_text ->
  compile pie_text
  = ([lit "S:Mode$ Continuous | Description$ This creature likes pie."], []) /\
  exists header,
    convert_card_output card
    = Some (header ++ [lit "S:Mode$ Continuous | Description$ This creature likes pie.";
                       lit "Oracle:This creature likes pie."]).
Proof.
  intros Hname Htext. split; [vm_compute; reflexivity|].
  destruct (convert_card_output_last card Hname) as (header & _ & E).
  exists header. rewrite E, Htext. reflexivity.
Qed.

Lemma pie_scenario_witness :
  compile pie_text
  = ([lit "S:Mode$ Continuous | Description$ This creature likes pie."], []) /\
  exists header,
    convert_card_output pie_card
    = Some (header ++ [lit "S:Mode$ Continuous | Description$ This creature likes pie.";
                       lit "Oracle:This creature likes pie."]).
Proof.
  apply (pie_scenario pie_card).
  - vm_compute. discriminate.
  - reflexivity.
Defined.

(** ** Greedy repetition *)

Lemma span_spec (p : char -> bool) (s : str) :
  s = fst (span p s) ++ snd (span p s) /\
  List.forallb p (fst (span p s)) = true /\
  match snd (span p s) with
  | [] => True
  | x :: _ => p x = false
  end.
Proof.
  induction s as [|c s IH]; [cbn; auto|].
  cbn [span]. destruct (p c) eqn:E.
  - destruct (span p s) as [a b]. cbn [fst snd] in *.
    destruct IH as (I1 & I2 & I3). repeat split.
    + cbn. rewrite <- I1. reflexivity.
    + cbn. rewrite E, I2. reflexivity.
    + exact I3.
  - cbn. auto.
Qed.

Lemma span_length (p : char -> bool) (s : str) :
  List.length s - List.length (snd (span p s)) = List.length (fst (span p s)).
Proof.
  destruct (span_spec p s) as (E & _ & _).
  rewrite E at 1. rewrite List.length_app. lia.
Qed.

(** When the rest of the pattern cannot start with a character of the
    class, only the longest run can be followed by a match. *)
Lemma star_greedy_longest (A : Type) (p : char -> bool) (k : Re.cursor -> option A) :
  (forall prev x s, p x = true -> k (prev, x :: s) = None) ->
  forall s prev,
    Re.star_greedy p prev s k
    = k (after prev (fst (span p s)), snd (span p s)).
Proof.
  intros Hk. induction s as [|c s IH]; intro prev; [reflexivity|].
  cbn [Re.star_greedy span]. destruct (p c) eqn:E.
  - rewrite IH. destruct (span p s) as [a b]. cbn [fst snd after].
    destruct (k (after (Some c) a, b)) eqn:K; [reflexivity|].
    apply Hk. exact E.
  - reflexivity.
Qed.

(** The longest run is tried first. *)
Lemma star_greedy_first (A : Type) (p : char -> bool) (k : Re.cursor -> option A) r :
  forall s prev,
    k (after prev (fst (span p s)), snd (span p s)) = Some r ->
    Re.star_greedy p prev s k = Some r.
Proof.
  induction s as [|c s IH]; intros prev H; [exact H|].
  cbn [Re.star_greedy]. cbn [span] in H. destruct (p c) eqn:E.
  - rewrite (IH (Some c)); [reflexivity|].
    revert H. destruct (span p s) as [a b]. intro H. exact H.
  - exact H.
Qed.

Lemma run_plus_longest (A : Type) (p : char -> bool) (g : Re.caps)
      (k : Re.cursor -> Re.caps -> option A) :
  (forall prev x s, p x = true -> k (prev, x :: s) g = None) ->
  forall prev s,
    Re.run (Re.Plus true p) (prev, s) g k
    = match fst (span p s) with
      | [] => None
      | _ :: _ => k (after prev (fst (span p s)), snd (span p s)) g
      end.
Proof.
  intros Hk prev s. unfold Re.Plus. cbn [Re.run fst snd].
  destruct s as [|x s]; [reflexivity|].
  cbn [span]. destruct (p x) eqn:E; [|reflexivity].
  rewrite (star_greedy_longest p (fun c' => k c' g)) by exact Hk.
  destruct (span p s) as [a b]. reflexivity.
Qed.

Lemma run_plus_first (A : Type) (p : char -> bool) (g : Re.caps)
      (k : Re.cursor -> Re.caps -> option A) r prev s :
  fst (span p s) <> [] ->
  k (after prev (fst (span p s)), snd (span p s)) g = Some r ->
  Re.run (Re.Plus true p) (prev, s) g k = Some r.
Proof.
  intros Hne H. unfold Re.Plus. cbn [Re.run fst snd].
  destruct s as [|x s]; [cbn in Hne; congruence|].
  cbn [span] in *. destruct (p x) eqn:E; [|cbn in Hne; congruence].
  apply (star_greedy_first p (fun c' => k c' g)).
  destruct (span p s) as [a b]. exact H.
Qed.

Lemma run_plus_none (A : Type) (p : char -> bool) (g : Re.caps)
      (k : Re.cursor -> Re.caps -> option A) prev s :
  fst (span p s) = [] ->
  Re.run (Re.Plus true p) (prev, s) g k = None.
Proof.
  intro H. unfold Re.Plus. cbn [Re.run fst snd].
  destruct s as [|x s]; [reflexivity|].
  cbn [span] in H. destruct (p x); [|reflexivity].
  destruct (span p s); discriminate.
Qed.

Lemma consumed_span (p : char -> bool) (prev prev' : option char) (s : str) :
  Re.consumed (prev, s) (prev', snd (span p s)) = fst (span p s).
Proof.
  unfold Re.consumed. cbn [snd]. rewrite span_length.
  destruct (span_spec p s) as (E & _ & _).
  rewrite E at 2. rewrite List.firstn_app, Nat.sub_diag, List.firstn_all.
  cbn. apply List.app_nil_r.
Qed.

Lemma eat_startswith (l : str) :
  forall prev s,
    match Re.eat l prev s with
    | Some _ => Py.startswith l s = true
    | None => Py.startswith l s = false
    end.
Proof.
  induction l as [|x l IH]; intros prev s; [reflexivity|].
  destruct s as [|y s]; [reflexivity|].
  cbn [Re.eat Py.startswith]. destruct (N.eqb x y); [apply IH | reflexivity].
Qed.

Ltac decide_ranges :=
  unfold Py.isdigit, Py.isspace, Py.isupper, Py.between;
  repeat (match goal with
          | |- context [N.leb ?a ?b] => destruct (N.leb_spec a b)
          | |- context [N.eqb ?a ?b] => destruct (N.eqb_spec a b)
          end;
          cbn [andb orb negb]; try discriminate; try lia; try reflexivity).

Lemma isdigit_not_space (c : char) : Py.isdigit c = true -> Py.isspace c = false.
Proof. decide_ranges. Qed.

Lemma span_fst_nil (p : char -> bool) (x : char) (s : str) :
  p x = false -> fst (span p (x :: s)) = [].
Proof. intro H. cbn [span]. rewrite H. reflexivity. Qed.

(** ** The number pattern *)

Lemma number_at_cursor (keyword : str) (prev : option char) (s : str) :
  plain_keyword keyword ->
  match literal_at keyword s with
  | Some d => exists c', Re.at_cursor (Pat.number keyword) (prev, s) = Some (c', [(1, d)])
  | None => Re.at_cursor (Pat.number keyword) (prev, s) = None
  end.
Proof.
  intro Hk. unfold literal_at, Pat.number, Re.at_cursor, Pat.digit, Pat.ws.
  pose proof (consumed_span Py.isdigit prev) as Hc.
  destruct keyword as [|k0 kw]; cbn [Py.truthy]; cbn [Re.run].
  - destruct (span Py.isdigit s) as [d r] eqn:Es. destruct d as [|x d].
    + rewrite run_plus_none; [reflexivity | rewrite Es; reflexivity].
    + erewrite run_plus_first; [| rewrite Es; discriminate | reflexivity].
      rewrite Hc, Es. eexists. reflexivity.
  - rewrite run_plus_longest.
    2:{ intros prev' x s' Hx. cbn [Re.run]. apply run_plus_none.
        apply span_fst_nil. apply isdigit_not_space. exact Hx. }
    rewrite Hc.
    destruct (span Py.isdigit s) as [d r]. cbn [fst snd].
    destruct d as [|x d]; [reflexivity|].
    cbn [Re.run].
    rewrite run_plus_longest.
    2:{ intros prev' y s' Hy. cbn [Re.run fst snd Re.eat].
        destruct (N.eqb_spec k0 y) as [->|]; [|reflexivity].
        cbn in Hk. congruence. }
    destruct (span Py.isspace r) as [w r']. cbn [fst snd].
    destruct w as [|y w]; [reflexivity|].
    cbn [Re.run fst snd].
    pose proof (eat_startswith (k0 :: kw) (after (after prev (x :: d)) (y :: w)) r') as He.
    destruct (Re.eat (k0 :: kw) (after (after prev (x :: d)) (y :: w)) r');
      rewrite He; [eexists; reflexivity | reflexivity].
Qed.

Lemma search_number (keyword : str) :
  plain_keyword keyword ->
  forall s prev,
    option_map (fun m => Re.group 1 (snd m)) (Re.search_from (Pat.number keyword) prev s)
    = first_literal keyword s.
Proof.
  intro Hk.
  assert (step : forall s prev,
             match literal_at keyword s with
             | Some d => option_map (fun m => Re.group 1 (snd m))
                           (Re.at_cursor (Pat.number keyword) (prev, s)) = Some d
             | None => Re.at_cursor (Pat.number keyword) (prev, s) = None
             end).
  { intros s prev. pose proof (@number_at_cursor keyword prev s Hk) as H.
    destruct (literal_at keyword s); [|exact H].
    destruct H as (c' & ->). reflexivity. }
  induction s as [|x s IH]; intro prev; cbn [Re.search_from first_literal];
    specialize (step) as H.
  - specialize (H [] prev). destruct (literal_at keyword []).
    + revert H. match goal with |- context [Re.at_cursor ?r ?c] => destruct (Re.at_cursor r c) end; [intro H; exact H|discriminate].
    + rewrite H. reflexivity.
  - specialize (H (x :: s) prev). destruct (literal_at keyword (x :: s)).
    + revert H. match goal with |- context [Re.at_cursor ?r ?c] => destruct (Re.at_cursor r c) end; [intro H; exact H|discriminate].
    + rewrite H. apply IH.
Qed.

(** ** Magnitudes *)










(** ** Replacement *)

Lemma startswith_length (p : str) :
  forall s, Py.startswith p s = true -> List.length p <= List.length s.
Proof.
  induction p as [|x p IH]; intros s H; [cbn; lia|].
  destruct s as [|y s]; [discriminate|].
  cbn [Py.startswith] in H. apply andb_prop in H. destruct H as [_ H].
  apply IH in H. cbn. lia.
Qed.

Lemma startswith_app (p r : str) : Py.startswith p (p ++ r) = true.
Proof.
  induction p as [|x p IH]; [reflexivity|].
  cbn [Py.startswith List.app]. rewrite N.eqb_refl, IH. reflexivity.
Qed.

(** A character that does not occur in [old] ends every occurrence of
    [old] that starts before it. *)
Lemma startswith_before (old : str) (e : char) (b : str) :
  ~ List.In e old ->
  forall a, Py.startswith old (a ++ e :: b) = Py.startswith old a.
Proof.
  induction old as [|o old IH]; intros He a; [reflexivity|].
  destruct a as [|x a].
  - cbn [Py.startswith List.app].
    destruct (N.eqb_spec o e) as [->|]; [|reflexivity].
    exfalso. apply He. left. reflexivity.
  - cbn [Py.startswith List.app]. rewrite IH; [reflexivity|].
    intro H. apply He. right. exact H.
Qed.

Lemma startswith_stop (old : str) (e : char) (b : str) :
  old <> [] -> ~ List.In e old -> Py.startswith old (e :: b) = false.
Proof.
  intros Hne He. pose proof (@startswith_before old e b He []) as H.
  cbn [List.app] in H. rewrite H.
  destruct old; [congruence|reflexivity].
Qed.

Lemma replace_from_before (old new : str) (e : char) (b : str) :
  old <> [] -> ~ List.In e old ->
  forall a k, k <= List.length a ->
    Py.replace_from old new k (a ++ e :: b)
    = Py.replace_from old new k (a ++ [e]) ++ Py.replace_from old new 0 b.
Proof.
  intros Hne He. induction a as [|x a IH]; intros k Hk.
  - cbn in Hk. assert (k = 0) by lia. subst k.
    cbn [List.app Py.replace_from].
    rewrite !startswith_stop by assumption. reflexivity.
  - destruct k as [|k].
    + cbn [List.app Py.replace_from].
      change (x :: a ++ e :: b) with ((x :: a) ++ e :: b).
      change (x :: a ++ [e]) with ((x :: a) ++ [e]).
      rewrite (@startswith_before old e b He (x :: a)), (@startswith_before old e [] He (x :: a)).
      destruct (Py.startswith old (x :: a)) eqn:E.
      * apply startswith_length in E. cbn in E.
        rewrite IH by lia. rewrite List.app_assoc. reflexivity.
      * rewrite IH by lia. reflexivity.
    + cbn [List.app Py.replace_from]. apply IH. cbn in Hk. lia.
Qed.

Lemma replace_from_skip (old new : str) (r : str) :
  forall a, Py.replace_from old new (List.length a) (a ++ r)
            = Py.replace_from old new 0 r.
Proof.
  induction a as [|x a IH]; [|exact IH].
  destruct r; reflexivity.
Qed.

Lemma replace_from_occurrence (old new r : str) :
  old <> [] ->
  Py.replace_from old new 0 (old ++ r) = new ++ Py.replace_from old new 0 r.
Proof.
  intro Hne. destruct old as [|o old]; [congruence|].
  change ((o :: old) ++ r) with (o :: (old ++ r)).
  cbn [Py.replace_from].
  change (o :: old ++ r) with ((o :: old) ++ r).
  rewrite startswith_app. cbn [List.length Nat.pred].
  rewrite replace_from_skip. reflexivity.
Qed.

(** ** The line-break marker *)

Lemma marker_chars : MARKER = [32; 124; 32; 78; 69; 87; 76; 73; 78; 69; 32; 124; 32]%N.
Proof. reflexivity. Qed.

Lemma marker_head (x : char) (l : str) :
  Py.startswith MARKER (x :: l) = true -> List.hd_error l = Some PIPE.
Proof.
  rewrite marker_chars. destruct l as [|y t]; cbn [Py.startswith].
  - rewrite Bool.andb_false_r. discriminate.
  - intro H. apply andb_prop in H. destruct H as [_ H].
    apply andb_prop in H. destruct H as [Hy _].
    apply N.eqb_eq in Hy. subst y. reflexivity.
Qed.

Lemma replace_marker_spaces (new : str) (u : char) (b : str) :
  u <> PIPE ->
  forall a, List.forallb Py.isspace a = true ->
    Py.replace_from MARKER new 0 (a ++ u :: b)
    = a ++ Py.replace_from MARKER new 0 (u :: b).
Proof.
  intros Hu. induction a as [|x a IH]; intro Ha; [reflexivity|].
  cbn [List.forallb] in Ha. apply andb_prop in Ha. destruct Ha as [Hx Ha].
  cbn [List.app Py.replace_from].
  destruct (Py.startswith MARKER (x :: a ++ u :: b)) eqn:E.
  - exfalso. apply marker_head in E.
    destruct a as [|y a]; cbn [List.app List.hd_error] in E.
    + apply Hu. congruence.
    + assert (y = PIPE) by congruence. subst y. cbn in Ha. discriminate.
  - rewrite IH by exact Ha. reflexivity.
Qed.

(** The marker put in for line breaks comes out again as line breaks,
    when the text has no [|] of its own. *)
Lemma restore_normalize (t : str) :
  ~ List.In PIPE t ->
  Py.replace MARKER [NL] (Py.replace [NL] MARKER t) = t.
Proof.
  change (Py.replace MARKER [NL]) with (Py.replace_from MARKER [NL] 0).
  change (Py.replace [NL] MARKER t) with (Py.replace_from [NL] MARKER 0 t).
  rewrite replace_from_char.
  induction t as [|x t IH]; intro Hp; [reflexivity|].
  assert (Hp' : ~ List.In PIPE t) by (intro H; apply Hp; right; exact H).
  cbn [List.flat_map].
  destruct (N.eqb_spec NL x) as [<-|Hx].
  - rewrite replace_from_occurrence by discriminate. rewrite IH by exact Hp'. reflexivity.
  - cbn [List.app Py.replace_from].
    match goal with |- context [Py.startswith MARKER ?l] =>
      destruct (Py.startswith MARKER l) eqn:E end.
    + exfalso. apply marker_head in E.
      destruct t as [|y t]; [discriminate|].
      cbn [List.flat_map] in E. revert E.
      destruct (N.eqb_spec NL y) as [<-|Hy]; intro E.
      * rewrite marker_chars in E. discriminate.
      * cbn [List.app List.hd_error] in E.
        apply Hp. right. left. congruence.
    + rewrite IH by exact Hp'. reflexivity.
Qed.

(** ** The block boundary *)

Lemma space_not_block_start (c : char) :
  Py.isspace c = true -> Pat.block_start c = false.
Proof.
  unfold Pat.block_start. decide_ranges.
Qed.

Lemma block_start_not_pipe (c : char) : Pat.block_start c = true -> c <> PIPE.
Proof. intros H ->. vm_compute in H. discriminate. Qed.

Lemma sentence_end_not_space (c : char) :
  Pat.sentence_end c = true -> Py.isspace c = false.
Proof.
  unfold Pat.sentence_end, Re.one_of, Py.char_in. cbn [lit List.existsb].
  intro H. repeat (apply Bool.orb_prop in H; destruct H as [H|H]);
    try discriminate; apply N.eqb_eq in H; subst c; reflexivity.
Qed.

Lemma sentence_end_not_marker (c : char) :
  Pat.sentence_end c = true -> ~ List.In c MARKER.
Proof.
  rewrite marker_chars. intros H Hin. cbn [List.In] in Hin.
  repeat (destruct Hin as [Hin|Hin]; [subst c; vm_compute in H; discriminate|]).
  exact Hin.
Qed.

(** Where the boundary pattern matches: after the end of a sentence, on
    a run of white space that is followed by a block start; it matches
    the whole run. *)
Lemma boundary_match (prev : option char) (s : str) :
  (exists e a u b,
      prev = Some e /\ Pat.sentence_end e = true /\
      s = a ++ u :: b /\ a <> [] /\ List.forallb Py.isspace a = true /\
      Pat.block_start u = true /\
      Re.match_len Pat.block_boundary prev s = Some (List.length a))
  \/ Re.match_len Pat.block_boundary prev s = None.
Proof.
  unfold Re.match_len, Re.at_cursor, Pat.block_boundary, Pat.ws.
  cbn [Re.run fst snd].
  destruct prev as [e|]; [|right; reflexivity].
  destruct (Pat.sentence_end e) eqn:Ee; [|right; reflexivity].
  rewrite run_plus_longest.
  2:{ intros prev' x s' Hx. cbn [fst snd].
      rewrite (space_not_block_start x Hx). reflexivity. }
  pose proof (span_spec Py.isspace s) as (E1 & E2 & _).
  pose proof (span_length Py.isspace s) as L.
  destruct (span Py.isspace s) as [a b]. cbn [fst snd] in *.
  destruct a as [|y a]; [right; reflexivity|].
  destruct b as [|u b]; [right; reflexivity|].
  destruct (Pat.block_start u) eqn:Eu; [|right; reflexivity].
  left. exists e, (y :: a), u, b. cbn [snd]. rewrite L.
  repeat split; try assumption; discriminate.
Qed.

(** ** Segmentation *)

Lemma split_from_skip (r : Re.re) :
  forall n s prev acc, n <= List.length s ->
    Re.split_from r n prev acc s
    = Re.split_from r 0 (after prev (List.firstn n s)) acc (List.skipn n s).
Proof.
  induction n as [|n IH]; intros s prev acc H.
  - reflexivity.
  - destruct s as [|x s]; [cbn in H; lia|].
    cbn [Re.split_from List.firstn List.skipn after]. apply IH. cbn in H. lia.
Qed.

Lemma after_run (p : char -> bool) :
  forall a x, p x = true -> List.forallb p a = true ->
    exists w, after (Some x) a = Some w /\ p w = true.
Proof.
  induction a as [|y a IH]; intros x Hx Ha.
  - exists x. split; [reflexivity|exact Hx].
  - cbn [List.forallb] in Ha. apply andb_prop in Ha. destruct Ha as [Hy Ha].
    cbn [after]. apply IH; assumption.
Qed.

(** Splitting commutes with restoring the line breaks: the restored
    pieces, with the separators between them, are the restored text. *)
Lemma split_restore :
  forall n s prev acc,
    List.length s <= n -> piece_state prev acc ->
    exists seps,
      List.Forall is_separator seps /\
      List.length (Re.split_from Pat.block_boundary 0 prev acc s)
      = S (List.length seps) /\
      interleave
        (List.map (Py.replace_from MARKER [NL] 0)
                  (Re.split_from Pat.block_boundary 0 prev acc s)) seps
      = Py.replace_from MARKER [NL] 0 (List.rev acc ++ s).
Proof.
  induction n as [|n IH]; intros s prev acc Hn Hst.
  - destruct s; [|cbn in Hn; lia]. exists []. cbn [Re.split_from List.map interleave List.concat List.length].
    rewrite !List.app_nil_r. auto.
  - destruct s as [|x s].
    { exists []. cbn [Re.split_from List.map interleave List.concat List.length].
      rewrite !List.app_nil_r. auto. }
    cbn [Re.split_from].
    destruct (boundary_match prev (x :: s))
      as [(e & a & u & b & Ep & Ee & Es & Ha & Hws & Hu & M)|M]; rewrite M.
    + destruct a as [|y a]; [congruence|]. cbn [List.length].
      injection Es as Ex Es. subst y.
      (* the piece ends with the sentence end [e] *)
      subst prev. unfold piece_state in Hst.
      destruct acc as [|e' acc]; [congruence|].
      injection Hst as Hst. subst e'.
      rewrite split_from_skip by (rewrite Es, List.length_app; lia).
      assert (F : List.firstn (List.length a) s = a).
      { rewrite Es, List.firstn_app, Nat.sub_diag, List.firstn_all. cbn. apply List.app_nil_r. }
      assert (K : List.skipn (List.length a) s = u :: b).
      { rewrite Es, List.skipn_app, Nat.sub_diag, List.skipn_all. reflexivity. }
      rewrite F, K.
      cbn [List.forallb] in Hws. apply andb_prop in Hws. destruct Hws as [Hx Hws].
      destruct (after_run Py.isspace a x Hx Hws) as (w & Ew & Hw).
      destruct (IH (u :: b) (after (Some x) a) []) as (seps & S1 & S2 & S3).
      * cbn [List.length] in Hn. rewrite Es, List.length_app in Hn. cbn in *. lia.
      * unfold piece_state. rewrite Ew. destruct (Pat.sentence_end w) eqn:Sw; [|reflexivity].
        apply sentence_end_not_space in Sw. congruence.
      * exists ((x :: a) :: seps). split; [|split].
        -- constructor; [|exact S1]. split; [discriminate|].
           cbn [List.forallb]. rewrite Hx, Hws. reflexivity.
        -- cbn [List.length]. rewrite S2. reflexivity.
        -- cbn [List.map interleave]. rewrite S3. cbn [List.rev List.app].
           rewrite <- List.app_assoc. cbn [List.app].
           rewrite (@replace_from_before MARKER [NL] e (x :: s)) ;
             [| discriminate | apply sentence_end_not_marker; exact Ee | lia].
           rewrite Es.
           change (x :: a ++ u :: b) with ((x :: a) ++ u :: b).
           rewrite (@replace_marker_spaces [NL] u b (block_start_not_pipe Hu) (x :: a)).
           ++ reflexivity.
           ++ cbn [List.forallb]. rewrite Hx, Hws. reflexivity.
    + destruct (IH s (Some x) (x :: acc)) as (seps & S1 & S2 & S3).
      * cbn in Hn. lia.
      * reflexivity.
      * exists seps. split; [exact S1|]. split; [exact S2|].
        rewrite S3. cbn [List.rev]. rewrite <- List.app_assoc. reflexivity.
Qed.

(** C8: for a rules text without the character [|], the blocks with
    the separators put back between them are the text: there is one
    non-empty run of white space for each split, and the blocks
    interleaved with these runs reconstruct the text exactly. *)
Theorem blocks_cover_text (text : str) :
  ~ List.In PIPE text ->
  exists seps,
    List.length (AbilityParser._split_ability_blocks text) = S (List.length seps) /\
    List.Forall is_separator seps /\
    interleave (AbilityParser._split_ability_blocks text) seps = text.
Proof.
  intro Hp. unfold AbilityParser._split_ability_blocks, Re.split.
  destruct (@split_restore
              (List.length (Py.replace [NL] MARKER text))
              (Py.replace [NL] MARKER text) None [])
    as (seps & S1 & S2 & S3); [lia | exact I |].
  exists seps. split; [|split].
  - rewrite List.length_map. exact S2.
  - exact S1.
  - change (Py.replace (lit " | NEWLINE | ") [NL]) with (Py.replace_from MARKER [NL] 0).
    change (lit " | NEWLINE | ") with MARKER.
    rewrite S3. cbn [List.rev List.app].
    exact (@restore_normalize text Hp).
Qed.

Lemma blocks_cover_text_witness :
  ~ List.In PIPE two_sentences /\
  exists seps,
    List.length (AbilityParser._split_ability_blocks two_sentences)
    = S (List.length seps) /\
    List.Forall is_separator seps /\
    interleave (AbilityParser._split_ability_blocks two_sentences) seps
    = two_sentences.
Proof.
  assert (H : ~ List.In PIPE two_sentences).
  { vm_compute. intuition discriminate. }
  split; [exact H | exact (@blocks_cover_text two_sentences H)].
Defined.

(** C8, as stated, fails: the blocks of "Draw a card. Scry 2." are the
    two sentences, and their concatenation has lost the space between
    them. *)
Lemma blocks_lose_separator :
  AbilityParser._split_ability_blocks two_sentences
  = [lit "Draw a card."; lit "Scry 2."] /\
  List.concat (AbilityParser._split_ability_blocks two_sentences) <> two_sentences.
Proof.
  split; [vm_compute; reflexivity|].
  vm_compute. discriminate.
Qed.

(** * Further properties of the converter *)

Import AbilityParser.

Lemma match_len_spaces (prev : option char) (s : str) :
  Re.match_len Pat.spaces prev s
  = match fst (span Py.isspace s) with
    | [] => None
    | _ :: _ => Some (List.length (fst (span Py.isspace s)))
    end.
Proof.
  unfold Re.match_len, Re.at_cursor, Pat.spaces, Pat.ws.
  destruct (fst (span Py.isspace s)) as [|y a] eqn:E.
  - rewrite run_plus_none by exact E. reflexivity.
  - erewrite run_plus_first; [| rewrite E; discriminate | reflexivity].
    cbn [snd]. rewrite span_length, E. reflexivity.
Qed.

Lemma sub_spaces_collapse (repl : str) :
  forall s prev,
    Re.sub_from Pat.spaces repl 0 prev s = collapse repl false s /\
    Re.sub_from Pat.spaces repl (List.length (fst (span Py.isspace s))) prev s
    = collapse repl true s.
Proof.
  induction s as [|x s IH]; intro prev; [split; reflexivity|].
  destruct (IH (Some x)) as [IH0 IH1].
  assert (Z : Re.sub_from Pat.spaces repl 0 prev (x :: s) = collapse repl false (x :: s)).
  { cbn [Re.sub_from collapse]. rewrite match_len_spaces. cbn [span].
    destruct (Py.isspace x).
    - destruct (span Py.isspace s) as [a b]. cbn [fst List.length] in *.
      rewrite IH1. reflexivity.
    - cbn [fst]. rewrite IH0. reflexivity. }
  split; [exact Z|].
  cbn [span]. destruct (Py.isspace x) eqn:E.
  - destruct (span Py.isspace s) as [a b]. cbn [fst List.length Re.sub_from collapse] in *.
    rewrite E. exact IH1.
  - cbn [fst List.length]. rewrite Z. cbn [collapse]. rewrite E. reflexivity.
Qed.

Lemma sub_spaces (repl s : str) : Re.sub Pat.spaces repl s = collapse repl false s.
Proof. apply sub_spaces_collapse. Qed.

Lemma sub_class_delete (p : char -> bool) :
  forall s prev,
    Re.sub_from (Re.Cls p) [] 0 prev s = List.filter (fun c => negb (p c)) s.
Proof.
  induction s as [|x s IH]; intro prev; [reflexivity|].
  cbn [Re.sub_from List.filter].
  unfold Re.match_len, Re.at_cursor. cbn [Re.run snd].
  destruct (p x); cbn [negb snd].
  - replace (List.length (x :: s) - List.length s) with 1 by (cbn [List.length]; lia).
    cbn [List.app]. apply IH.
  - rewrite IH. reflexivity.
Qed.

Lemma collapse_chars (repl : str) (P : char -> Prop) :
  List.Forall P repl ->
  forall s b, List.Forall (fun c => Py.isspace c = false -> P c) s ->
              List.Forall P (collapse repl b s).
Proof.
  intros Hr. induction s as [|x s IH]; intros b Hs; [constructor|].
  inversion Hs as [|? ? Hx Hs']; subst. cbn [collapse].
  destruct (Py.isspace x) eqn:E.
  - destruct b; [apply IH; exact Hs'|].
    apply List.Forall_app. split; [exact Hr | apply IH; exact Hs'].
  - constructor; [apply Hx; reflexivity | apply IH; exact Hs'].
Qed.

Lemma sanitize_filename_chars (name : str) :
  List.forallb file_char (sanitize_filename name) = true.
Proof.
  unfold sanitize_filename. rewrite sub_spaces.
  unfold Re.sub, Pat.not_name_char. rewrite sub_class_delete.
  apply List.forallb_forall. apply List.Forall_forall.
  apply collapse_chars.
  - repeat constructor.
  - apply List.Forall_forall. intros c Hc Hs.
    apply List.filter_In in Hc. destruct Hc as [_ Hc].
    rewrite Bool.negb_involutive in Hc. unfold Pat.name_char in Hc.
    unfold file_char. rewrite Hs in Hc.
    destruct (Py.islower c); [reflexivity|].
    destruct (Py.isdigit c); [reflexivity|]. cbn in *. rewrite Hc. reflexivity.
Qed.

Lemma contains_cons (sub : str) (x : char) (s : str) :
  Py.contains sub (x :: s) = (Py.startswith sub (x :: s) || Py.contains sub s)%bool.
Proof. reflexivity. Qed.

Lemma collapse_underscore :
  forall s b,
    ~ List.In 95%N s ->
    Py.contains (lit "__") (collapse (lit "_") b s) = false /\
    (b = true -> Py.startswith (lit "_") (collapse (lit "_") b s) = false).
Proof.
  induction s as [|x s IH]; intros b Hs; [split; reflexivity|].
  assert (Hx : x <> 95%N) by (intro E; apply Hs; left; exact E).
  assert (Hs' : ~ List.In 95%N s) by (intro E; apply Hs; right; exact E).
  cbn [collapse]. destruct (Py.isspace x) eqn:E.
  - destruct b.
    + apply IH. exact Hs'.
    + destruct (IH true Hs') as [I1 I2]. specialize (I2 eq_refl).
      split; [|discriminate].
      change (lit "_" ++ collapse (lit "_") true s)
        with (95%N :: collapse (lit "_") true s).
      rewrite contains_cons, I1, Bool.orb_false_r.
      change (lit "__") with (95%N :: lit "_").
      cbn [Py.startswith]. rewrite I2. apply Bool.andb_false_r.
  - destruct (IH false Hs') as [I1 _]. split.
    + rewrite contains_cons, I1, Bool.orb_false_r.
      change (lit "__") with (95%N :: lit "_"). cbn [Py.startswith].
      destruct (N.eqb_spec 95 x); [congruence|reflexivity].
    + intros _. change (lit "_") with [95%N]. cbn [Py.startswith].
      destruct (N.eqb_spec 95 x); [congruence|reflexivity].
Qed.

(** X1: whatever the card name, the file name that [sanitize_filename]
    returns holds only lower-case ASCII letters, digits, hyphens and
    underscores (so no path separator, no dot and no white space), and
    never two underscores in a row. *)
Theorem sanitize_filename_safe (name : str) :
  List.forallb file_char (sanitize_filename name) = true /\
  Py.contains (lit "__") (sanitize_filename name) = false.
Proof.
  split; [apply sanitize_filename_chars|].
  unfold sanitize_filename. rewrite sub_spaces.
  unfold Re.sub, Pat.not_name_char. rewrite sub_class_delete.
  apply collapse_underscore.
  intro H. apply List.filter_In in H. destruct H as [_ H].
  vm_compute in H. discriminate.
Qed.

Lemma convert_card_named (card : card_elem) :
  named card = true -> exists c t, convert_card card = Some (c :: t).
Proof.
  intro H. assert (Hn : Py.strip (name card) <> []).
  { unfold named in H. destruct (Py.strip (name card)); [discriminate|discriminate]. }
  destruct (convert_card_output_last card Hn) as (header & Hh & E).
  unfold convert_card. rewrite E. cbn [option_map].
  rewrite !List.app_assoc, join_snoc.
  - destruct (Py.join [NL] ((header ++ fst (compile (Py.strip (text card))))
                              ++ snd (compile (Py.strip (text card))))) as [|c t].
    + eexists. eexists. reflexivity.
    + eexists. eexists. reflexivity.
  - destruct header; [congruence|discriminate].
Qed.

Lemma file_char_lower (c : char) : file_char c = true -> Py.lower [c] = [c].
Proof.
  unfold Py.lower, Py.lower_char, file_char. cbn [List.flat_map].
  unfold Py.islower, Py.isdigit, Py.isupper, Py.between.
  repeat (match goal with
          | |- context [N.leb ?a ?b] => destruct (N.leb_spec a b)
          | |- context [N.eqb ?a ?b] => destruct (N.eqb_spec a b)
          end;
          cbn [andb orb negb List.app]; try discriminate; try lia; try reflexivity).
Qed.

Lemma file_char_not_slash (c : char) : file_char c = true -> N.eqb 47 c = false.
Proof.
  intro H. destruct (N.eqb_spec 47 c) as [<-|]; [|reflexivity].
  vm_compute in H. discriminate.
Qed.

Lemma startswith_slash_rev_snoc (a : str) (c : char) :
  Py.startswith (lit "/") (List.rev (a ++ [c])) = N.eqb 47 c.
Proof.
  rewrite List.rev_app_distr. cbn [List.rev List.app lit].
  change (lit "/") with [47%N]. cbn [Py.startswith]. apply Bool.andb_true_r.
Qed.

Lemma main_step_named (st : run_state) (card : card_elem) :
  named card = true ->
  main_step st card
  = mk_run (made_dirs st ++ [output_base_dir ++ lit "/"
                               ++ [dir_letter (sanitize_filename (Py.strip (name card)))]])
           (written st ++ [card_file card])
           (printed st ++ [[CHECK_MARK] ++ lit " " ++ Py.strip (name card)])
           (S (total_cards st)) (skipped_cards st).
Proof.
  intro H. unfold main_step. unfold named in H. rewrite H. cbn [negb].
  destruct (convert_card_named card H) as (c & t & E).
  unfold card_file. rewrite E.
  pose proof (sanitize_filename_chars (Py.strip (name card))) as Hf.
  set (filename := sanitize_filename (Py.strip (name card))) in *.
  assert (Hl : file_char (dir_letter filename) = true).
  { destruct filename as [|c0 f]; [reflexivity|].
    cbn [List.forallb] in Hf. apply andb_prop in Hf. apply Hf. }
  assert (L : match filename with c0 :: _ => Py.lower [c0] | [] => lit "z" end
              = [dir_letter filename]).
  { destruct filename as [|c0 f]; [reflexivity|]. apply file_char_lower. exact Hl. }
  rewrite L.
  assert (J1 : os_path_join output_base_dir [dir_letter filename]
               = output_base_dir ++ lit "/" ++ [dir_letter filename]).
  { unfold os_path_join. change (lit "/") with [47%N]. cbn [Py.startswith].
    rewrite (file_char_not_slash _ Hl). reflexivity. }
  rewrite J1.
  assert (J2 : os_path_join (output_base_dir ++ lit "/" ++ [dir_letter filename])
                            (filename ++ lit ".txt")
               = (output_base_dir ++ lit "/" ++ [dir_letter filename])
                   ++ lit "/" ++ filename ++ lit ".txt").
  { unfold os_path_join.
    assert (S1 : Py.startswith (lit "/") (filename ++ lit ".txt") = false).
    { destruct filename as [|c0 f]; [reflexivity|].
      change (lit "/") with [47%N]. cbn [List.app Py.startswith dir_letter] in *.
      rewrite (file_char_not_slash _ Hl). reflexivity. }
    rewrite S1.
    rewrite (List.app_assoc output_base_dir (lit "/") [dir_letter filename]).
    rewrite startswith_slash_rev_snoc, (file_char_not_slash _ Hl).
    destruct ((output_base_dir ++ lit "/") ++ [dir_letter filename]) eqn:Z.
    - destruct (output_base_dir ++ lit "/"); discriminate.
    - reflexivity. }
  rewrite J2. rewrite <- !List.app_assoc. reflexivity.
Qed.

Lemma main_step_unnamed (st : run_state) (card : card_elem) :
  named card = false -> main_step st card = st.
Proof. intro H. unfold main_step. unfold named in H. rewrite H. reflexivity. Qed.

Lemma main_loop (cards : list card_elem) :
  forall st,
    written (List.fold_left main_step cards st)
    = written st ++ List.map card_file (List.filter named cards) /\
    total_cards (List.fold_left main_step cards st)
    = total_cards st + List.length (List.filter named cards) /\
    skipped_cards (List.fold_left main_step cards st) = skipped_cards st.
Proof.
  induction cards as [|card cards IH]; intro st.
  - cbn. rewrite List.app_nil_r. repeat split; lia.
  - cbn [List.fold_left List.filter]. destruct (named card) eqn:E.
    + rewrite (main_step_named st card E).
      destruct (IH (mk_run (made_dirs st ++ [output_base_dir ++ lit "/"
                               ++ [dir_letter (sanitize_filename (Py.strip (name card)))]])
           (written st ++ [card_file card])
           (printed st ++ [[CHECK_MARK] ++ lit " " ++ Py.strip (name card)])
           (S (total_cards st)) (skipped_cards st))) as (I1 & I2 & I3).
      rewrite I1, I2, I3. cbn [written total_cards skipped_cards List.map List.length].
      rewrite <- List.app_assoc. repeat split. lia.
    + rewrite (main_step_unnamed st card E). apply IH.
Qed.

(** X2: [main] writes exactly one file for each card whose stripped name
    is not empty, in the order of the cards: its path is the output
    directory, the directory named by the first character of the
    sanitized name (z when that name is empty) and the sanitized name
    with [.txt]; its content is the text [convert_card] returns.  Cards
    without a name are passed over, the count of converted cards is the
    number of named cards, and the count of skipped cards stays 0. *)
Theorem main_one_file_per_named_card (cards : list card_elem) :
  written (main cards) = List.map card_file (List.filter named cards) /\
  total_cards (main cards) = List.length (List.filter named cards) /\
  skipped_cards (main cards) = 0.
Proof.
  unfold main. cbn [written total_cards skipped_cards].
  match goal with |- context [List.fold_left main_step cards ?st] =>
    destruct (main_loop cards st) as (I1 & I2 & I3) end.
  rewrite I1, I2, I3. repeat split.
Qed.

(** X3: every path [main] writes to is the output directory followed by
    a one-character directory and a file name ending in [.txt], both
    made of file-name characters only: no card name can direct a write
    outside the output directory. *)
Theorem main_paths_inside_output_dir (cards : list card_elem) :
  List.Forall
    (fun file =>
       exists c f,
         fst file = output_base_dir ++ lit "/" ++ [c] ++ lit "/" ++ f ++ lit ".txt" /\
         file_char c = true /\ List.forallb file_char f = true)
    (written (main cards)).
Proof.
  unfold main. cbn [written].
  match goal with |- context [List.fold_left main_step cards ?st] =>
    destruct (main_loop cards st) as (I1 & _) end.
  rewrite I1. cbn [written List.app].
  apply List.Forall_forall. intros file H.
  apply List.in_map_iff in H. destruct H as (card & <- & _).
  pose proof (sanitize_filename_chars (Py.strip (name card))) as Hf.
  exists (dir_letter (sanitize_filename (Py.strip (name card)))),
         (sanitize_filename (Py.strip (name card))).
  split; [reflexivity|]. split; [|exact Hf].
  destruct (sanitize_filename (Py.strip (name card))) as [|c0 f]; [reflexivity|].
  cbn [List.forallb] in Hf. apply andb_prop in Hf. apply Hf.
Qed.

(** *** Words *)

Lemma no_trailing_space_tail (x : char) (s : str) :
  no_trailing_space (x :: s) -> s <> [] -> no_trailing_space s.
Proof.
  unfold no_trailing_space. cbn [List.rev]. intros H Hs.
  destruct (List.rev s) as [|y r] eqn:E.
  - apply (f_equal (@List.rev char)) in E. rewrite List.rev_involutive in E. cbn in E. congruence.
  - exact H.
Qed.

Lemma words_from_nonempty (s : str) :
  forall acc, acc <> [] -> words_from acc s <> [].
Proof.
  induction s as [|x s IH]; intros acc Ha.
  - cbn. destruct acc; [congruence|discriminate].
  - cbn [words_from]. destruct (Py.isspace x).
    + destruct acc; [congruence|discriminate].
    + apply IH. discriminate.
Qed.

Lemma join_cons (sep x : str) (l : list str) :
  l <> [] -> Py.join sep (x :: l) = x ++ sep ++ Py.join sep l.
Proof. destruct l; [congruence|reflexivity]. Qed.

Lemma collapse_words (repl : str) :
  forall s,
    (s = [] \/ no_trailing_space s) ->
    (forall acc, acc <> [] ->
                 List.rev acc ++ collapse repl false s
                 = Py.join repl (words_from acc s)) /\
    (s <> [] ->
     collapse repl true s = Py.join repl (words_from [] s) /\ words_from [] s <> []).
Proof.
  induction s as [|x s IH]; intro Hs.
  - split; [|congruence]. intros acc Ha. cbn. rewrite List.app_nil_r.
    destruct acc; [congruence|reflexivity].
  - assert (Hs' : s = [] \/ no_trailing_space s).
    { destruct s as [|y s]; [left; reflexivity|right].
      destruct Hs as [Hs|Hs]; [discriminate|].
      apply (@no_trailing_space_tail x (y :: s) Hs). discriminate. }
    destruct (IH Hs') as [G H].
    assert (Hx : Py.isspace x = true -> s <> []).
    { intros E ->. destruct Hs as [Hs|Hs]; [discriminate|].
      unfold no_trailing_space in Hs. cbn in Hs. congruence. }
    split.
    + intros acc Ha. cbn [collapse words_from]. destruct (Py.isspace x) eqn:E.
      * destruct (H (Hx eq_refl)) as [H1 H2].
        destruct acc as [|a acc]; [congruence|].
        rewrite join_cons by exact H2. rewrite H1. reflexivity.
      * rewrite <- (G (x :: acc)) by discriminate.
        cbn [List.rev]. rewrite <- List.app_assoc. reflexivity.
    + intros _. cbn [collapse words_from]. destruct (Py.isspace x) eqn:E.
      * apply H. apply Hx. reflexivity.
      * split; [|apply words_from_nonempty; discriminate].
        rewrite <- (G [x]) by discriminate. reflexivity.
Qed.

Lemma lstrip_head (s : str) :
  match Py.lstrip s with
  | x :: _ => Py.isspace x = false
  | [] => True
  end.
Proof.
  induction s as [|x s IH]; [exact I|].
  cbn [Py.lstrip]. destruct (Py.isspace x) eqn:E; [exact IH|exact E].
Qed.

Lemma lstrip_suffix (s : str) : exists a, s = a ++ Py.lstrip s.
Proof.
  induction s as [|x s IH]; [exists []; reflexivity|].
  cbn [Py.lstrip]. destruct (Py.isspace x).
  - destruct IH as (a & E). exists (x :: a). cbn. rewrite <- E. reflexivity.
  - exists []. reflexivity.
Qed.

Lemma rstrip_prefix (s : str) : exists b, s = Py.rstrip s ++ b.
Proof.
  unfold Py.rstrip. destruct (lstrip_suffix (List.rev s)) as (a & E).
  exists (List.rev a). rewrite <- List.rev_app_distr, <- E, List.rev_involutive.
  reflexivity.
Qed.

Lemma rstrip_no_trailing (s : str) : no_trailing_space (Py.rstrip s).
Proof.
  unfold no_trailing_space, Py.rstrip. rewrite List.rev_involutive.
  apply lstrip_head.
Qed.

(** A stripped text is empty or starts and ends with a character that
    is not white space. *)
Lemma strip_shape (s : str) :
  no_trailing_space (Py.strip s) /\
  match Py.strip s with
  | x :: _ => Py.isspace x = false
  | [] => True
  end.
Proof.
  unfold Py.strip. split; [apply rstrip_no_trailing|].
  pose proof (lstrip_head s) as H.
  destruct (rstrip_prefix (Py.lstrip s)) as (b & E).
  destruct (Py.rstrip (Py.lstrip s)) as [|x r]; [exact I|].
  rewrite E in H. exact H.
Qed.

Lemma strip_subset (P : char -> Prop) (s : str) :
  List.Forall P s -> List.Forall P (Py.strip s).
Proof.
  intro H. unfold Py.strip.
  destruct (lstrip_suffix s) as (a & E1).
  destruct (rstrip_prefix (Py.lstrip s)) as (b & E2).
  rewrite E1 in H. apply List.Forall_app in H. destruct H as [_ H].
  rewrite E2 in H. apply List.Forall_app in H. apply H.
Qed.

(** Replacing white space runs in a stripped text leaves its words,
    joined by the replacement. *)
Lemma collapse_stripped (repl s : str) :
  collapse repl false (Py.strip s) = Py.join repl (words (Py.strip s)).
Proof.
  destruct (strip_shape s) as [H1 H2]. unfold words.
  destruct (Py.strip s) as [|x r]; [reflexivity|].
  cbn [collapse words_from]. rewrite H2.
  assert (Hr : r = [] \/ no_trailing_space r).
  { destruct r as [|y r]; [left; reflexivity|right].
    apply (@no_trailing_space_tail x (y :: r) H1). discriminate. }
  destruct (@collapse_words repl r Hr) as [G _].
  rewrite <- (G [x]) by discriminate. reflexivity.
Qed.

Lemma words_from_chars (P : char -> Prop) :
  forall s acc,
    List.Forall P s -> List.Forall P acc ->
    List.Forall (fun c => Py.isspace c = false) acc ->
    List.Forall
      (fun w => w <> [] /\ List.Forall (fun c => Py.isspace c = false /\ P c) w)
      (words_from acc s).
Proof.
  assert (R : forall acc, acc <> [] -> List.Forall P acc ->
                List.Forall (fun c => Py.isspace c = false) acc ->
                List.rev acc <> [] /\
                List.Forall (fun c => Py.isspace c = false /\ P c) (List.rev acc)).
  { intros acc Ha H1 H2. split.
    - intro E. apply (f_equal (@List.rev char)) in E.
      rewrite List.rev_involutive in E. cbn in E. congruence.
    - apply List.Forall_rev. rewrite List.Forall_forall in *. intros c Hc. split; auto. }
  induction s as [|x s IH]; intros acc Hs Ha Hn.
  - cbn. destruct acc as [|a acc]; [constructor|].
    constructor; [|constructor]. apply R; [discriminate|assumption|assumption].
  - inversion Hs as [|? ? Hx Hs']; subst. cbn [words_from].
    destruct (Py.isspace x) eqn:E.
    + destruct acc as [|a acc]; [apply IH; auto|].
      constructor; [apply R; [discriminate|assumption|assumption]|].
      apply IH; auto.
    + apply IH; auto.
Qed.

Lemma replace_char_forall (P Q : char -> Prop) (c : char) (new : str) :
  (forall x, Q x -> x <> c -> P x) -> List.Forall P new ->
  forall s, List.Forall Q s -> List.Forall P (Py.replace_from [c] new 0 s).
Proof.
  intros HP Hnew s Hs. rewrite replace_from_char.
  induction Hs as [|x s Hx Hs IH]; [constructor|].
  cbn [List.flat_map]. apply List.Forall_app. split; [|exact IH].
  destruct (N.eqb_spec c x) as [E|E]; [exact Hnew|].
  constructor; [|constructor]. apply HP; [exact Hx|congruence].
Qed.

(** X4: the cost [_parse_cost] returns is a list of symbols joined by
    single blanks, and no symbol is empty or holds white space or a
    brace: the braces of the cost are gone and runs of white space are
    collapsed. *)
Theorem parse_cost_symbols (cost_str : str) :
  exists symbols,
    AbilityParser._parse_cost cost_str = Py.join (lit " ") symbols /\
    List.Forall cost_symbol symbols.
Proof.
  unfold AbilityParser._parse_cost.
  set (t := Py.replace (lit "}") (lit " ") (Py.replace (lit "{") [] (Py.strip cost_str))).
  exists (words (Py.strip t)). split.
  - rewrite sub_spaces. apply collapse_stripped.
  - unfold words, cost_symbol.
    apply (@words_from_chars (fun c => c <> 123%N /\ c <> 125%N)); [|constructor|constructor].
    apply strip_subset. subst t.
    change (Py.replace (lit "}") (lit " ")) with (Py.replace_from [125%N] [32%N] 0).
    change (Py.replace (lit "{") []) with (Py.replace_from [123%N] [] 0).
    apply (@replace_char_forall _ (fun c => c <> 123%N)).
    + intros x H1 H2. split; assumption.
    + constructor; [split; discriminate|constructor].
    + apply (@replace_char_forall _ (fun _ => True)); [auto|constructor|].
      apply List.Forall_forall. auto.
Qed.

(** *** Escaping *)

Lemma oracle_char_no_dash (c : char) : ~ List.In EM_DASH (oracle_char c).
Proof.
  unfold oracle_char.
  destruct (N.eqb c NL) eqn:E1.
  - cbn. intuition discriminate.
  - destruct (N.eqb c EM_DASH) eqn:E2.
    + cbn. intuition discriminate.
    + cbn. intros [H|[]]. subst c. rewrite N.eqb_refl in E2. discriminate.
Qed.

Lemma flat_map_oracle_char_id (s : str) :
  ~ List.In NL s -> ~ List.In EM_DASH s -> List.flat_map oracle_char s = s.
Proof.
  induction s as [|x s IH]; intros H1 H2; [reflexivity|].
  cbn [List.flat_map]. rewrite IH.
  - unfold oracle_char.
    destruct (N.eqb_spec x NL) as [->|]; [exfalso; apply H1; left; reflexivity|].
    destruct (N.eqb_spec x EM_DASH) as [->|]; [exfalso; apply H2; left; reflexivity|].
    reflexivity.
  - intro H. apply H1. right. exact H.
  - intro H. apply H2. right. exact H.
Qed.

Lemma flat_map_oracle_char_length (s : str) :
  List.length s <= List.length (List.flat_map oracle_char s).
Proof.
  induction s as [|x s IH]; [cbn; lia|].
  cbn [List.flat_map]. rewrite List.length_app. cbn [List.length].
  assert (1 <= List.length (oracle_char x)).
  { unfold oracle_char. destruct (N.eqb x NL); [cbn; lia|].
    destruct (N.eqb x EM_DASH); cbn; lia. }
  lia.
Qed.

(** X5: the text [escape_forge_text] returns holds no line break and no
    em dash, is at least as long as its argument, and escaping it again
    changes nothing. *)
Theorem escape_forge_text_one_line (text : str) :
  ~ List.In NL (escape_forge_text text) /\
  ~ List.In EM_DASH (escape_forge_text text) /\
  List.length text <= List.length (escape_forge_text text) /\
  escape_forge_text (escape_forge_text text) = escape_forge_text text.
Proof.
  assert (A : ~ List.In NL (escape_forge_text text)).
  { rewrite escape_forge_text_chars. intro H. apply List.in_flat_map in H.
    destruct H as (c & _ & H). exact (oracle_char_no_newline c H). }
  assert (B : ~ List.In EM_DASH (escape_forge_text text)).
  { rewrite escape_forge_text_chars. intro H. apply List.in_flat_map in H.
    destruct H as (c & _ & H). exact (oracle_char_no_dash c H). }
  split; [exact A|]. split; [exact B|]. split.
  - rewrite escape_forge_text_chars. apply flat_map_oracle_char_length.
  - rewrite (escape_forge_text_chars (escape_forge_text text)).
    apply flat_map_oracle_char_id; assumption.
Qed.


(** *** Mana costs *)

Lemma mana_tokens_ok :
  forall n s, List.length s <= n ->
    List.Forall (fun t => mana_token t = true) (mana_tokens s).
Proof.
  induction n as [|n IH]; intros s Hn.
  - destruct s; [constructor|cbn in Hn; lia].
  - destruct s as [|a from1]; [constructor|].
    cbn [List.length] in Hn.
    assert (H1 : List.Forall (fun t => mana_token t = true) (mana_tokens from1))
      by (apply IH; lia).
    assert (Single : List.Forall (fun t => mana_token t = true)
                       (if (Py.char_in a WUBRG || Py.isdigit a)%bool
                        then [a] :: mana_tokens from1 else mana_tokens from1)).
    { destruct (Py.char_in a WUBRG || Py.isdigit a)%bool eqn:E; [|exact H1].
      constructor; [exact E|exact H1]. }
    cbn [mana_tokens].
    destruct from1 as [|b [|c from3]]; try exact Single.
    destruct (Py.isdigit a && Py.char_in b WUBRG && N.eqb c 47)%bool eqn:E1.
    + constructor; [|exact H1].
      apply andb_prop in E1. destruct E1 as [E1 _].
      apply andb_prop in E1. destruct E1 as [E1 _].
      cbn. unfold is_mana_char. rewrite E1. apply Bool.orb_true_r.
    + destruct (Py.char_in a WUBRG && N.eqb b 47 && Py.char_in c WUBRG)%bool eqn:E2.
      * constructor; [exact E2|]. apply IH. cbn [List.length] in Hn. lia.
      * exact Single.
Qed.

Lemma split_char_token (c : char) (t : str) :
  ~ List.In c t ->
  forall acc,
    Py.split_from [c] 0 acc t = [List.rev acc ++ t] /\
    forall rest,
      Py.split_from [c] 0 acc (t ++ c :: rest)
      = (List.rev acc ++ t) :: Py.split_from [c] 0 [] rest.
Proof.
  induction t as [|x t IH]; intros Ht acc.
  - split; [cbn; rewrite List.app_nil_r; reflexivity|].
    intro rest. cbn [List.app Py.split_from Py.startswith].
    rewrite N.eqb_refl. cbn. rewrite List.app_nil_r. reflexivity.
  - assert (Hx : N.eqb c x = false).
    { destruct (N.eqb_spec c x) as [<-|]; [|reflexivity]. exfalso. apply Ht. left. reflexivity. }
    assert (Ht' : ~ List.In c t) by (intro H; apply Ht; right; exact H).
    destruct (IH Ht' (x :: acc)) as [I1 I2].
    cbn [List.rev] in I1, I2. rewrite <- List.app_assoc in I1, I2. cbn [List.app] in I1, I2.
    split.
    + cbn [Py.split_from Py.startswith]. rewrite Hx. cbn [andb]. exact I1.
    + intro rest. cbn [List.app Py.split_from Py.startswith]. rewrite Hx. cbn [andb].
      apply I2.
Qed.

Lemma split_join (c : char) :
  forall l, l <> [] -> List.Forall (fun t => ~ List.In c t) l ->
            Py.split [c] (Py.join [c] l) = l.
Proof.
  unfold Py.split. induction l as [|t l IH]; intros Hl Hc; [congruence|].
  inversion Hc as [|? ? Ht Hc']; subst.
  destruct l as [|t' l].
  - cbn [Py.join]. destruct (@split_char_token c t Ht []) as [I1 _]. exact I1.
  - change (Py.join [c] (t :: t' :: l)) with (t ++ [c] ++ Py.join [c] (t' :: l)).
    cbn [List.app]. destruct (@split_char_token c t Ht []) as [_ I2].
    rewrite I2. cbn [List.rev List.app]. rewrite IH; [reflexivity|discriminate|exact Hc'].
Qed.

Lemma mana_token_no_space (t : str) : mana_token t = true -> ~ List.In 32%N t.
Proof.
  intros H Hin. destruct t as [|a [|b [|c [|d t]]]]; try discriminate.
  - destruct Hin as [->|[]]. vm_compute in H. discriminate.
  - cbn [mana_token] in H. apply andb_prop in H. destruct H as [H Hc].
    apply andb_prop in H. destruct H as [Ha Hb].
    destruct Hin as [->|[->|[->|[]]]]; vm_compute in Ha, Hb, Hc; discriminate.
Qed.

(** X6: for an ASCII mana string, the mana cost [parse_mana_cost]
    returns is empty or, split at its blanks, a list of tokens each of
    which is one digit, one colour letter of WUBRG, or a hybrid [c/c] of
    two colour letters. *)
Theorem parse_mana_cost_tokens (mana_str : str) :
  is_ascii mana_str ->
  parse_mana_cost mana_str = [] \/
  List.Forall (fun t => mana_token t = true)
              (Py.split (lit " ") (parse_mana_cost mana_str)).
Proof.
  intros _. unfold parse_mana_cost. destruct (negb (Py.truthy mana_str)); [left; reflexivity|].
  pose proof (@mana_tokens_ok (List.length mana_str) mana_str (le_n _)) as H.
  destruct (mana_tokens mana_str) as [|t l] eqn:E; [left; reflexivity|].
  right. change (lit " ") with [32%N]. rewrite split_join.
  - exact H.
  - discriminate.
  - apply List.Forall_forall. intros t0 Ht0. apply mana_token_no_space.
    rewrite List.Forall_forall in H. apply H. exact Ht0.
Qed.

Lemma parse_mana_cost_tokens_witness :
  is_ascii (lit "2W/UG") /\
  (parse_mana_cost (lit "2W/UG") = [] \/
   List.Forall (fun t => mana_token t = true)
               (Py.split (lit " ") (parse_mana_cost (lit "2W/UG")))).
Proof.
  assert (H : is_ascii (lit "2W/UG")) by reflexivity.
  split; [exact H | exact (@parse_mana_cost_tokens (lit "2W/UG") H)].
Defined.

Lemma mana_tokens_plain (a : char) (from1 : str) :
  ~ List.In 47%N (a :: from1) ->
  mana_tokens (a :: from1)
  = (if is_mana_char a then [[a]] else []) ++ mana_tokens from1.
Proof.
  intro H. cbn [mana_tokens]. unfold is_mana_char, is_colour.
  destruct from1 as [|b [|c from3]];
    try (destruct (Py.char_in a WUBRG || Py.isdigit a)%bool; reflexivity).
  assert (Hb : N.eqb b 47 = false).
  { destruct (N.eqb_spec b 47) as [->|]; [|reflexivity]. exfalso. apply H. right. left. reflexivity. }
  assert (Hc : N.eqb c 47 = false).
  { destruct (N.eqb_spec c 47) as [->|]; [|reflexivity]. exfalso. apply H. right. right. left. reflexivity. }
  rewrite Hb, Hc, !Bool.andb_false_r. cbn [andb].
  destruct (Py.char_in a WUBRG || Py.isdigit a)%bool; reflexivity.
Qed.

(** X7: on an ASCII mana string without a slash, [parse_mana_cost] keeps
    the digits and the colour letters, in order, each as a token of its
    own (so a number of several digits is split into its digits), and
    drops every other character. *)
Theorem parse_mana_cost_plain (mana_str : str) :
  is_ascii mana_str ->
  ~ List.In 47%N mana_str ->
  parse_mana_cost mana_str
  = Py.join (lit " ") (List.map (fun c => [c]) (List.filter is_mana_char mana_str)).
Proof.
  intros _ H. unfold parse_mana_cost.
  destruct mana_str as [|a s]; [reflexivity|].
  change (negb (Py.truthy (a :: s))) with false. cbv iota. f_equal.
  revert H. generalize (a :: s). clear a s.
  induction l as [|a s IH]; intro H; [reflexivity|].
  rewrite mana_tokens_plain by exact H.
  rewrite IH by (intro Hs; apply H; right; exact Hs).
  cbn [List.filter]. destruct (is_mana_char a); reflexivity.
Qed.

Lemma parse_mana_cost_plain_witness :
  is_ascii (lit "10WW") /\
  ~ List.In 47%N (lit "10WW") /\
  parse_mana_cost (lit "10WW") = lit "1 0 W W".
Proof.
  assert (H1 : is_ascii (lit "10WW")) by reflexivity.
  assert (H2 : ~ List.In 47%N (lit "10WW")).
  { vm_compute. intuition discriminate. }
  split; [exact H1|]. split; [exact H2|].
  exact (@parse_mana_cost_plain (lit "10WW") H1 H2).
Defined.


(** *** What a handler does to the parser *)

Lemma parse_trigger_outcome (pattern : Re.re) (word : str) (st : t) (text : str) :
  trigger_outcome (lit "Effect") st (parse_trigger pattern word st text).
Proof.
  unfold parse_trigger.
  destruct (Re.rmatch pattern text) as [[c g]|];
    [|left; repeat split; left; reflexivity].
  cbv zeta. unfold if_truthy.
  destruct (_extract_trigger _) as [[|c0 tl]|];
    try (left; repeat split; left; reflexivity).
  unfold _get_next_svar_name. cbv beta iota zeta.
  cbn [svar_counter ability_lines svar_lines].
  destruct (_parse_effect_to_ability _) as [[|e0 e]|];
    try (left; repeat split; right; reflexivity).
  right. exists (c0 :: tl), (e0 :: e), (Py.upto 80 text).
  unfold add_ability_line, add_svar_line. cbn [svar_counter ability_lines svar_lines].
  rewrite <- !List.app_assoc.
  repeat split. discriminate.
Qed.

Lemma parse_beginning_outcome (st : t) (text : str) :
  trigger_outcome (lit "Effect") st (_parse_beginning_ability st text).
Proof.
  unfold _parse_beginning_ability.
  destruct (Re.rmatch Pat.beginning text) as [[c g]|];
    [|left; repeat split; left; reflexivity].
  cbv zeta. unfold if_truthy.
  destruct (first_key_in phase_map _) as [[|c0 tl]|];
    try (left; repeat split; left; reflexivity).
  unfold _get_next_svar_name. cbv beta iota zeta.
  cbn [svar_counter ability_lines svar_lines].
  destruct (_parse_effect_to_ability _) as [[|e0 e]|];
    try (left; repeat split; right; reflexivity).
  right. exists (lit "Mode$ Phase | Phase$ " ++ c0 :: tl), (e0 :: e), (Py.upto 80 text).
  unfold add_ability_line, add_svar_line. cbn [svar_counter ability_lines svar_lines].
  rewrite <- !List.app_assoc.
  repeat split. discriminate.
Qed.

Lemma parse_upkeep_outcome (st : t) (text : str) :
  trigger_outcome (lit "UpkeepEffect") st (_parse_upkeep_ability st text).
Proof.
  unfold _parse_upkeep_ability.
  destruct (Re.search Pat.upkeep text) as [[c g]|];
    [|left; repeat split; left; reflexivity].
  cbv zeta. unfold if_truthy.
  unfold _get_next_svar_name. cbv beta iota zeta.
  cbn [svar_counter ability_lines svar_lines].
  destruct (_parse_effect_to_ability _) as [[|e0 e]|];
    try (left; repeat split; right; reflexivity).
  right.
  exists (lit "Mode$ Phase | Phase$ Upkeep | TriggerZones$ Battlefield"),
         (e0 :: e),
         (lit "Upkeep" ++ [EM_DASH] ++ lit " " ++ Py.strip (Re.group 1 g)).
  unfold add_ability_line, add_svar_line. cbn [svar_counter ability_lines svar_lines].
  repeat split. discriminate.
Qed.

(** X8: each handler of a triggered ability ([_parse_whenever_ability],
    [_parse_when_ability], [_parse_beginning_ability],
    [_parse_upkeep_ability]) either adds no line at all (the counter
    stays or moves on by one), or adds exactly one [T:] line and exactly
    one [SVar:] line, where the [T:] line executes the very name that the
    [SVar:] line defines: the base name followed by the next counter
    value, with a definition that is not empty. *)
Theorem triggers_all_or_nothing (st : t) (text : str) :
  trigger_outcome (lit "Effect") st (_parse_whenever_ability st text) /\
  trigger_outcome (lit "Effect") st (_parse_when_ability st text) /\
  trigger_outcome (lit "Effect") st (_parse_beginning_ability st text) /\
  trigger_outcome (lit "UpkeepEffect") st (_parse_upkeep_ability st text).
Proof.
  split; [apply parse_trigger_outcome|].
  split; [apply parse_trigger_outcome|].
  split; [apply parse_beginning_outcome|apply parse_upkeep_outcome].
Qed.

Lemma ability_outcome_refl (st : t) : ability_outcome st st.
Proof. repeat split. left. reflexivity. Qed.

Lemma ability_outcome_add (st : t) (l : str) :
  (Py.startswith (lit "A:") l || Py.startswith (lit "S:") l)%bool = true ->
  ability_outcome st (add_ability_line st l).
Proof. intro H. repeat split. right. exists l. split; [reflexivity|exact H]. Qed.

Lemma parse_spell_effect_outcome (st : t) (text : str) :
  ability_outcome st (_parse_spell_effect st text).
Proof.
  unfold _parse_spell_effect, if_truthy.
  destruct (_parse_effect_to_ability text) as [[|e0 e]|];
    try apply ability_outcome_refl.
  apply ability_outcome_add. reflexivity.
Qed.

Lemma parse_activated_outcome (st : t) (text : str) :
  ability_outcome st (_parse_activated_ability st text).
Proof.
  unfold _parse_activated_ability, if_truthy.
  destruct (Re.rmatch Pat.activated text) as [[c g]|];
    [|apply ability_outcome_refl].
  cbv zeta. destruct (Py.truthy _); [|apply ability_outcome_refl].
  destruct (_parse_effect_to_ability _) as [[|e0 e]|];
    try apply ability_outcome_refl.
  apply ability_outcome_add. reflexivity.
Qed.

Lemma parse_static_outcome (st : t) (text : str) :
  ability_outcome st (_parse_static_ability st text).
Proof.
  unfold _parse_static_ability. cbv zeta.
  destruct (_ || _)%bool.
  { unfold _parse_pump_static.
    destruct (Re.search Pat.pump text) as [[c g]|]; [|apply ability_outcome_refl].
    cbv zeta. apply ability_outcome_add. reflexivity. }
  destruct (_ || _)%bool.
  { unfold _parse_restriction_static. apply ability_outcome_add. reflexivity. }
  destruct (_ || _)%bool.
  { unfold _parse_keyword_static. cbv zeta.
    destruct (List.filter _ keywords); [apply ability_outcome_refl|].
    apply ability_outcome_add. reflexivity. }
  apply ability_outcome_add. reflexivity.
Qed.

(** X9: the handlers of activated abilities, static abilities and spell
    effects never touch the [SVar:] buffer or the counter, and add at
    most one line, which starts with [A:] or [S:]. *)
Theorem plain_handlers_leave_svars (st : t) (text : str) :
  ability_outcome st (_parse_activated_ability st text) /\
  ability_outcome st (_parse_static_ability st text) /\
  ability_outcome st (_parse_spell_effect st text).
Proof.
  split; [apply parse_activated_outcome|].
  split; [apply parse_static_outcome|apply parse_spell_effect_outcome].
Qed.

(** *** Line vocabulary *)

Lemma modal_choices_outcome :
  forall choices st i,
    exists ds,
      List.length (fst (modal_choices st i choices)) = List.length choices /\
      ability_lines (snd (modal_choices st i choices)) = ability_lines st /\
      svar_lines (snd (modal_choices st i choices)) = svar_lines st ++ ds /\
      svar_counter (snd (modal_choices st i choices))
      = (svar_counter st + N.of_nat (List.length choices))%N /\
      List.length ds <= List.length choices /\
      List.forallb is_svar_line ds = true.
Proof.
  induction choices as [|choice choices IH]; intros st i.
  - exists []. cbn. rewrite List.app_nil_r, N.add_0_r. repeat split. lia.
  - cbn [modal_choices]. unfold _parse_modal_choice, _get_next_svar_name.
    cbv beta iota zeta. cbn [svar_counter ability_lines svar_lines].
    unfold if_truthy.
    destruct (_parse_effect_to_ability choice) as [[|e0 e]|].
    + match goal with |- context [modal_choices ?s (S i) choices] =>
        destruct (IH s (S i)) as (ds & I1 & I2 & I3 & I4 & I5 & I6);
        destruct (modal_choices s (S i) choices) as [names st'] end.
      cbn [fst snd svar_counter ability_lines svar_lines List.length] in *.
      exists ds. rewrite I1, I2, I3, I4. repeat split; try lia. exact I6.
    + match goal with |- context [modal_choices ?s (S i) choices] =>
        destruct (IH s (S i)) as (ds & I1 & I2 & I3 & I4 & I5 & I6);
        destruct (modal_choices s (S i) choices) as [names st'] end.
      unfold add_svar_line in *.
      cbn [fst snd svar_counter ability_lines svar_lines List.length] in *.
      eexists (_ :: ds). rewrite I1, I2, I3, I4, <- List.app_assoc.
      repeat split; try (cbn [List.length]; lia). cbn [List.forallb]. rewrite I6. reflexivity.
    + match goal with |- context [modal_choices ?s (S i) choices] =>
        destruct (IH s (S i)) as (ds & I1 & I2 & I3 & I4 & I5 & I6);
        destruct (modal_choices s (S i) choices) as [names st'] end.
      cbn [fst snd svar_counter ability_lines svar_lines List.length] in *.
      exists ds. rewrite I1, I2, I3, I4. repeat split; try lia. exact I6.
Qed.

Lemma parse_modal_outcome (st : t) (text : str) :
  ability_outcome st (_parse_modal_ability st text) \/
  charm_outcome st (_parse_modal_ability st text).
Proof.
  unfold _parse_modal_ability.
  match goal with |- context [let (_, _) := ?pc in _] => destruct pc as [prefix choices_text] end.
  cbv zeta.
  destruct (_extract_modal_choices choices_text) as [|ch chs] eqn:Ec.
  { left. apply parse_spell_effect_outcome. }
  right. unfold _get_next_svar_name. cbv beta iota zeta.
  cbn [svar_counter ability_lines svar_lines].
  match goal with |- context [modal_choices ?s 1 (ch :: chs)] =>
    destruct (modal_choices_outcome (ch :: chs) s 1) as (ds & I1 & I2 & I3 & I4 & I5 & I6);
    destruct (modal_choices s 1 (ch :: chs)) as [names st'] end.
  cbn [fst snd svar_counter ability_lines svar_lines] in *.
  exists names, ds. cbv zeta. rewrite I1.
  split; [destruct names; [discriminate|discriminate]|].
  split; [exact I5|]. split; [exact I6|].
  unfold add_svar_line, add_ability_line, if_truthy.
  cbn [svar_counter ability_lines svar_lines].
  destruct (Py.truthy prefix && _)%bool.
  - destruct (_extract_trigger prefix) as [[|c0 tl]|].
    + right. right. cbn [svar_counter ability_lines svar_lines].
      rewrite I2, I3, I4, <- List.app_assoc. repeat split.
    + right. left. exists (c0 :: tl), (Py.upto 80 text).
      cbn [svar_counter ability_lines svar_lines].
      rewrite I2, I3, I4, <- !List.app_assoc. repeat split.
    + right. right. cbn [svar_counter ability_lines svar_lines].
      rewrite I2, I3, I4, <- List.app_assoc. repeat split.
  - left. exists (Py.upto 100 text). cbn [svar_counter ability_lines svar_lines].
    rewrite I2, I3, I4, <- List.app_assoc. repeat split.
Qed.

(** *** One block, and a pass *)

Lemma parse_ability_block_cases (P : t -> Prop) (st : t) (text : str) :
  P st ->
  (is_charm (Py.strip text) = true -> P (_parse_modal_ability st (Py.strip text))) ->
  (is_charm (Py.strip text) = false ->
   P (_parse_whenever_ability st (Py.strip text)) /\
   P (_parse_when_ability st (Py.strip text)) /\
   P (_parse_beginning_ability st (Py.strip text)) /\
   P (_parse_upkeep_ability st (Py.strip text)) /\
   P (_parse_activated_ability st (Py.strip text)) /\
   P (_parse_static_ability st (Py.strip text)) /\
   P (_parse_spell_effect st (Py.strip text))) ->
  P (_parse_ability_block st text).
Proof.
  intros H0 Hm Hr. unfold _parse_ability_block. cbv zeta.
  destruct (negb (Py.truthy (Py.strip text))); [exact H0|].
  fold (is_charm (Py.strip text)).
  destruct (is_charm (Py.strip text)); [apply Hm; reflexivity|].
  destruct (Hr eq_refl) as (H1 & H2 & H3 & H4 & H5 & H6 & H7).
  destruct (Py.startswith (lit "Whenever ") _); [exact H1|].
  destruct (Py.startswith (lit "When ") _); [exact H2|].
  destruct (Py.startswith (lit "At the beginning of ") _); [exact H3|].
  destruct (_ || _)%bool; [exact H4|].
  destruct (Re.rmatch Pat.cost_prefix _); [exact H5|].
  destruct (List.existsb _ _); [exact H6|exact H7].
Qed.

Ltac close_adds :=
  repeat split; cbn [List.length N.of_nat]; try lia; try reflexivity.

Lemma trigger_outcome_adds (base : str) (st st' : t) :
  trigger_outcome base st st' -> adds_at_most 1 st st'.
Proof.
  intros [(H1 & H2 & [H3|H3])|(trig & effect & desc & H1 & H2 & H3 & _)].
  - exists [], [], 0%N. unfold extends. rewrite H1, H2, H3, !List.app_nil_r, N.add_0_r.
    close_adds.
  - exists [], [], 1%N. unfold extends. rewrite H1, H2, H3, !List.app_nil_r.
    close_adds.
  - eexists [_], [_], 1%N. unfold extends. rewrite H1, H2, H3.
    close_adds.
Qed.

Lemma ability_outcome_adds (st st' : t) :
  ability_outcome st st' -> adds_at_most 1 st st'.
Proof.
  intros (H1 & H2 & [H3|(l & H3 & Hl)]).
  - exists [], [], 0%N. unfold extends. rewrite H1, H2, H3, !List.app_nil_r, N.add_0_r.
    close_adds.
  - exists [l], [], 0%N. unfold extends. rewrite H1, H2, H3, !List.app_nil_r, N.add_0_r.
    close_adds. cbn [List.forallb]. unfold is_ability_line.
    rewrite Bool.andb_true_r. rewrite <- Bool.orb_assoc, Hl. apply Bool.orb_true_r.
Qed.

Lemma forallb_snoc (p : str -> bool) (l : list str) (x : str) :
  List.forallb p l = true -> p x = true -> List.forallb p (l ++ [x]) = true.
Proof. intros H1 H2. rewrite List.forallb_app, H1. cbn. rewrite H2. reflexivity. Qed.

Lemma charm_outcome_adds (st st' : t) :
  charm_outcome st st' -> adds_at_most 1 st st'.
Proof.
  intros (names & ds & Hn & Hl & Hs & [(desc & H1 & H2 & H3)|[(trig & desc & H1 & H2 & H3)|(H1 & H2 & H3)]]).
  - eexists [_], (ds ++ [_]), (1 + N.of_nat (List.length names))%N. unfold extends.
    rewrite H1, H2, H3, N.add_assoc.
    split; [repeat split|]. split; [cbn; lia|].
    split; [rewrite List.length_app; cbn [List.length]; lia|].
    split; [reflexivity|]. apply forallb_snoc; [exact Hs|reflexivity].
  - eexists [_], (ds ++ [_; _]), (1 + N.of_nat (List.length names) + 1)%N. unfold extends.
    rewrite H1, H2, H3, !N.add_assoc.
    split; [repeat split|]. split; [cbn; lia|].
    split; [rewrite List.length_app; cbn [List.length]; lia|].
    split; [reflexivity|]. rewrite List.forallb_app, Hs. reflexivity.
  - exists [], (ds ++ [lit "SVar:" ++ (lit "Choices" ++ Py.str_of_N (svar_counter st + 1))
                        ++ lit ":" ++ Py.join (lit ",") names]),
      (1 + N.of_nat (List.length names))%N. unfold extends.
    rewrite H1, H2, H3, N.add_assoc, List.app_nil_r.
    split; [repeat split|]. split; [cbn; lia|].
    split; [rewrite List.length_app; cbn [List.length]; lia|].
    split; [reflexivity|]. apply forallb_snoc; [exact Hs|reflexivity].
Qed.

Lemma adds_at_most_refl (st : t) : adds_at_most 1 st st.
Proof.
  exists [], [], 0%N. unfold extends. rewrite !List.app_nil_r, N.add_0_r.
  close_adds.
Qed.

Lemma parse_ability_block_adds (st : t) (text : str) :
  adds_at_most 1 st (_parse_ability_block st text).
Proof.
  apply parse_ability_block_cases.
  - apply adds_at_most_refl.
  - intros _. destruct (parse_modal_outcome st (Py.strip text)) as [H|H].
    + apply ability_outcome_adds. exact H.
    + apply charm_outcome_adds. exact H.
  - intros _.
    repeat split;
      first [ apply (trigger_outcome_adds (base := lit "Effect")); apply parse_trigger_outcome
            | apply (trigger_outcome_adds (base := lit "Effect")); apply parse_beginning_outcome
            | apply (trigger_outcome_adds (base := lit "UpkeepEffect")); apply parse_upkeep_outcome
            | apply ability_outcome_adds; apply parse_activated_outcome
            | apply ability_outcome_adds; apply parse_static_outcome
            | apply ability_outcome_adds; apply parse_spell_effect_outcome ].
Qed.

Lemma parse_blocks_adds :
  forall blocks st, adds_at_most (List.length blocks) st (parse_blocks st blocks).
Proof.
  induction blocks as [|b blocks IH]; intro st.
  - exists [], [], 0%N. unfold extends. cbn [parse_blocks].
    rewrite !List.app_nil_r, N.add_0_r. close_adds.
  - cbn [parse_blocks]. cbv zeta.
    assert (K : forall st1, adds_at_most 1 st st1 ->
                adds_at_most (List.length (b :: blocks)) st (parse_blocks st1 blocks)).
    { intros st1 (da & ds & n & (E1 & E2 & E3) & L1 & L2 & P1 & P2).
      destruct (IH st1) as (da' & ds' & n' & (F1 & F2 & F3) & M1 & M2 & Q1 & Q2).
      exists (da ++ da'), (ds ++ ds'), (n + n')%N. unfold extends.
      rewrite F1, F2, F3, E1, E2, E3, <- !List.app_assoc, N.add_assoc.
      repeat split.
      - rewrite List.length_app. cbn [List.length]. lia.
      - rewrite List.length_app. lia.
      - rewrite List.forallb_app, P1, Q1. reflexivity.
      - rewrite List.forallb_app, P2, Q2. reflexivity. }
    destruct (negb (Py.truthy (Py.strip b))).
    + apply K. apply adds_at_most_refl.
    + apply K. apply parse_ability_block_adds.
Qed.

(** X10: whatever the text and the state of the parser, every ability
    line [parse_abilities] returns starts with [T:], [A:] or [S:], and
    every line of its second list starts with [SVar:]. *)
Theorem parse_abilities_vocabulary (self : t) (text : str) :
  List.forallb is_ability_line (fst (fst (parse_abilities self text))) = true /\
  List.forallb is_svar_line (snd (fst (parse_abilities self text))) = true.
Proof.
  unfold parse_abilities. destruct (negb (Py.truthy text)); [split; reflexivity|].
  cbv zeta. cbn [fst snd].
  destruct (parse_blocks_adds (_split_ability_blocks (Py.strip text)) (mk [] [] 0))
    as (da & ds & n & (E1 & E2 & E3) & _ & _ & P1 & P2).
  rewrite E1, E2. cbn [ability_lines svar_lines List.app]. split; assumption.
Qed.

(** X11: [parse_abilities] returns at most one ability line for each
    block of the segmented text, and no more [SVar:] lines than the
    counter has handed out names. *)
Theorem parse_abilities_bounds (self : t) (text : str) :
  List.length (fst (fst (parse_abilities self text)))
  <= List.length (_split_ability_blocks (Py.strip text)) /\
  (N.of_nat (List.length (snd (fst (parse_abilities self text))))
   <= svar_counter (snd (parse_abilities self text)))%N.
Proof.
  unfold parse_abilities. destruct (negb (Py.truthy text)).
  { cbn [fst snd List.length N.of_nat]. split; lia. }
  cbv iota zeta. cbn [fst snd].
  destruct (parse_blocks_adds (_split_ability_blocks (Py.strip text)) (mk [] [] 0))
    as (da & ds & n & (E1 & E2 & E3) & L1 & L2 & _ & _).
  rewrite E1, E2, E3. cbn [ability_lines svar_lines svar_counter List.app]. split; [exact L1|].
  rewrite N.add_0_l. exact L2.
Qed.

(** *** Names *)

Lemma lit_inj (s1 s2 : string) : lit s1 = lit s2 -> s1 = s2.
Proof.
  unfold lit. intro H.
  apply (f_equal (List.map ascii_of_N)) in H.
  rewrite !List.map_map in H.
  rewrite (List.map_ext _ (fun a => a)) in H by (intro a; apply ascii_N_embedding).
  rewrite (List.map_ext (fun x => ascii_of_N (N_of_ascii x)) (fun a => a)) in H
    by (intro a; apply ascii_N_embedding).
  rewrite !List.map_id in H.
  rewrite <- (string_of_list_ascii_of_string s1), <- (string_of_list_ascii_of_string s2), H.
  reflexivity.
Qed.

Lemma to_uint_not_nil (n : N) : N.to_uint n <> Decimal.Nil.
Proof.
  intro H. pose proof (DecimalN.Unsigned.of_to n) as E. rewrite H in E.
  cbn in E. subst n. discriminate.
Qed.

Lemma str_of_N_inj (n m : N) : Py.str_of_N n = Py.str_of_N m -> n = m.
Proof.
  unfold Py.str_of_N. intro H. apply lit_inj in H.
  apply DecimalN.Unsigned.to_uint_inj.
  pose proof (@NilZero.usu (N.to_uint n) (to_uint_not_nil n)) as A.
  pose proof (@NilZero.usu (N.to_uint m) (to_uint_not_nil m)) as B.
  rewrite H in A. rewrite A in B. congruence.
Qed.

Lemma string_of_uint_digits (d : Decimal.uint) :
  List.Forall is_digit_char (lit (NilEmpty.string_of_uint d)).
Proof.
  induction d; cbn [NilEmpty.string_of_uint]; try constructor;
    try (unfold is_digit_char; cbn; lia); exact IHd.
Qed.

Lemma str_of_N_digits (n : N) : List.Forall is_digit_char (Py.str_of_N n).
Proof.
  unfold Py.str_of_N, NilZero.string_of_uint.
  destruct (N.to_uint n); try apply string_of_uint_digits.
  constructor; [unfold is_digit_char; cbn; lia|constructor].
Qed.

Lemma up_to_colon_app (a r : str) :
  ~ List.In 58%N a -> up_to_colon (a ++ 58%N :: r) = a.
Proof.
  induction a as [|x a IH]; intro H.
  - reflexivity.
  - cbn [List.app up_to_colon].
    destruct (N.eqb_spec x 58) as [->|]; [exfalso; apply H; left; reflexivity|].
    rewrite IH; [reflexivity|]. intro K. apply H. right. exact K.
Qed.

Lemma svar_line_name_effect (base : str) (n : N) (effect : str) :
  effect_base base ->
  svar_line_name (lit "SVar:" ++ (base ++ Py.str_of_N n) ++ lit ":" ++ effect)
  = base ++ Py.str_of_N n.
Proof.
  intro Hb. unfold svar_line_name.
  change (List.skipn 5 (lit "SVar:" ++ (base ++ Py.str_of_N n) ++ lit ":" ++ effect))
    with ((base ++ Py.str_of_N n) ++ 58%N :: effect).
  apply up_to_colon_app. intro H. apply List.in_app_or in H. destruct H as [H|H].
  - destruct Hb as [-> | ->]; vm_compute in H; intuition discriminate.
  - pose proof (str_of_N_digits n) as D. rewrite List.Forall_forall in D.
    apply D in H. unfold is_digit_char in H. lia.
Qed.

Lemma effect_name_inj (b1 b2 : str) (n1 n2 : N) :
  effect_base b1 -> effect_base b2 ->
  b1 ++ Py.str_of_N n1 = b2 ++ Py.str_of_N n2 -> n1 = n2.
Proof.
  intros [-> | ->] [-> | ->] H.
  - apply List.app_inv_head in H. apply str_of_N_inj. exact H.
  - cbn in H. discriminate.
  - cbn in H. discriminate.
  - apply List.app_inv_head in H. apply str_of_N_inj. exact H.
Qed.

Lemma names_fresh_counter (st st' : t) :
  svar_lines st' = svar_lines st ->
  (svar_counter st <= svar_counter st')%N ->
  names_fresh st -> names_fresh st'.
Proof.
  intros E1 E2 [H1 H2]. unfold names_fresh. rewrite E1. split; [exact H1|].
  rewrite List.Forall_forall in *. intros l Hl.
  destruct (H2 l Hl) as (base & n & Hb & Hn & E).
  exists base, n. repeat split; [exact Hb | lia | exact E].
Qed.

Lemma trigger_outcome_fresh (base : str) (st st' : t) :
  effect_base base -> trigger_outcome base st st' ->
  names_fresh st -> names_fresh st'.
Proof.
  intros Hb [(H1 & H2 & H3)|(trig & effect & desc & H1 & H2 & H3 & _)] Hf.
  - apply (@names_fresh_counter st); [exact H2 | destruct H3; lia | exact Hf].
  - destruct Hf as [F1 F2]. unfold names_fresh. rewrite H2, H3.
    rewrite List.map_app. cbn [List.map].
    rewrite (@svar_line_name_effect base _ effect Hb).
    rewrite List.Forall_forall in F2.
    split.
    + apply List.NoDup_app; [exact F1 | repeat constructor; intros [] |].
      intros a Ha [Hx|[]]. subst a.
      apply List.in_map_iff in Ha. destruct Ha as (l & E & Hl).
      destruct (F2 l Hl) as (b & n & Hb' & Hn & E').
      rewrite E' in E. apply (@effect_name_inj b base n (svar_counter st + 1) Hb' Hb) in E. lia.
    + apply List.Forall_app. split.
      * apply List.Forall_forall. intros l Hl.
        destruct (F2 l Hl) as (b & n & Hb' & Hn & E').
        exists b, n. repeat split; [exact Hb' | lia | exact E'].
      * constructor; [|constructor].
        exists base, (svar_counter st + 1)%N. repeat split; [exact Hb | lia |].
        apply svar_line_name_effect. exact Hb.
Qed.

Lemma ability_outcome_fresh (st st' : t) :
  ability_outcome st st' -> names_fresh st -> names_fresh st'.
Proof.
  intros (H1 & H2 & _) Hf.
  apply (@names_fresh_counter st); [exact H1 | lia | exact Hf].
Qed.

Lemma lstrip_id (s : str) :
  match s with x :: _ => Py.isspace x = false | [] => True end -> Py.lstrip s = s.
Proof. destruct s as [|x s]; [reflexivity|]. intro H. cbn [Py.lstrip]. rewrite H. reflexivity. Qed.

Lemma parse_blocks_fresh :
  forall blocks st,
    List.Forall (fun b => is_charm (Py.strip (Py.strip b)) = false) blocks ->
    names_fresh st -> names_fresh (parse_blocks st blocks).
Proof.
  induction blocks as [|b blocks IH]; intros st Hb Hf; [exact Hf|].
  inversion Hb as [|? ? Hc Hb']; subst.
  cbn [parse_blocks]. cbv zeta.
  destruct (negb (Py.truthy (Py.strip b))); [apply IH; assumption|].
  apply IH; [exact Hb'|].
  apply parse_ability_block_cases.
  - exact Hf.
  - intro H. congruence.
  - intros _.
    repeat split;
      first [ apply (@trigger_outcome_fresh (lit "Effect") st);
              [left; reflexivity | apply parse_trigger_outcome | exact Hf]
            | apply (@trigger_outcome_fresh (lit "Effect") st);
              [left; reflexivity | apply parse_beginning_outcome | exact Hf]
            | apply (@trigger_outcome_fresh (lit "UpkeepEffect") st);
              [right; reflexivity | apply parse_upkeep_outcome | exact Hf]
            | apply (@ability_outcome_fresh st);
              [apply parse_activated_outcome | exact Hf]
            | apply (@ability_outcome_fresh st);
              [apply parse_static_outcome | exact Hf]
            | apply (@ability_outcome_fresh st);
              [apply parse_spell_effect_outcome | exact Hf] ].
Qed.

(** *** Distinct names, blank texts, choices *)
Lemma rstrip_id (s : str) : no_trailing_space s -> Py.rstrip s = s.
Proof.
  unfold no_trailing_space, Py.rstrip. intro H.
  rewrite lstrip_id by exact H. apply List.rev_involutive.
Qed.

Lemma strip_idem (s : str) : Py.strip (Py.strip s) = Py.strip s.
Proof.
  destruct (strip_shape s) as [H1 H2].
  unfold Py.strip at 1. rewrite lstrip_id by exact H2. apply rstrip_id. exact H1.
Qed.

(** X12: when no block of the text passes the charm test of the
    classifier, the names defined by the [SVar:] lines of a compilation
    are pairwise distinct. *)
Theorem svar_names_distinct_without_charm (text : str) :
  List.Forall (fun b => is_charm (Py.strip b) = false)
              (_split_ability_blocks (Py.strip text)) ->
  List.NoDup (List.map svar_line_name (snd (compile text))).
Proof.
  intro H. unfold compile, parse_abilities.
  destruct (negb (Py.truthy text)); [constructor|].
  cbv zeta. cbn [fst snd].
  apply parse_blocks_fresh.
  - rewrite List.Forall_forall in *. intros b Hb. rewrite strip_idem. apply H. exact Hb.
  - split; [constructor|constructor].
Qed.

Lemma svar_names_distinct_without_charm_witness :
  List.Forall (fun b => is_charm (Py.strip b) = false)
              (_split_ability_blocks (Py.strip two_triggers)) /\
  List.NoDup (List.map svar_line_name (snd (compile two_triggers))).
Proof.
  assert (H : List.Forall (fun b => is_charm (Py.strip b) = false)
                          (_split_ability_blocks (Py.strip two_triggers))).
  { vm_compute. repeat constructor. }
  split; [exact H | exact (@svar_names_distinct_without_charm two_triggers H)].
Defined.

(** X13: a text that is empty or only white space compiles to no
    ability line and no [SVar:] line, whatever the parser held before. *)
Theorem blank_text_compiles_to_nothing (self : t) (text : str) :
  Py.strip text = [] -> fst (parse_abilities self text) = ([], []).
Proof.
  intro H. unfold parse_abilities.
  destruct (negb (Py.truthy text)); [reflexivity|].
  cbv zeta. rewrite H. reflexivity.
Qed.

Lemma blank_text_compiles_to_nothing_witness :
  Py.strip (lit "   ") = [] /\
  fst (parse_abilities __init__ (lit "   ")) = ([], []).
Proof.
  assert (H : Py.strip (lit "   ") = []) by reflexivity.
  split; [exact H | exact (@blank_text_compiles_to_nothing __init__ (lit "   ") H)].
Defined.

(** X14: the choices [_extract_modal_choices] returns are never empty
    and carry no white space at either end. *)
Theorem modal_choices_are_trimmed (choices_text : str) :
  List.Forall (fun c => c <> [] /\ Py.strip c = c)
              (_extract_modal_choices choices_text).
Proof.
  unfold _extract_modal_choices. cbv zeta.
  apply List.Forall_forall. intros c Hc.
  apply List.in_map_iff in Hc. destruct Hc as (c0 & <- & Hc0).
  apply List.filter_In in Hc0. destruct Hc0 as [_ Hc0].
  split; [|apply strip_idem].
  destruct (Py.strip c0); [discriminate|discriminate].
Qed.

Lemma literal_at_digits (keyword s d : str) :
  literal_at keyword s = Some d -> d <> [] /\ List.forallb Py.isdigit d = true.
Proof.
  unfold literal_at. destruct (span_spec Py.isdigit s) as (_ & H & _).
  destruct (span Py.isdigit s) as [a b]. cbn [fst] in H.
  destruct a as [|x a]; [discriminate|].
  assert (R : Some (x :: a) = Some d -> d <> [] /\ List.forallb Py.isdigit d = true).
  { intros [= <-]. split; [discriminate|exact H]. }
  destruct keyword; [exact R|].
  destruct (span Py.isspace b) as [w r]. destruct w; [discriminate|].
  destruct (Py.startswith _ r); [exact R|discriminate].
Qed.

Lemma first_literal_digits (keyword : str) :
  forall s d, first_literal keyword s = Some d ->
              d <> [] /\ List.forallb Py.isdigit d = true.
Proof.
  induction s as [|x s IH]; intros d H; cbn [first_literal] in H.
  - destruct (literal_at keyword []) eqn:E; [|discriminate].
    injection H as <-. exact (literal_at_digits _ _ E).
  - destruct (literal_at keyword (x :: s)) eqn:E.
    + injection H as <-. exact (literal_at_digits _ _ E).
    + apply IH. exact H.
Qed.

Lemma extract_number_digits (text keyword : str) :
  plain_keyword keyword ->
  _extract_number text keyword <> [] /\
  List.forallb Py.isdigit (_extract_number text keyword) = true.
Proof.
  intro Hk. unfold _extract_number, Re.search.
  pose proof (@search_number keyword Hk text None) as S.
  destruct (Re.search_from (Pat.number keyword) None text) as [[c g]|].
  - cbn [option_map snd] in S. symmetry in S.
    exact (first_literal_digits _ _ S).
  - destruct (_ || _)%bool; [split; [discriminate|reflexivity]|].
    destruct (Py.contains (lit "two ") _); [split; [discriminate|reflexivity]|].
    destruct (Py.contains (lit "three ") _); split; try discriminate; reflexivity.
Qed.

(** X16: for an ASCII clause and a keyword made of lower-case letters (or
    no keyword), the magnitude [_extract_number] returns is never empty
    and holds only the decimal digits 0 to 9. *)
Theorem extract_number_is_a_number (text keyword : str) :
  is_ascii text ->
  word_keyword keyword ->
  _extract_number text keyword <> [] /\
  List.forallb Py.isdigit (_extract_number text keyword) = true.
Proof.
  intros _ Hk. apply extract_number_digits.
  destruct keyword as [|c k]; [exact I|].
  unfold word_keyword in Hk. cbn [List.forallb] in Hk.
  apply andb_prop in Hk. destruct Hk as [Hc _].
  cbn [plain_keyword]. unfold Py.islower, Py.between in Hc.
  apply andb_prop in Hc. destruct Hc as [H1 H2].
  apply N.leb_le in H1. apply N.leb_le in H2.
  unfold Py.isspace, Py.between.
  repeat match goal with
         | |- context [N.leb ?a ?b] =>
             let E := fresh in destruct (N.leb_spec a b) as [E|E]; try lia
         | |- context [N.eqb ?a ?b] =>
             let E := fresh in destruct (N.eqb_spec a b) as [E|E]; try lia
         end; reflexivity.
Qed.

Lemma extract_number_is_a_number_witness :
  is_ascii (lit "draw two cards") /\
  word_keyword (lit "card") /\
  _extract_number (lit "draw two cards") (lit "card") <> [] /\
  List.forallb Py.isdigit (_extract_number (lit "draw two cards") (lit "card")) = true.
Proof.
  assert (H1 : is_ascii (lit "draw two cards")) by reflexivity.
  assert (H2 : word_keyword (lit "card")) by reflexivity.
  split; [exact H1|]. split; [exact H2|].
  exact (@extract_number_is_a_number (lit "draw two cards") (lit "card") H1 H2).
Defined.

(** X17: [convert_card] returns [None] exactly for a card whose stripped
    name is empty; otherwise the output starts with the line [Name:]
    followed by the stripped name and has at least one more line. *)
Theorem convert_card_needs_a_name (card : card_elem) :
  match Py.strip (name card) with
  | [] => convert_card_output card = None /\ convert_card card = None
  | n =>
      exists rest,
        convert_card_output card = Some ((lit "Name:" ++ n) :: rest) /\
        rest <> []
  end.
Proof.
  unfold convert_card, convert_card_output.
  destruct (Py.strip (name card)) as [|n0 nm]; [split; reflexivity|].
  change (negb (Py.truthy (n0 :: nm))) with false. cbv iota zeta.
  destruct (AbilityParser.parse_abilities AbilityParser.__init__ (Py.strip (text card)))
    as [[a s] p].
  destruct (prop card) as [pr|].
  - repeat match goal with
           | |- context [if ?b then _ else _] => destruct b
           end;
      cbn [List.app]; eexists; (split; [reflexivity|]);
      try discriminate;
      destruct a; destruct s; discriminate.
  - repeat match goal with
           | |- context [if ?b then _ else _] => destruct b
           end;
      cbn [List.app]; eexists; (split; [reflexivity|]);
      destruct a; destruct s; discriminate.
Qed.

(** X18: for a named card without a [prop] element the output is the
    [Name:] line, the ability lines, the [SVar:] lines and the Oracle
    line, in this order and nothing else: no [ManaCost:], [Types:] or
    [PT:] line, and no [Loyalty:] line even when the card has a loyalty. *)
Theorem convert_card_without_prop (card : card_elem) :
  Py.strip (name card) <> [] ->
  prop card = None ->
  convert_card_output card
  = Some ([lit "Name:" ++ Py.strip (name card)]
            ++ fst (compile (Py.strip (text card)))
            ++ snd (compile (Py.strip (text card)))
            ++ [oracle_line (Py.strip (text card))]).
Proof.
  intros Hn Hp. unfold convert_card_output, compile. rewrite Hp.
  destruct (Py.strip (name card)) as [|n0 nm]; [congruence|].
  change (negb (Py.truthy (n0 :: nm))) with false. cbv iota zeta.
  destruct (AbilityParser.parse_abilities AbilityParser.__init__ (Py.strip (text card)))
    as [[a s] p].
  cbn [fst snd]. unfold oracle_line.
  destruct (Py.strip (text card)) as [|c0 t0].
  - rewrite <- !List.app_assoc. reflexivity.
  - change (Py.truthy (c0 :: t0)) with true. cbv iota.
    rewrite escape_forge_text_chars, <- !List.app_assoc. reflexivity.
Qed.

Lemma convert_card_without_prop_witness :
  Py.strip (name bare_card) <> [] /\
  prop bare_card = None /\
  convert_card_output bare_card
  = Some [lit "Name:Goblin Token"; lit "Oracle:Haste"].
Proof.
  assert (H1 : Py.strip (name bare_card) <> []) by (vm_compute; discriminate).
  assert (H2 : prop bare_card = None) by reflexivity.
  split; [exact H1|]. split; [exact H2|].
  exact (@convert_card_without_prop bare_card H1 H2).
Defined.

(** *** The shape of the blocks *)

Lemma split_from_head (r : Re.re) :
  forall s k prev acc,
    exists rest P, Re.split_from r k prev acc s = (List.rev acc ++ rest) :: P.
Proof.
  induction s as [|x s IH]; intros k prev acc.
  - exists [], []. cbn. rewrite List.app_nil_r. reflexivity.
  - cbn [Re.split_from]. destruct k as [|k].
    + destruct (Re.match_len r prev (x :: s)) as [[|n]|].
      * destruct (IH 0 (Some x) (x :: acc)) as (rest & P & E).
        exists (x :: rest), P. rewrite E. cbn [List.rev]. rewrite <- List.app_assoc. reflexivity.
      * exists [], (Re.split_from r n (Some x) [] s). rewrite List.app_nil_r. reflexivity.
      * destruct (IH 0 (Some x) (x :: acc)) as (rest & P & E).
        exists (x :: rest), P. rewrite E. cbn [List.rev]. rewrite <- List.app_assoc. reflexivity.
    + apply IH.
Qed.

Lemma boundary_not_at_block_start (prev : option char) (u : char) (b : str) :
  Pat.block_start u = true ->
  Re.match_len Pat.block_boundary prev (u :: b) = None.
Proof.
  intro Hu.
  destruct (boundary_match prev (u :: b))
    as [(e & a & u' & b' & _ & _ & Es & Ha & Hws & _ & _)|M]; [|exact M].
  exfalso. destruct a as [|y a]; [congruence|].
  injection Es as -> _. cbn [List.forallb] in Hws.
  apply andb_prop in Hws. destruct Hws as [Hy _].
  apply space_not_block_start in Hy. congruence.
Qed.

Lemma removelast_cons (A : Type) (x : A) (l : list A) :
  l <> [] -> List.removelast (x :: l) = x :: List.removelast l.
Proof. destruct l; [congruence|reflexivity]. Qed.

Lemma split_pieces_shape :
  forall n s prev acc,
    List.length s <= n -> piece_state prev acc ->
    List.Forall starts_block (List.tl (Re.split_from Pat.block_boundary 0 prev acc s)) /\
    List.Forall ends_sentence
                (List.removelast (Re.split_from Pat.block_boundary 0 prev acc s)).
Proof.
  induction n as [|n IH]; intros s prev acc Hn Hst.
  - destruct s; [|cbn in Hn; lia]. cbn. split; constructor.
  - destruct s as [|x s]; [cbn; split; constructor|].
    cbn [Re.split_from].
    destruct (boundary_match prev (x :: s))
      as [(e & a & u & b & Ep & Ee & Es & Ha & Hws & Hu & M)|M]; rewrite M.
    + destruct a as [|y a]; [congruence|]. cbn [List.length].
      injection Es as Ex Es. subst y.
      subst prev. unfold piece_state in Hst.
      destruct acc as [|e' acc]; [congruence|].
      injection Hst as Hst. subst e'.
      rewrite split_from_skip by (rewrite Es, List.length_app; lia).
      assert (F : List.firstn (List.length a) s = a).
      { rewrite Es, List.firstn_app, Nat.sub_diag, List.firstn_all. cbn. apply List.app_nil_r. }
      assert (K : List.skipn (List.length a) s = u :: b).
      { rewrite Es, List.skipn_app, Nat.sub_diag, List.skipn_all. reflexivity. }
      rewrite F, K.
      cbn [List.forallb] in Hws. apply andb_prop in Hws. destruct Hws as [Hx Hws].
      destruct (after_run Py.isspace a x Hx Hws) as (w & Ew & Hw).
      destruct (IH (u :: b) (after (Some x) a) []) as [I1 I2].
      * cbn [List.length] in Hn. rewrite Es, List.length_app in Hn. cbn in *. lia.
      * unfold piece_state. rewrite Ew. destruct (Pat.sentence_end w) eqn:Sw; [|reflexivity].
        apply sentence_end_not_space in Sw. congruence.
      * assert (Hd : exists rest P,
                   Re.split_from Pat.block_boundary 0 (after (Some x) a) [] (u :: b)
                   = (u :: rest) :: P).
        { cbn [Re.split_from]. rewrite (@boundary_not_at_block_start (after (Some x) a) u b Hu).
          destruct (split_from_head Pat.block_boundary b 0 (Some u) [u]) as (rest & P & E).
          exists rest, P. exact E. }
        destruct Hd as (rest & P & E). rewrite E in *. cbn [List.tl] in *.
        split.
        -- constructor; [exists u, rest; split; [reflexivity|exact Hu] | exact I1].
        -- rewrite removelast_cons by discriminate.
           constructor; [|exact I2].
           exists (List.rev acc), e. split; [reflexivity|exact Ee].
    + apply (IH s (Some x) (x :: acc)); [cbn in Hn; lia | reflexivity].
Qed.

Lemma marker_not_at (u : char) (r : str) :
  u <> 32%N -> Py.startswith MARKER (u :: r) = false.
Proof.
  intro H. rewrite marker_chars. cbn [Py.startswith].
  destruct (N.eqb_spec 32 u); [congruence|reflexivity].
Qed.

Lemma restore_starts (b : str) :
  starts_block b -> starts_block (Py.replace_from MARKER [NL] 0 b).
Proof.
  intros (u & r & -> & Hu). cbn [Py.replace_from].
  rewrite marker_not_at.
  - eexists. eexists. split; [reflexivity|exact Hu].
  - intros ->. vm_compute in Hu. discriminate.
Qed.

Lemma replace_from_last (old new : str) (e : char) :
  old <> [] -> ~ List.In e old ->
  forall a k, k <= List.length a ->
              exists X, Py.replace_from old new k (a ++ [e]) = X ++ [e].
Proof.
  intros Hne He. induction a as [|x a IH]; intros k Hk.
  - cbn in Hk. assert (k = 0) by lia. subst k.
    cbn [List.app Py.replace_from]. rewrite startswith_stop by assumption.
    exists []. reflexivity.
  - destruct k as [|k].
    + cbn [List.app Py.replace_from].
      change (x :: a ++ [e]) with ((x :: a) ++ [e]).
      rewrite (@startswith_before old e [] He (x :: a)).
      destruct (Py.startswith old (x :: a)) eqn:E.
      * apply startswith_length in E. cbn in E.
        destruct (IH (Nat.pred (List.length old))) as (X & EX); [lia|].
        exists (new ++ X). rewrite EX, List.app_assoc. reflexivity.
      * destruct (IH 0) as (X & EX); [lia|].
        exists (x :: X). rewrite EX. reflexivity.
    + cbn [List.app Py.replace_from]. apply IH. cbn in Hk. lia.
Qed.

Lemma restore_ends (b : str) :
  ends_sentence b -> ends_sentence (Py.replace_from MARKER [NL] 0 b).
Proof.
  intros (a & e & -> & He).
  destruct (@replace_from_last MARKER [NL] e) with (a := a) (k := 0) as (X & EX).
  - discriminate.
  - apply sentence_end_not_marker. exact He.
  - lia.
  - exists X, e. split; [exact EX|exact He].
Qed.

Lemma tl_map (A B : Type) (f : A -> B) (l : list A) :
  List.tl (List.map f l) = List.map f (List.tl l).
Proof. destruct l; reflexivity. Qed.

Lemma removelast_map (A B : Type) (f : A -> B) (l : list A) :
  List.removelast (List.map f l) = List.map f (List.removelast l).
Proof.
  induction l as [|x l IH]; [reflexivity|].
  destruct l as [|y l]; [reflexivity|].
  change (List.map f (x :: y :: l)) with (f x :: List.map f (y :: l)).
  rewrite (@removelast_cons B (f x) (List.map f (y :: l))) by discriminate.
  rewrite (@removelast_cons A x (y :: l)) by discriminate.
  rewrite IH. reflexivity.
Qed.

(** X19: [_split_ability_blocks] returns at least one block; every
    block but the first starts with an upper-case letter or an opening
    brace, and every block but the last ends with a full stop, an
    exclamation mark or a question mark. *)
Theorem blocks_are_sentences (text : str) :
  _split_ability_blocks text <> [] /\
  List.Forall starts_block (List.tl (_split_ability_blocks text)) /\
  List.Forall ends_sentence (List.removelast (_split_ability_blocks text)).
Proof.
  unfold _split_ability_blocks, Re.split. cbv zeta.
  set (T := Py.replace [NL] (lit " | NEWLINE | ") text).
  change (Py.replace (lit " | NEWLINE | ") [NL]) with (Py.replace_from MARKER [NL] 0).
  destruct (@split_pieces_shape (List.length T) T None []) as [H1 H2]; [lia|exact I|].
  split; [|split].
  - destruct (split_from_head Pat.block_boundary T 0 None []) as (rest & P & E).
    rewrite E. discriminate.
  - rewrite tl_map. apply List.Forall_map.
    eapply List.Forall_impl; [|exact H1]. apply restore_starts.
  - rewrite removelast_map. apply List.Forall_map.
    eapply List.Forall_impl; [|exact H2]. apply restore_ends.
Qed.

(** *** Type lines *)

Lemma startswith_in (p : str) :
  forall s c, Py.startswith p s = true -> List.In c p -> List.In c s.
Proof.
  induction p as [|x p IH]; intros s c H Hc; [destruct Hc|].
  destruct s as [|y s]; [discriminate|].
  cbn [Py.startswith] in H. apply andb_prop in H. destruct H as [E H].
  apply N.eqb_eq in E. subst y.
  destruct Hc as [->|Hc]; [left; reflexivity|right; apply (IH s c); assumption].
Qed.

Lemma contains_in (sub : str) :
  forall s c, Py.contains sub s = true -> List.In c sub -> List.In c s.
Proof.
  induction s as [|x s IH]; intros c H Hc.
  - cbn in H. rewrite Bool.orb_false_r in H. exact (@startswith_in sub _ c H Hc).
  - rewrite contains_cons in H. apply Bool.orb_prop in H. destruct H as [H|H].
    + exact (@startswith_in sub _ c H Hc).
    + right. apply IH; assumption.
Qed.

(** X20: on a type line without a hyphen, [parse_card_type] returns the
    words of the line joined by single blanks: white space at the ends
    is dropped and every inner run of white space becomes one blank. *)
Theorem parse_card_type_without_hyphen (type_str : str) :
  ~ List.In 45%N type_str ->
  parse_card_type type_str = Py.join (lit " ") (words (Py.strip type_str)).
Proof.
  intro H. unfold parse_card_type.
  destruct type_str as [|c0 t0]; [reflexivity|].
  change (negb (Py.truthy (c0 :: t0))) with false. cbv iota zeta.
  rewrite sub_spaces.
  assert (N : ~ List.In 45%N (collapse (lit " ") false (Py.strip (c0 :: t0)))).
  { assert (F : List.Forall (fun c => c <> 45%N)
                  (collapse (lit " ") false (Py.strip (c0 :: t0)))).
    { apply collapse_chars.
      - constructor; [discriminate|constructor].
      - apply strip_subset. apply List.Forall_forall. intros c Hc _ ->. apply H. exact Hc. }
    rewrite List.Forall_forall in F. intro K. apply (F _ K). reflexivity. }
  destruct (Py.contains (lit " - ") _) eqn:E.
  - exfalso. apply N. apply (@contains_in (lit " - ") _ 45%N E). right. left. reflexivity.
  - apply collapse_stripped.
Qed.

Lemma parse_card_type_without_hyphen_witness :
  ~ List.In 45%N (lit "  Legendary   Creature ") /\
  parse_card_type (lit "  Legendary   Creature ")
  = Py.join (lit " ") (words (Py.strip (lit "  Legendary   Creature "))).
Proof.
  assert (H : ~ List.In 45%N (lit "  Legendary   Creature ")).
  { vm_compute. intuition discriminate. }
  split; [exact H | exact (@parse_card_type_without_hyphen _ H)].
Defined.

(** *** Type lines with subtypes *)

Lemma words_from_word (w : str) :
  List.Forall (fun c => Py.isspace c = false) w ->
  forall acc s, words_from acc (w ++ s) = words_from (List.rev w ++ acc) s.
Proof.
  induction w as [|x w IH]; intros Hw acc s; [reflexivity|].
  inversion Hw as [|? ? Hx Hw']; subst.
  cbn [List.app words_from]. rewrite Hx. rewrite IH by exact Hw'.
  cbn [List.rev]. rewrite <- List.app_assoc. reflexivity.
Qed.

Lemma rev_nonempty (A : Type) (l : list A) : l <> [] -> List.rev l <> [].
Proof.
  intros H E. apply (f_equal (@List.rev A)) in E.
  rewrite List.rev_involutive in E. cbn in E. congruence.
Qed.

Lemma words_from_end (w : str) :
  is_word w ->
  words_from [] w = [w] /\
  forall s, words_from [] (w ++ 32%N :: s) = w :: words_from [] s.
Proof.
  intros [Hn Hw].
  assert (Hr : List.rev w <> []) by (apply rev_nonempty; exact Hn).
  split.
  - rewrite <- (List.app_nil_r w) at 1. rewrite (words_from_word Hw [] []).
    rewrite List.app_nil_r. cbn [words_from].
    destruct (List.rev w) eqn:E; [congruence|]. rewrite <- E, List.rev_involutive. reflexivity.
  - intro s. rewrite (words_from_word Hw [] (32%N :: s)). rewrite List.app_nil_r.
    cbn [words_from]. change (Py.isspace 32) with true. cbv iota.
    destruct (List.rev w) eqn:E; [congruence|]. rewrite <- E, List.rev_involutive. reflexivity.
Qed.

Lemma words_join :
  forall W, List.Forall is_word W ->
            words (Py.join (lit " ") W) = W /\
            words (Py.join (lit " ") W ++ lit " ") = W.
Proof.
  unfold words. induction W as [|w W IH]; intro H; [split; reflexivity|].
  inversion H as [|? ? Hword HW]; subst.
  destruct (IH HW) as [I1 I2].
  destruct (words_from_end Hword) as [E1 E2].
  destruct W as [|w' W].
  - cbn [Py.join]. split; [exact E1|].
    change (w ++ lit " ") with (w ++ 32%N :: []). rewrite E2. reflexivity.
  - change (Py.join (lit " ") (w :: w' :: W))
      with (w ++ 32%N :: Py.join (lit " ") (w' :: W)).
    split.
    + rewrite E2, I1. reflexivity.
    + rewrite <- List.app_assoc. cbn [List.app]. rewrite E2, I2. reflexivity.
Qed.

Lemma dash_word_at (r : str) (acc : str) :
  List.In (lit "-") (words_from acc (DASH_SEP ++ r)).
Proof.
  change (DASH_SEP ++ r) with (32%N :: 45%N :: 32%N :: r).
  cbn [words_from]. change (Py.isspace 32) with true. change (Py.isspace 45) with false.
  cbv iota. destruct acc; cbn [List.rev List.app]; [left; reflexivity|right; left; reflexivity].
Qed.

Lemma startswith_split (p s : str) :
  Py.startswith p s = true -> exists r, s = p ++ r.
Proof.
  revert s. induction p as [|x p IH]; intros s H; [exists s; reflexivity|].
  destruct s as [|y s]; [discriminate|].
  cbn [Py.startswith] in H. apply andb_prop in H. destruct H as [E H].
  apply N.eqb_eq in E. subst y. destruct (IH s H) as (r & ->). exists r. reflexivity.
Qed.

Lemma contains_dash_word :
  forall s acc, Py.contains DASH_SEP s = true -> List.In (lit "-") (words_from acc s).
Proof.
  induction s as [|x s IH]; intros acc H.
  - cbn in H. discriminate.
  - rewrite contains_cons in H. apply Bool.orb_prop in H. destruct H as [H|H].
    + apply startswith_split in H. destruct H as (r & ->). apply dash_word_at.
    + cbn [words_from]. destruct (Py.isspace x).
      * destruct acc; [apply IH; exact H | right; apply IH; exact H].
      * apply IH. exact H.
Qed.

Lemma split_sep_none :
  forall p acc, Py.contains DASH_SEP p = false ->
                Py.split_from DASH_SEP 0 acc p = [List.rev acc ++ p].
Proof.
  induction p as [|x p IH]; intros acc H.
  - cbn. rewrite List.app_nil_r. reflexivity.
  - rewrite contains_cons in H. apply Bool.orb_false_elim in H. destruct H as [H1 H2].
    cbn [Py.split_from]. rewrite H1. rewrite IH by exact H2.
    cbn [List.rev]. rewrite <- List.app_assoc. reflexivity.
Qed.

Lemma startswith_sep_inside (x : char) (p rest : str) :
  Py.startswith DASH_SEP (x :: p ++ DASH_SEP ++ rest) = true ->
  Py.startswith DASH_SEP (x :: p ++ [32%N]) = true.
Proof.
  change DASH_SEP with [32%N; 45%N; 32%N].
  destruct p as [|a [|b p]]; cbn [List.app Py.startswith]; intro H.
  - apply andb_prop in H. destruct H as [_ H]. cbn in H. discriminate.
  - apply andb_prop in H. destruct H as [H1 H]. apply andb_prop in H. destruct H as [H2 _].
    rewrite H1, H2. reflexivity.
  - exact H.
Qed.

Lemma split_sep_piece :
  forall p acc rest,
    Py.contains DASH_SEP (p ++ [32%N]) = false ->
    Py.split_from DASH_SEP 0 acc (p ++ DASH_SEP ++ rest)
    = (List.rev acc ++ p) :: Py.split_from DASH_SEP 0 [] rest.
Proof.
  induction p as [|x p IH]; intros acc rest H.
  - rewrite List.app_nil_r. destruct rest; reflexivity.
  - change ((x :: p) ++ [32%N]) with (x :: (p ++ [32%N])) in H.
    rewrite contains_cons in H. apply Bool.orb_false_elim in H. destruct H as [H1 H2].
    change ((x :: p) ++ DASH_SEP ++ rest) with (x :: p ++ DASH_SEP ++ rest).
    cbn [Py.split_from].
    destruct (Py.startswith DASH_SEP (x :: p ++ DASH_SEP ++ rest)) eqn:E.
    + apply startswith_sep_inside in E.
      exact (False_ind _ (Bool.diff_true_false (eq_trans (eq_sym E) H1))).
    + rewrite IH by exact H2. cbn [List.rev]. rewrite <- List.app_assoc. reflexivity.
Qed.

Lemma join_app (sep : str) (A B : list str) :
  A <> [] -> B <> [] ->
  Py.join sep (A ++ B) = Py.join sep A ++ sep ++ Py.join sep B.
Proof.
  intros HA HB. induction A as [|a A IH]; [congruence|].
  destruct A as [|a' A].
  - cbn [List.app]. destruct B; [congruence|reflexivity].
  - change ((a :: a' :: A) ++ B) with (a :: ((a' :: A) ++ B)).
    rewrite (@join_cons sep a ((a' :: A) ++ B)) by (cbn [List.app]; discriminate).
    rewrite IH by discriminate.
    rewrite (@join_cons sep a (a' :: A)) by discriminate.
    rewrite <- !List.app_assoc. reflexivity.
Qed.


Lemma join_words_shape :
  forall W, List.Forall is_word W -> W <> [] ->
    match Py.join (lit " ") W with x :: _ => Py.isspace x = false | [] => False end /\
    match List.rev (Py.join (lit " ") W) with x :: _ => Py.isspace x = false | [] => False end.
Proof.
  induction W as [|w W IH]; intros H Hn; [congruence|].
  inversion H as [|? ? [Hw Hc] HW]; subst.
  destruct W as [|w' W].
  - cbn [Py.join]. split.
    + destruct w as [|x w]; [congruence|]. inversion Hc; assumption.
    + pose proof (@rev_nonempty _ w Hw) as Hr.
      destruct (List.rev w) as [|x r] eqn:E; [congruence|].
      assert (Hin : List.In x w) by (apply List.in_rev; rewrite E; left; reflexivity).
      rewrite List.Forall_forall in Hc. apply Hc. exact Hin.
  - rewrite join_cons by discriminate. split.
    + destruct w as [|x w]; [congruence|]. inversion Hc; assumption.
    + destruct (IH HW) as [_ I]; [discriminate|].
      rewrite !List.rev_app_distr.
      destruct (List.rev (Py.join (lit " ") (w' :: W))) as [|x r]; [destruct I|exact I].
Qed.

Lemma join_words_stripped (W : list str) :
  List.Forall is_word W -> Py.strip (Py.join (lit " ") W) = Py.join (lit " ") W.
Proof.
  intro H. destruct W as [|w W]; [reflexivity|].
  destruct (@join_words_shape (w :: W) H) as [H1 H2]; [discriminate|].
  unfold Py.strip. rewrite lstrip_id.
  - apply rstrip_id. unfold no_trailing_space.
    destruct (List.rev (Py.join (lit " ") (w :: W))); [exact I|exact H2].
  - destruct (Py.join (lit " ") (w :: W)); [exact I|exact H1].
Qed.

Lemma words_are_words (s : str) : List.Forall is_word (words s).
Proof.
  unfold words.
  pose proof (@words_from_chars (fun _ => True) s []) as H.
  assert (K : List.Forall
      (fun w => w <> [] /\ List.Forall (fun c => Py.isspace c = false /\ True) w)
      (words_from [] s)).
  { apply H; [|constructor|constructor]. apply List.Forall_forall. intros; exact I. }
  rewrite List.Forall_forall in *. intros w Hw. destruct (K w Hw) as [A B].
  split; [exact A|]. rewrite List.Forall_forall in *. intros c Hc. apply (B c Hc).
Qed.

Lemma no_dash_word (W : list str) (tail : str) :
  List.Forall is_word W -> ~ List.In (lit "-") W ->
  (tail = [] \/ tail = lit " ") ->
  Py.contains DASH_SEP (Py.join (lit " ") W ++ tail) = false.
Proof.
  intros HW Hn Ht.
  destruct (Py.contains DASH_SEP (Py.join (lit " ") W ++ tail)) eqn:E; [|reflexivity].
  exfalso. apply Hn.
  pose proof (@contains_dash_word _ [] E) as K.
  destruct (words_join HW) as [W1 W2]. unfold words in W1, W2.
  destruct Ht as [->| ->].
  - rewrite List.app_nil_r in K. rewrite W1 in K. exact K.
  - rewrite W2 in K. exact K.
Qed.

(** X21: on a type line whose words are main types, one hyphen and
    subtypes (no other word is a hyphen, and neither side is empty),
    [parse_card_type] returns the main types and the subtypes joined by
    single blanks, without the hyphen. *)
Theorem parse_card_type_drops_the_hyphen (type_str : str) (main_words sub_words : list str) :
  words (Py.strip type_str) = main_words ++ [lit "-"] ++ sub_words ->
  main_words <> [] -> sub_words <> [] ->
  ~ List.In (lit "-") main_words -> ~ List.In (lit "-") sub_words ->
  parse_card_type type_str = Py.join (lit " ") (main_words ++ sub_words).
Proof.
  intros Hw Hm Hs Hdm Hds.
  pose proof (words_are_words (Py.strip type_str)) as HW. rewrite Hw in HW.
  apply List.Forall_app in HW. destruct HW as [HWm HW].
  apply List.Forall_app in HW. destruct HW as [_ HWs].
  unfold parse_card_type.
  destruct type_str as [|c0 t0]; [destruct main_words; discriminate|].
  change (negb (Py.truthy (c0 :: t0))) with false. cbv iota zeta.
  rewrite sub_spaces. rewrite collapse_stripped. rewrite Hw.
  assert (J : Py.join (lit " ") (main_words ++ [lit "-"] ++ sub_words)
              = Py.join (lit " ") main_words ++ DASH_SEP ++ Py.join (lit " ") sub_words).
  { rewrite join_app by (try assumption; discriminate).
    change ([lit "-"] ++ sub_words) with (lit "-" :: sub_words).
    rewrite join_cons by assumption. reflexivity. }
  rewrite J.
  assert (C : Py.contains (lit " - ")
                (Py.join (lit " ") main_words ++ DASH_SEP ++ Py.join (lit " ") sub_words) = true).
  { clear. induction (Py.join (lit " ") main_words) as [|x p IH].
    - cbn [List.app]. destruct (Py.join (lit " ") sub_words); reflexivity.
    - change ((x :: p) ++ DASH_SEP ++ Py.join (lit " ") sub_words)
        with (x :: (p ++ DASH_SEP ++ Py.join (lit " ") sub_words)).
      rewrite contains_cons. change (lit " - ") with DASH_SEP in *. rewrite IH.
      apply Bool.orb_true_r. }
  rewrite C. unfold Py.split. change (lit " - ") with DASH_SEP.
  rewrite split_sep_piece by (apply no_dash_word; [assumption|assumption|right; reflexivity]).
  rewrite split_sep_none.
  2:{ rewrite <- (List.app_nil_r (Py.join (lit " ") sub_words)).
      apply no_dash_word; [assumption|assumption|left; reflexivity]. }
  cbn [List.rev List.app List.hd List.tl Py.join].
  rewrite !join_words_stripped by assumption.
  rewrite join_app by assumption. reflexivity.
Qed.

Lemma parse_card_type_drops_the_hyphen_witness :
  words (Py.strip creature_type_line)
  = [lit "Legendary"; lit "Creature"] ++ [lit "-"] ++ [lit "Elf"; lit "Druid"] /\
  parse_card_type creature_type_line = lit "Legendary Creature Elf Druid".
Proof.
  assert (Hw : words (Py.strip creature_type_line)
               = [lit "Legendary"; lit "Creature"] ++ [lit "-"] ++ [lit "Elf"; lit "Druid"]).
  { vm_compute. reflexivity. }
  split; [exact Hw|].
  apply (@parse_card_type_drops_the_hyphen creature_type_line
           [lit "Legendary"; lit "Creature"] [lit "Elf"; lit "Druid"] Hw).
  - discriminate.
  - discriminate.
  - vm_compute. intuition discriminate.
  - vm_compute. intuition discriminate.
Defined.

(** *** Single lines *)

Lemma one_line_app (a b : str) : one_line (a ++ b) = (one_line a && one_line b)%bool.
Proof. apply List.forallb_app. Qed.

Lemma one_line_digits (s : str) : List.Forall is_digit_char s -> one_line s = true.
Proof.
  intro H. unfold one_line. apply List.forallb_forall. intros c Hc.
  rewrite List.Forall_forall in H. specialize (H c Hc). unfold is_digit_char in H.
  destruct (N.eqb_spec c NL) as [->|_]; [|reflexivity]. unfold NL in H. lia.
Qed.

Lemma one_line_isdigit (s : str) : List.forallb Py.isdigit s = true -> one_line s = true.
Proof.
  intro H. unfold one_line. apply List.forallb_forall. intros c Hc.
  rewrite List.forallb_forall in H. specialize (H c Hc).
  destruct (N.eqb_spec c NL) as [->|_]; [discriminate H|reflexivity].
Qed.

Lemma str_of_nat_digits (n : nat) : List.Forall is_digit_char (Py.str_of_nat n).
Proof.
  unfold Py.str_of_nat, NilZero.string_of_uint.
  destruct (Nat.to_uint n); try apply string_of_uint_digits.
  constructor; [unfold is_digit_char; cbn; lia|constructor].
Qed.

Lemma counter_type_one_line (text : str) : one_line (_extract_counter_type text) = true.
Proof.
  unfold _extract_counter_type, counter_types. cbn [first_key_in].
  repeat match goal with
         | |- context [if ?b then _ else _] => destruct b; [reflexivity|]
         end.
  reflexivity.
Qed.

Lemma number_one_line (text keyword : str) :
  plain_keyword keyword -> one_line (_extract_number text keyword) = true.
Proof.
  intro H. apply one_line_isdigit. apply (@extract_number_digits text keyword H).
Qed.

Lemma one_line_cons (c : char) (s : str) :
  c <> NL -> one_line s = true -> one_line (c :: s) = true.
Proof.
  intros H1 H2. unfold one_line in *. cbn [List.forallb]. rewrite H2.
  destruct (N.eqb_spec c NL); [contradiction|reflexivity].
Qed.

Ltac one_line_parts :=
  lazymatch goal with
  | |- one_line (_ :: _) = true => apply one_line_cons; [discriminate|one_line_parts]
  | |- one_line (_ ++ _) = true =>
      rewrite one_line_app; apply andb_true_intro; split; one_line_parts
  | |- one_line (_extract_number _ _) = true => apply number_one_line; reflexivity
  | |- one_line (_extract_counter_type _) = true => apply counter_type_one_line
  | |- _ => reflexivity
  end.

Ltac effect_branches :=
  lazymatch goal with
  | |- (if ?b then _ else _) = Some _ -> _ => destruct b; effect_branches
  | |- Some _ = Some _ -> _ => intros [= <-]; one_line_parts
  | |- None = Some _ -> _ => discriminate
  end.

Lemma effect_one_line (text e : str) :
  _parse_effect_to_ability text = Some e -> one_line e = true.
Proof. unfold _parse_effect_to_ability. cbv zeta. effect_branches. Qed.

Ltac name_parts :=
  lazymatch goal with
  | H : one_line ?x = true |- one_line ?x = true => exact H
  | |- one_line (Py.str_of_N _) = true => apply one_line_digits, str_of_N_digits
  | |- one_line (Py.str_of_nat _) = true => apply one_line_digits, str_of_nat_digits
  | |- one_line (_ :: _) = true => apply one_line_cons; [discriminate|name_parts]
  | |- one_line (_ ++ _) = true =>
      rewrite one_line_app; apply andb_true_intro; split; name_parts
  | |- _ => reflexivity
  end.

Lemma ability_outcome_one_line (st st' : t) :
  ability_outcome st st' -> svars_one_line st -> svars_one_line st'.
Proof. intros (H & _) K. unfold svars_one_line. rewrite H. exact K. Qed.

Lemma parse_trigger_one_line (pattern : Re.re) (word : str) (st : t) (text : str) :
  svars_one_line st -> svars_one_line (parse_trigger pattern word st text).
Proof.
  intro K. unfold parse_trigger.
  destruct (Re.rmatch pattern text) as [[c g]|]; [|exact K].
  cbv zeta. unfold if_truthy.
  destruct (_extract_trigger _) as [[|c0 tl]|]; try exact K.
  unfold _get_next_svar_name. cbv beta iota zeta.
  cbn [svar_counter ability_lines svar_lines].
  destruct (_parse_effect_to_ability _) as [[|e0 e]|] eqn:E; try exact K.
  unfold svars_one_line, add_ability_line, add_svar_line.
  cbn [svar_counter ability_lines svar_lines].
  apply forallb_snoc; [exact K|].
  pose proof (@effect_one_line _ _ E). name_parts.
Qed.

Lemma parse_beginning_one_line (st : t) (text : str) :
  svars_one_line st -> svars_one_line (_parse_beginning_ability st text).
Proof.
  intro K. unfold _parse_beginning_ability.
  destruct (Re.rmatch Pat.beginning text) as [[c g]|]; [|exact K].
  cbv zeta. unfold if_truthy.
  destruct (first_key_in phase_map _) as [[|c0 tl]|]; try exact K.
  unfold _get_next_svar_name. cbv beta iota zeta.
  cbn [svar_counter ability_lines svar_lines].
  destruct (_parse_effect_to_ability _) as [[|e0 e]|] eqn:E; try exact K.
  unfold svars_one_line, add_ability_line, add_svar_line.
  cbn [svar_counter ability_lines svar_lines].
  apply forallb_snoc; [exact K|].
  pose proof (@effect_one_line _ _ E). name_parts.
Qed.

Lemma parse_upkeep_one_line (st : t) (text : str) :
  svars_one_line st -> svars_one_line (_parse_upkeep_ability st text).
Proof.
  intro K. unfold _parse_upkeep_ability.
  destruct (Re.search Pat.upkeep text) as [[c g]|]; [|exact K].
  cbv zeta. unfold if_truthy.
  unfold _get_next_svar_name. cbv beta iota zeta.
  cbn [svar_counter ability_lines svar_lines].
  destruct (_parse_effect_to_ability _) as [[|e0 e]|] eqn:E; try exact K.
  unfold svars_one_line, add_ability_line, add_svar_line.
  cbn [svar_counter ability_lines svar_lines].
  apply forallb_snoc; [exact K|].
  pose proof (@effect_one_line _ _ E). name_parts.
Qed.

Lemma one_line_join (sep : str) (l : list str) :
  one_line sep = true -> List.forallb one_line l = true ->
  one_line (Py.join sep l) = true.
Proof.
  intros Hs. induction l as [|x l IH]; intro H; [reflexivity|].
  cbn [List.forallb] in H. apply andb_prop in H. destruct H as [Hx Hl].
  destruct l as [|y l]; [exact Hx|].
  rewrite join_cons by discriminate.
  rewrite !one_line_app, Hx, Hs, (IH Hl). reflexivity.
Qed.

Lemma modal_choices_one_line :
  forall choices st i,
    svars_one_line st ->
    List.forallb one_line (fst (modal_choices st i choices)) = true /\
    svars_one_line (snd (modal_choices st i choices)).
Proof.
  induction choices as [|choice choices IH]; intros st i K; [split; [reflexivity|exact K]|].
  cbn [modal_choices]. unfold _parse_modal_choice, _get_next_svar_name.
  cbv beta iota zeta. cbn [svar_counter ability_lines svar_lines].
  match goal with |- context [modal_choices ?s (S i) choices] =>
    assert (K' : svars_one_line s); [|destruct (IH s (S i) K') as [I1 I2];
      destruct (modal_choices s (S i) choices) as [names st'] eqn:Em]
  end.
  - unfold if_truthy.
    destruct (_parse_effect_to_ability choice) as [[|e0 e]|] eqn:E; try exact K.
    unfold svars_one_line, add_svar_line. cbn [svar_counter ability_lines svar_lines].
    apply forallb_snoc; [exact K|].
    pose proof (@effect_one_line _ _ E). name_parts.
  - cbn [fst snd] in *. split; [|exact I2].
    cbn [List.forallb]. rewrite I1, Bool.andb_true_r. name_parts.
Qed.

Lemma parse_modal_one_line (st : t) (text : str) :
  svars_one_line st -> svars_one_line (_parse_modal_ability st text).
Proof.
  intro K. unfold _parse_modal_ability.
  match goal with |- context [let (_, _) := ?pc in _] => destruct pc as [prefix choices_text] end.
  cbv zeta.
  destruct (_extract_modal_choices choices_text) as [|ch chs] eqn:Ec.
  { exact (@ability_outcome_one_line _ _ (parse_spell_effect_outcome st text) K). }
  unfold _get_next_svar_name. cbv beta iota zeta.
  cbn [svar_counter ability_lines svar_lines].
  match goal with |- context [modal_choices ?s 1 (ch :: chs)] =>
    destruct (@modal_choices_one_line (ch :: chs) s 1 K) as [I1 I2];
    destruct (modal_choices s 1 (ch :: chs)) as [names st'] eqn:Em
  end.
  cbn [fst snd] in I1, I2.
  assert (A : List.forallb one_line
                (svar_lines st' ++
                 [lit "SVar:" ++ (lit "Choices" ++ Py.str_of_N (svar_counter st + 1))
                  ++ lit ":" ++ Py.join (lit ",") names]) = true).
  { apply forallb_snoc; [exact I2|].
    pose proof (@one_line_join (lit ",") names eq_refl I1). name_parts. }
  destruct (_ && _)%bool.
  - unfold if_truthy. destruct (_extract_trigger prefix) as [[|c0 tl]|]; try exact A.
    unfold svars_one_line, add_ability_line, add_svar_line.
    cbn [svar_counter ability_lines svar_lines].
    apply forallb_snoc; [exact A|].
    name_parts.
  - exact A.
Qed.

Lemma parse_ability_block_one_line (st : t) (text : str) :
  svars_one_line st -> svars_one_line (_parse_ability_block st text).
Proof.
  intro K. apply parse_ability_block_cases; [exact K| |].
  - intros _. apply parse_modal_one_line. exact K.
  - intros _.
    split; [apply parse_trigger_one_line; exact K|].
    split; [apply parse_trigger_one_line; exact K|].
    split; [apply parse_beginning_one_line; exact K|].
    split; [apply parse_upkeep_one_line; exact K|].
    split; [exact (@ability_outcome_one_line _ _ (parse_activated_outcome st _) K)|].
    split; [exact (@ability_outcome_one_line _ _ (parse_static_outcome st _) K)|].
    exact (@ability_outcome_one_line _ _ (parse_spell_effect_outcome st _) K).
Qed.

Lemma parse_blocks_one_line :
  forall blocks st, svars_one_line st -> svars_one_line (parse_blocks st blocks).
Proof.
  induction blocks as [|b blocks IH]; intros st K; [exact K|].
  cbn [parse_blocks]. cbv zeta.
  destruct (negb (Py.truthy (Py.strip b))); apply IH; [exact K|].
  apply parse_ability_block_one_line. exact K.
Qed.

(** X22: no [SVar:] line that [parse_abilities] returns holds a line
    break, whatever the text. *)
Theorem svar_lines_are_single_lines (self : t) (text : str) :
  List.forallb one_line (snd (fst (parse_abilities self text))) = true.
Proof.
  unfold parse_abilities. destruct (negb (Py.truthy text)); [reflexivity|].
  cbv zeta. cbn [fst snd]. apply parse_blocks_one_line. reflexivity.
Qed.

(** *** What the resolvers write *)

Ltac kind_branches :=
  lazymatch goal with
  | |- (if ?b then _ else _) = Some _ -> _ => destruct b; kind_branches
  | |- Some _ = Some _ -> _ => intros [= <-]; reflexivity
  | |- None = Some _ -> _ => discriminate
  end.

Lemma effect_has_kind (text e : str) :
  _parse_effect_to_ability text = Some e -> has_kind effect_kinds e = true.
Proof. unfold _parse_effect_to_ability. cbv zeta. kind_branches. Qed.

Lemma trigger_has_mode (text tr : str) :
  _extract_trigger text = Some tr ->
  Py.startswith (lit "Mode$ ") tr = true /\ one_line tr = true.
Proof.
  unfold _extract_trigger. cbv zeta.
  repeat lazymatch goal with
         | |- (if ?b then _ else _) = Some _ -> _ => destruct b
         end;
    first [discriminate | intros [= <-]; split; reflexivity].
Qed.

(** X23: an effect the resolver recognises is written as a single line
    that starts with one of fifteen effect kinds followed by a bar, and
    a trigger it recognises as a single line that starts with [Mode$ ]:
    neither resolver ever returns an empty text. *)
Theorem resolvers_write_known_kinds (text : str) :
  match _parse_effect_to_ability text with
  | Some line => has_kind effect_kinds line = true /\ one_line line = true
  | None => True
  end /\
  match _extract_trigger text with
  | Some line => Py.startswith (lit "Mode$ ") line = true /\ one_line line = true
  | None => True
  end.
Proof.
  split.
  - destruct (_parse_effect_to_ability text) as [line|] eqn:H; [|exact I].
    split; [exact (@effect_has_kind _ _ H)|exact (@effect_one_line _ _ H)].
  - destruct (_extract_trigger text) as [line|] eqn:H; [|exact I].
    exact (@trigger_has_mode _ _ H).
Qed.

(** *** Charms *)

Lemma effect_not_empty (text : str) : _parse_effect_to_ability text <> Some [].
Proof. intro H. apply effect_has_kind in H. discriminate H. Qed.

Lemma trigger_not_empty (text : str) : _extract_trigger text <> Some [].
Proof. intro H. apply trigger_has_mode in H. destruct H as [H _]. discriminate H. Qed.

Lemma modal_choices_closed :
  forall choices st i,
    modal_choices st i choices
    = (choice_names i (svar_counter st + 1) choices,
       mk (ability_lines st)
          (svar_lines st ++ choice_lines i (svar_counter st + 1) choices)
          (svar_counter st + N.of_nat (List.length choices))).
Proof.
  induction choices as [|choice choices IH]; intros st i.
  - cbn. rewrite List.app_nil_r, N.add_0_r. destruct st; reflexivity.
  - cbn [modal_choices choice_names choice_lines List.length].
    unfold _parse_modal_choice, _get_next_svar_name. cbv beta iota zeta.
    cbn [svar_counter ability_lines svar_lines].
    rewrite IH. unfold if_truthy.
    pose proof (@effect_not_empty choice) as Hne.
    assert (Hc : (svar_counter st + 1 + N.of_nat (List.length choices)
                  = svar_counter st + N.of_nat (S (List.length choices)))%N)
      by (rewrite Nat2N.inj_succ; lia).
    destruct (_parse_effect_to_ability choice) as [[|e0 e]|] eqn:E; [destruct (Hne eq_refl)| |];
      unfold add_svar_line; cbn [svar_counter ability_lines svar_lines]; rewrite Hc.
    + rewrite <- (List.app_assoc (svar_lines st)). reflexivity.
    + reflexivity.
Qed.

(** X15: on a text of ASCII characters, em dashes and bullets,
    [_parse_modal_ability] behaves as [_parse_spell_effect] when it
    extracts no choice.  Otherwise it takes the next counter value for
    the aggregate [Choices] and the following ones for the choices, in
    order, the choice of index i at counter value n being named
    Choice<i><n>; it writes the definition of each choice whose effect
    resolves, in order, then the [Choices] line that lists the names of
    all the choices; and it plays the charm by one [A:SP$ Charm] line
    when the prefix is not that of a trigger, by one [T:] line that
    executes a [CharmEffect] variable defined right after the aggregate
    when the trigger of the prefix is recognised, and by no line when it
    is not.  Nothing else of the parser changes. *)
Theorem charm_is_wired (st : t) (text : str) :
  card_text text ->
  let prefix := fst (modal_parts text) in
  let choices := _extract_modal_choices (snd (modal_parts text)) in
  let c := svar_counter st in
  let n := N.of_nat (List.length choices) in
  let num := Py.str_of_nat (List.length choices) in
  let agg := lit "Choices" ++ Py.str_of_N (c + 1) in
  let exec := lit "CharmEffect" ++ Py.str_of_N (c + 1 + n + 1) in
  let defs :=
    choice_lines 1 (c + 2) choices
    ++ [lit "SVar:" ++ agg ++ lit ":" ++ Py.join (lit ",") (choice_names 1 (c + 2) choices)] in
  _parse_modal_ability st text
  = match choices with
    | [] => _parse_spell_effect st text
    | _ :: _ =>
        if triggered_prefix prefix then
          match _extract_trigger prefix with
          | Some trigger_line =>
              mk (ability_lines st
                  ++ [lit "T:" ++ trigger_line ++ lit " | Execute$ " ++ exec
                      ++ lit " | TriggerDescription$ " ++ Py.upto 80 text])
                 (svar_lines st ++ defs
                  ++ [lit "SVar:" ++ exec ++ lit ":AB$ Charm | CharmNum$ " ++ num
                      ++ lit " | Choices$ " ++ agg])
                 (c + 1 + n + 1)
          | None => mk (ability_lines st) (svar_lines st ++ defs) (c + 1 + n)
          end
        else
          mk (ability_lines st
              ++ [lit "A:SP$ Charm | CharmNum$ " ++ num ++ lit " | Choices$ " ++ agg
                  ++ lit " | SpellDescription$ " ++ Py.upto 100 text])
             (svar_lines st ++ defs)
             (c + 1 + n)
    end.
Proof.
  intros _. cbv zeta. unfold _parse_modal_ability.
  change (match Re.rmatch Pat.modal text with
          | Some (_, g) => (Py.strip (Re.group 1 g), Py.strip (Re.group 2 g))
          | None => ([], text)
          end) with (modal_parts text).
  destruct (modal_parts text) as [prefix choices_text]. cbn [fst snd].
  destruct (_extract_modal_choices choices_text) as [|ch chs]; [reflexivity|].
  unfold _get_next_svar_name. cbv beta iota zeta.
  cbn [svar_counter ability_lines svar_lines].
  rewrite modal_choices_closed. cbn [svar_counter ability_lines svar_lines].
  unfold add_svar_line, add_ability_line, if_truthy.
  cbn [svar_counter ability_lines svar_lines].
  fold (triggered_prefix prefix).
  replace (svar_counter st + 1 + 1)%N with (svar_counter st + 2)%N by lia.
  rewrite <- !(List.app_assoc (svar_lines st)).
  destruct (triggered_prefix prefix); [|reflexivity].
  pose proof (@trigger_not_empty prefix) as Hne.
  destruct (_extract_trigger prefix) as [[|t0 tl]|] eqn:E; [destruct (Hne eq_refl)| |];
    reflexivity.
Qed.

Lemma charm_is_wired_witness :
  card_text dance_text /\
  _parse_modal_ability __init__ dance_text
  = mk [lit "A:SP$ Charm | CharmNum$ 2 | Choices$ Choices1 | SpellDescription$ " ++ dance_text]
       [lit "SVar:Choice23:Draw | Defined$ You | NumCards$ 1";
        lit "SVar:Choices1:Choice12,Choice23"]
       3.
Proof.
  assert (H : card_text dance_text) by reflexivity.
  split; [exact H|].
  rewrite (@charm_is_wired __init__ dance_text H). vm_compute. reflexivity.
Defined.
